(** * BARC: the quota-check engine and the counter commands of the roster bot

    A shallow embedding of [src/index.js] and of its sibling revision
    [src/unnamed/part_000], with the properties of the specification that
    concern the staging of spreadsheet writes.  The two files have the same
    [handleAdd], [handleOfficerAdd] and [handleTryoutAdd]; their
    [handleQuotaCheck] differ.

    Part I, definitions:
    - [Js]: the JavaScript values that spreadsheet cells carry and the
      built-ins the handlers call on them ([||], [String], [trim],
      [toUpperCase], [parseInt], [Number]);
    - the configuration and helpers of the source ([SHEETS], [COL],
      [isChecked], [parseWords]) and the data the handlers build (cell
      addresses, staged updates, summary entries);
    - [QuotaCheck]: the loops of [handleQuotaCheck] over one sheet, written
      once over the three expressions in which the two files differ, and
      instantiated in [IndexJs] and [Part000];
    - the word loops of the three counter commands;
    - [Remote]: the handlers as programs that talk to the spreadsheet
      service, with the log of the calls they make;
    - the vocabulary of the statements.

    Part II, lemmas and theorems: what the loops emit, the remote calls,
    decimal digits, the coercions of the two files, and the claims; then
    further properties of the helpers, of the counter commands and of the
    whole invocation of [handleQuotaCheck].

    Numbers.  A JavaScript number that is an integer is represented by that
    integer in [Z], and arithmetic on it is exact.  This is what IEEE doubles
    do on the safe range (magnitude at most [2^53]).  Beyond it JavaScript
    rounds and the definitions below do not: [parseInt] and [+] return the
    nearest double, and [Infinity] from about [1.8e308] on; [String(n)]
    prints the shortest digits that read back as [n], not all of them;
    [Number(s)] rounds a long literal, and lets it underflow or overflow.
    [String(n)] switches to the exponential form at [10^21], as in
    JavaScript ([10^21] itself is a double).  The result of [Number(...)]
    may also be [NaN], or a number that is not an integer ([NonInteger],
    whose magnitude is not tracked).

    Strings.  A [string] is read as a sequence of code units below 256. *)

From Stdlib Require Import ZArith List String Ascii Bool Arith Lia.
Import ListNotations.

Open Scope string_scope.

(* ================================================================== *)
(** * JavaScript values and built-ins *)

Module Js.

(** A cell as it arrives in a row array of [res.data.values], or a missing
    index of that array ([VUndef]). *)
Inductive value :=
| VUndef
| VBool (b : bool)
| VNum (z : Z)
| VStr (s : string).

(** What [Number(...)] and the arithmetic on it produce. *)
Inductive num :=
| Int (z : Z)
| NaN
| NonInteger.

(** Exceptions a handler can raise by itself. *)
Inductive error := TypeError.

Inductive result (A : Type) :=
| Ok (a : A)
| Throw (e : error).
Arguments Ok {A} a.
Arguments Throw {A} e.

Definition bind {A B} (r : result A) (k : A -> result B) : result B :=
  match r with
  | Ok a => k a
  | Throw e => Throw e
  end.

Definition isOk {A} (r : result A) : bool :=
  match r with Ok _ => true | Throw _ => false end.

(** ** White space and trimming *)

(** TAB, LF, VT, FF, CR, SP and NBSP: the white space and line terminators
    below 256. *)
Definition isWhiteSpace (c : ascii) : bool :=
  let n := nat_of_ascii c in
  ((9 <=? n) && (n <=? 13) || (n =? 32) || (n =? 160))%nat.

Fixpoint trimStart (s : string) : string :=
  match s with
  | String c s' => if isWhiteSpace c then trimStart s' else s
  | EmptyString => EmptyString
  end.

Fixpoint trimEnd (s : string) : string :=
  match s with
  | EmptyString => EmptyString
  | String c s' =>
      match trimEnd s' with
      | EmptyString => if isWhiteSpace c then EmptyString else String c EmptyString
      | t => String c t
      end
  end.

(** [s.trim()] *)
Definition trim (s : string) : string := trimEnd (trimStart s).

(** ** Digits *)

(** The value of [c] as a digit of the given radix, if it is one. *)
Definition digitVal (radix : Z) (c : ascii) : option Z :=
  let n := Z.of_nat (nat_of_ascii c) in
  let d := (if (48 <=? n) && (n <=? 57) then n - 48
            else if (97 <=? n) && (n <=? 122) then n - 87
            else if (65 <=? n) && (n <=? 90) then n - 55
            else 36)%Z in
  if (d <? radix)%Z then Some d else None.

Definition isDigit (radix : Z) (c : ascii) : bool :=
  match digitVal radix c with Some _ => true | None => false end.

(** Reads the longest prefix of digits, accumulating its value on [acc];
    returns the value and what follows the digits. *)
Fixpoint digitsFrom (radix : Z) (acc : Z) (s : string) : Z * string :=
  match s with
  | String c s' =>
      match digitVal radix c with
      | Some d => digitsFrom radix (acc * radix + d) s'
      | None => (acc, s)
      end
  | EmptyString => (acc, s)
  end.

Definition startsWithDigit (radix : Z) (s : string) : bool :=
  match s with
  | String c _ => isDigit radix c
  | EmptyString => false
  end.

Fixpoint allDigits (radix : Z) (s : string) : bool :=
  match s with
  | String c s' => isDigit radix c && allDigits radix s'
  | EmptyString => true
  end.

(** ** Number to string *)

Definition digitChar (d : Z) : ascii := ascii_of_nat (Z.to_nat (48 + d)).

Fixpoint decDigits (fuel : nat) (n : Z) (acc : string) : string :=
  match fuel with
  | O => acc
  | S f =>
      let acc' := String (digitChar (n mod 10)) acc in
      if (n <? 10)%Z then acc' else decDigits f (n / 10) acc'
  end.

(** The decimal digits of [n >= 0]; a number below [2^k] has at most [k]
    digits, which bounds the recursion. *)
Definition decimal (n : Z) : string :=
  decDigits (S (Z.to_nat (Z.log2 n))) n "".

Fixpoint stripZeros (s : string) : string :=
  match s with
  | EmptyString => EmptyString
  | String c s' =>
      match stripZeros s' with
      | EmptyString => if (c =? "0")%char then EmptyString else String c EmptyString
      | t => String c t
      end
  end.

(** The exponential form [d.ddde+n] that [Number::toString] uses from
    [1e21] on. *)
Definition exponential (n : Z) : string :=
  match decimal n with
  | String d rest =>
      let frac := stripZeros rest in
      String d ((if frac =? "" then "" else "." ++ frac)
                ++ "e+" ++ decimal (Z.of_nat (String.length rest)))
  | EmptyString => EmptyString
  end.

(** [String(z)] for an integral number [z]; every digit of [z] is printed,
    also beyond [2^53] (see Numbers above). *)
Definition Number_toString (z : Z) : string :=
  (if z <? 0 then "-" else "")%Z
  ++ (if Z.abs z <? 10 ^ 21 then decimal (Z.abs z) else exponential (Z.abs z))%Z.

(** [String(v)] *)
Definition ToString (v : value) : string :=
  match v with
  | VUndef => "undefined"
  | VBool true => "true"
  | VBool false => "false"
  | VNum z => Number_toString z
  | VStr s => s
  end.

(** ** Truthiness and [||] *)

Definition truthy (v : value) : bool :=
  match v with
  | VUndef => false
  | VBool b => b
  | VNum z => negb (z =? 0)%Z
  | VStr s => negb (s =? "")
  end.

(** [v || d] *)
Definition or (v d : value) : value := if truthy v then v else d.

(** ** [parseInt] *)

(** A leading [-] or [+]: whether it was [-], and what follows it. *)
Definition stripSign (s : string) : bool * string :=
  match s with
  | String c r =>
      if (c =? "-")%char then (true, r)
      else if (c =? "+")%char then (false, r)
      else (false, s)
  | EmptyString => (false, s)
  end.

(** A leading [0x] or [0X] selects radix 16 and is removed. *)
Definition stripPrefix (s : string) : Z * string :=
  match s with
  | String c (String x r) =>
      if (c =? "0")%char && ((x =? "x")%char || (x =? "X")%char)
      then (16%Z, r) else (10%Z, s)
  | _ => (10%Z, s)
  end.

(** [parseInt(s)] for a string, no radix given: leading white space, a
    sign, a [0x] prefix, then the longest run of digits; [None] is [NaN]. *)
Definition parseIntString (s : string) : option Z :=
  let '(neg, s2) := stripSign (trimStart s) in
  let '(radix, s3) := stripPrefix s2 in
  if startsWithDigit radix s3
  then let n := fst (digitsFrom radix 0 s3) in Some (if neg then - n else n)%Z
  else None.

(** [parseInt(v)] *)
Definition parseInt (v : value) : option Z := parseIntString (ToString v).

(** [x || 0] for the result of [parseInt] *)
Definition orZero (r : option Z) : Z :=
  match r with
  | Some n => n
  | None => 0%Z
  end.

(** ** [Number] *)

Definition radixLiteral (radix : Z) (s : string) : num :=
  if negb (s =? "") && allDigits radix s
  then Int (fst (digitsFrom radix 0 s))
  else NaN.

(** [m * 10^e] *)
Definition scale (m e : Z) : num :=
  (if 0 <=? e then Int (m * 10 ^ e)
   else if m mod 10 ^ (- e) =? 0 then Int (m / 10 ^ (- e))
   else NonInteger)%Z.

Definition exponentPart (s : string) : option Z :=
  match s with
  | EmptyString => Some 0%Z
  | String c r =>
      if (c =? "e")%char || (c =? "E")%char then
        let '(neg, r') := stripSign r in
        if negb (r' =? "") && allDigits 10 r'
        then let e := fst (digitsFrom 10 0 r') in Some (if neg then - e else e)%Z
        else None
      else None
  end.

(** An unsigned decimal literal: digits, an optional fraction, an optional
    exponent, and nothing else. *)
Definition decimalLiteral (s : string) : num :=
  let '(ip, r1) := digitsFrom 10 0 s in
  let nint := (String.length s - String.length r1)%nat in
  let '(m, nfrac, r2) :=
    match r1 with
    | String c t =>
        if (c =? ".")%char then
          let '(m, r2) := digitsFrom 10 ip t in
          (m, (String.length t - String.length r2)%nat, r2)
        else (ip, 0%nat, r1)
    | EmptyString => (ip, 0%nat, r1)
    end in
  if (nint + nfrac =? 0)%nat then NaN
  else match exponentPart r2 with
       | Some e => scale m (e - Z.of_nat nfrac)
       | None => NaN
       end.

(** A leading [0x], [0o] or [0b] (either case): the radix it selects and the
    digits after it. *)
Definition radixPrefix (s : string) : option (Z * string) :=
  match s with
  | String c (String x r) =>
      if (c =? "0")%char then
        if (x =? "x")%char || (x =? "X")%char then Some (16%Z, r)
        else if (x =? "o")%char || (x =? "O")%char then Some (8%Z, r)
        else if (x =? "b")%char || (x =? "B")%char then Some (2%Z, r)
        else None
      else None
  | _ => None
  end.

(** [Number(s)] for a string: white space around, then nothing (zero), a
    hexadecimal, octal or binary literal, [Infinity], or a signed decimal
    literal; anything else is [NaN].  The value of a literal is exact: it
    is neither rounded nor made to underflow or overflow (see Numbers
    above). *)
Definition StringToNumber (s : string) : num :=
  let t := trim s in
  if t =? "" then Int 0
  else match radixPrefix t with
       | Some (radix, r) => radixLiteral radix r
       | None =>
           let '(neg, u) := stripSign t in
           if u =? "Infinity" then NonInteger
           else match decimalLiteral u with
                | Int z => Int (if neg then - z else z)
                | n => n
                end
       end.

(** [Number(v)] *)
Definition Number (v : value) : num :=
  match v with
  | VUndef => NaN
  | VBool b => Int (if b then 1 else 0)
  | VNum z => Int z
  | VStr s => StringToNumber s
  end.

(** [n + k] for an integer [k] *)
Definition plus (n : num) (k : Z) : num :=
  match n with
  | Int z => Int (z + k)
  | NaN => NaN
  | NonInteger => NonInteger
  end.

(** ** [toUpperCase]

    Only the letters [a]-[z] are mapped; that is all a comparison with
    ['TRUE'] can observe, since no other character maps to one of [T], [R],
    [U], [E]. *)
Definition upper (c : ascii) : ascii :=
  let n := nat_of_ascii c in
  if ((97 <=? n) && (n <=? 122))%nat then ascii_of_nat (n - 32) else c.

Fixpoint toUpperCase (s : string) : string :=
  match s with
  | String c s' => String (upper c) (toUpperCase s')
  | EmptyString => EmptyString
  end.

End Js.
Import Js.

(* ================================================================== *)
(** * Configuration and helpers of the source *)

Definition SHEETS : list string :=
  ["TROOPER_COMPANY"; "TITAN_COMPANY"; "META_SQUAD"; "VANGUARD_COMPANY"].

(** [COL]: the column letters, and the index of each in a row array. *)
Module COL.
Inductive col := A | B | C | D | E | F | G | H | I | J.

Definition index (c : col) : nat :=
  match c with
  | A => 0 | B => 1 | C => 2 | D => 3 | E => 4
  | F => 5 | G => 6 | H => 7 | I => 8 | J => 9
  end.

Definition letter (c : col) : string :=
  match c with
  | A => "A" | B => "B" | C => "C" | D => "D" | E => "E"
  | F => "F" | G => "G" | H => "H" | I => "I" | J => "J"
  end.

Definition eqb (c d : col) : bool := (index c =? index d)%nat.
End COL.

Definition grid := list (list value).

(** [row[COL.c]]: a missing index reads as [undefined]. *)
Definition cellOf (row : list value) (c : COL.col) : value :=
  nth (COL.index c) row VUndef.

(** [values[i] || []] *)
Definition rowOf (values : grid) (i : nat) : list value := nth i values [].

(** [isChecked]: [cell === true || String(cell).toUpperCase() === 'TRUE'] *)
Definition isChecked (cell : value) : bool :=
  match cell with
  | VBool true => true
  | _ => false
  end
  || (toUpperCase (ToString cell) =? "TRUE").

(** [s.split(',')] *)
Fixpoint split (sep : ascii) (s : string) : list string :=
  match s with
  | EmptyString => [EmptyString]
  | String c r =>
      if (c =? sep)%char then EmptyString :: split sep r
      else match split sep r with
           | w :: ws => String c w :: ws
           | [] => [String c EmptyString]
           end
  end.

(** [parseWords]: the comma-separated words of the input, trimmed, the empty
    ones dropped. *)
Definition parseWords (input : value) : list string :=
  filter (fun s => (0 <? String.length s)%nat)
    (map trim (split "," (ToString (or input (VStr ""))))).

(** ** Cell addresses, staged updates, summary entries *)

(** The single-cell range [`${sheet}!${col}${row}`]. *)
Record cellref := Cell { ref_sheet : string; ref_col : COL.col; ref_row : nat }.

(** The rectangular range [`${sheet}!${c1}${r1}:${c2}${r2}`] of a read. *)
Record a1range := Range {
  rg_sheet : string;
  rg_col1 : COL.col; rg_row1 : nat;
  rg_col2 : COL.col; rg_row2 : nat
}.

Definition showCell (c : cellref) : string :=
  ref_sheet c ++ "!" ++ COL.letter (ref_col c) ++ Number_toString (Z.of_nat (ref_row c)).

Definition showRange (r : a1range) : string :=
  rg_sheet r ++ "!" ++ COL.letter (rg_col1 r) ++ Number_toString (Z.of_nat (rg_row1 r))
  ++ ":" ++ COL.letter (rg_col2 r) ++ Number_toString (Z.of_nat (rg_row2 r)).

Open Scope list_scope.

(** One element of [updates]: [{ range: ..., values: [[v]] }]. *)
Record update := Update { range : cellref; values : list (list num) }.

(** The [info] text of a summary entry, by its template. *)
Inductive infoText :=
| InfoF (fNew : num)                        (* `F=${fNew}` *)
| InfoTotalWeekly (totalNew weeklyNew : Z)  (* `Total=${totalNew}, Weekly=${weeklyNew}` *)
| InfoDE (dNew eNew : Z)                    (* `D=${dNew}, E=${eNew}` *)
| InfoG (gNew : Z).                         (* `G=${gNew}` *)

(** A summary entry [{ sheet, row, name, info }]. *)
Module Entry.
Record entry := Make { sheet : string; row : nat; name : string; info : infoText }.
End Entry.

(** [summary] of [handleQuotaCheck]. *)
Record summary := Summary {
  topIncrements : list Entry.entry;
  bottomIncrements : list Entry.entry;
  sheetsUpdated : list string
}.

(** The [updates] of the sheet in hand, and the [summary]. *)
Record state := State { updates : list update; summ : summary }.

Definition pushUpdate (st : state) (u : update) : state :=
  State (updates st ++ [u]) (summ st).

Definition pushTop (st : state) (e : Entry.entry) : state :=
  let s := summ st in
  State (updates st)
        (Summary (topIncrements s ++ [e]) (bottomIncrements s) (sheetsUpdated s)).

Definition pushBottom (st : state) (e : Entry.entry) : state :=
  let s := summ st in
  State (updates st)
        (Summary (topIncrements s) (bottomIncrements s ++ [e]) (sheetsUpdated s)).

Definition pushSheet (s : summary) (sheetName : string) : summary :=
  Summary (topIncrements s) (bottomIncrements s) (sheetsUpdated s ++ [sheetName]).

(** [for (let i = 0; i < values.length; i++) body(i, values[i])], with the
    index of the first remaining row in [i]. *)
Fixpoint forRows {S : Type} (body : nat -> list value -> S -> result S)
    (i : nat) (rows : grid) (st : S) : result S :=
  match rows with
  | [] => Ok st
  | row :: rest => bind (body i row st) (forRows body (Datatypes.S i) rest)
  end.

(** [for (const x of xs) body(x)] *)
Fixpoint forEach {X S : Type} (body : X -> S -> result S) (xs : list X) (st : S)
    : result S :=
  match xs with
  | [] => Ok st
  | x :: rest => bind (body x st) (forEach body rest)
  end.

(* ================================================================== *)
(** * [handleQuotaCheck]: what one sheet stages

    The two files differ, inside the sheet loop, in three expressions:
    - the name of a row: [(row[COL.B] || '').toString().trim()] in
      [index.js], [(row[COL.B] || '').trim()] in [part_000];
    - the current [F]: [parseInt(row[COL.F] || 0) || 0] in [index.js],
      [Number(row[COL.F] || 0)] in [part_000];
    - the column the rows 7 to 10 loop resets: [B] in [index.js], [G] in
      [part_000]. *)

Section QuotaCheck.

Variable nameOf : value -> result string.
Variable coerceF : value -> num.
Variable resetCol : COL.col.

(** Body of the loop over the rows of [topValues]. *)
Definition topBody (sheetName : string) (i : nat) (row : list value)
    (st : state) : result state :=
  let actualRow := 7 + i in
  bind (nameOf (cellOf row COL.B)) (fun nameCell =>
    if nameCell =? "" then Ok st
    else
      let st :=
        if ((8 <=? actualRow) && (actualRow <=? 13))%nat then
          let jChecked := isChecked (cellOf row COL.J) in
          let hChecked := isChecked (cellOf row COL.H) in
          if negb jChecked && negb hChecked then
            let fCurrent := coerceF (cellOf row COL.F) in
            let fNew := plus fCurrent 1 in
            pushTop
              (pushUpdate st (Update (Cell sheetName COL.F actualRow) [[fNew]]))
              (Entry.Make sheetName actualRow nameCell (InfoF fNew))
          else st
        else st in
      let st := pushUpdate st (Update (Cell sheetName COL.D actualRow) [[Int 0]]) in
      Ok (pushUpdate st (Update (Cell sheetName COL.E actualRow) [[Int 0]]))).

(** Body of [for (let r = 7; r <= 10; r++)]. *)
Definition resetBody (sheetName : string) (topValues : grid) (r : nat)
    (st : state) : result state :=
  let row := rowOf topValues (r - 7) in
  bind (nameOf (cellOf row COL.B)) (fun nameCell =>
    if nameCell =? "" then Ok st
    else Ok (pushUpdate st (Update (Cell sheetName resetCol r) [[Int 0]]))).

(** Body of the loop over the rows of [bottomValues]. *)
Definition bottomBody (sheetName : string) (i : nat) (row : list value)
    (st : state) : result state :=
  let actualRow := 19 + i in
  bind (nameOf (cellOf row COL.B)) (fun nameCell =>
    if nameCell =? "" then Ok st
    else
      let iChecked := isChecked (cellOf row COL.I) in
      let gChecked := isChecked (cellOf row COL.G) in
      let st :=
        if negb iChecked && negb gChecked then
          let fCurrent := coerceF (cellOf row COL.F) in
          let fNew := plus fCurrent 1 in
          pushBottom
            (pushUpdate st (Update (Cell sheetName COL.F actualRow) [[fNew]]))
            (Entry.Make sheetName actualRow nameCell (InfoF fNew))
        else st in
      Ok (pushUpdate st (Update (Cell sheetName COL.D actualRow) [[Int 0]]))).

(** The two loops over the top block. *)
Definition stageTop (sheetName : string) (topValues : grid) (st : state)
    : result state :=
  bind (forRows (topBody sheetName) 0 topValues st)
       (forEach (resetBody sheetName topValues) [7; 8; 9; 10]).

(** The loop over the bottom block. *)
Definition stageBottom (sheetName : string) (bottomValues : grid) (st : state)
    : result state :=
  forRows (bottomBody sheetName) 0 bottomValues st.

(** Everything one iteration of the sheet loop stages, from the two grids
    it reads, starting from an empty [updates]. *)
Definition stage (sheetName : string) (topValues bottomValues : grid)
    (s : summary) : result state :=
  bind (stageTop sheetName topValues (State [] s))
       (stageBottom sheetName bottomValues).

End QuotaCheck.

(** [parseInt(v || 0) || 0]: the integer coercion of the counter cells.
    The integer read is exact, also beyond [2^53] where [parseInt] rounds
    (see Numbers above). *)
Definition coerceInt (v : value) : Z := orZero (parseInt (or v (VNum 0))).

(** [src/index.js] *)
Module IndexJs.
(** [(row[COL.B] || '').toString().trim()] *)
Definition nameOf (b : value) : result string :=
  Ok (trim (ToString (or b (VStr "")))).

(** [parseInt(row[COL.F] || 0) || 0] *)
Definition coerceF (f : value) : num := Int (coerceInt f).

Definition resetCol : COL.col := COL.B.

Definition stage := stage nameOf coerceF resetCol.
End IndexJs.

(** [src/unnamed/part_000] *)
Module Part000.
(** [(row[COL.B] || '').trim()]: only a string has [trim]. *)
Definition nameOf (b : value) : result string :=
  match or b (VStr "") with
  | VStr s => Ok (trim s)
  | _ => Throw TypeError
  end.

(** [Number(row[COL.F] || 0)] *)
Definition coerceF (f : value) : num := Number (or f (VNum 0)).

Definition resetCol : COL.col := COL.G.

Definition stage := stage nameOf coerceF resetCol.
End Part000.

(* ================================================================== *)
(** * The counter commands: what one sheet stages *)

(** [row[COL.B] === word] *)
Definition strictEquals (cell : value) (word : string) : bool :=
  match cell with
  | VStr s => s =? word
  | _ => false
  end.

Fixpoint findIndexFrom (i : nat) (rows : grid) (word : string) : option nat :=
  match rows with
  | [] => None
  | row :: rest =>
      if strictEquals (cellOf row COL.B) word then Some i
      else findIndexFrom (S i) rest word
  end.

(** [values.findIndex(row => row[COL.B] === word)]; [None] is [-1]. *)
Definition findIndex (values : grid) (word : string) : option nat :=
  findIndexFrom 0 values word.

(** What the word loops of the three commands carry: [updates] and
    [updatesSummary]. *)
Definition addState : Type := list update * list Entry.entry.

(** Body of [for (const word of words)] in [handleAdd]; the sums are exact
    (see Numbers above), here and in the two bodies below. *)
Definition addBody (sheetName : string) (values : grid) (eventsToAdd : Z)
    (st : addState) (word : string) : addState :=
  match findIndex values word with
  | Some rowIndex =>
      let totalCurrent := coerceInt (cellOf (nth rowIndex values []) COL.C) in
      let weeklyCurrent := coerceInt (cellOf (nth rowIndex values []) COL.D) in
      let totalNew := (totalCurrent + eventsToAdd)%Z in
      let weeklyNew := (weeklyCurrent + eventsToAdd)%Z in
      let rowNumber := rowIndex + 1 in
      (fst st ++ [Update (Cell sheetName COL.C rowNumber) [[Int totalNew]];
                  Update (Cell sheetName COL.D rowNumber) [[Int weeklyNew]]],
       snd st ++ [Entry.Make sheetName rowNumber word (InfoTotalWeekly totalNew weeklyNew)])
  | None => st
  end.

(** Body of [for (const word of words)] in [handleOfficerAdd]. *)
Definition officerAddBody (sheetName : string) (values : grid) (eventsToAdd : Z)
    (st : addState) (word : string) : addState :=
  match findIndex values word with
  | Some rowIndex =>
      let rowNumber := rowIndex + 7 in
      let dCurrent := coerceInt (cellOf (nth rowIndex values []) COL.D) in
      let eCurrent := coerceInt (cellOf (nth rowIndex values []) COL.E) in
      let dNew := (dCurrent + eventsToAdd)%Z in
      let eNew := (eCurrent + eventsToAdd)%Z in
      (fst st ++ [Update (Cell sheetName COL.D rowNumber) [[Int dNew]];
                  Update (Cell sheetName COL.E rowNumber) [[Int eNew]]],
       snd st ++ [Entry.Make sheetName rowNumber word (InfoDE dNew eNew)])
  | None => st
  end.

(** Body of [for (const word of words)] in [handleTryoutAdd]. *)
Definition tryoutAddBody (sheetName : string) (values : grid) (tryoutsToAdd : Z)
    (st : addState) (word : string) : addState :=
  match findIndex values word with
  | Some rowIndex =>
      let rowNumber := rowIndex + 7 in
      let gCurrent := coerceInt (cellOf (nth rowIndex values []) COL.G) in
      let gNew := (gCurrent + tryoutsToAdd)%Z in
      (fst st ++ [Update (Cell sheetName COL.G rowNumber) [[Int gNew]]],
       snd st ++ [Entry.Make sheetName rowNumber word (InfoG gNew)])
  | None => st
  end.

(** The word loop of [handleAdd] on one sheet, from [updates = []]. *)
Definition stageAdd (sheetName : string) (values : grid) (eventsToAdd : Z)
    (words : list string) (updatesSummary : list Entry.entry) : addState :=
  fold_left (addBody sheetName values eventsToAdd) words ([], updatesSummary).

Definition stageOfficerAdd (sheetName : string) (values : grid) (eventsToAdd : Z)
    (words : list string) (updatesSummary : list Entry.entry) : addState :=
  fold_left (officerAddBody sheetName values eventsToAdd) words ([], updatesSummary).

Definition stageTryoutAdd (sheetName : string) (values : grid) (tryoutsToAdd : Z)
    (words : list string) (updatesSummary : list Entry.entry) : addState :=
  fold_left (tryoutAddBody sheetName values tryoutsToAdd) words ([], updatesSummary).

(* ================================================================== *)
(** * The handlers and their remote calls

    A handler is a program over the log of the calls it makes to the
    spreadsheet service.  What the service answers to the reads of one
    invocation is the function [answer]: every handler reads a given range at
    most once, so whatever the store does between the calls, its answers to
    one invocation form such a function.  The calls are assumed to succeed;
    the replies to the chat platform are not part of the model. *)

Inductive call :=
| ValuesGet (r : a1range)                 (* sheets.spreadsheets.values.get *)
| ValuesBatchUpdate (data : list update). (* sheets.spreadsheets.values.batchUpdate *)

Definition M (X : Type) : Type := list call -> result X * list call.

Definition ret {X} (x : X) : M X := fun log => (Ok x, log).

Definition bindM {X Y} (m : M X) (k : X -> M Y) : M Y :=
  fun log =>
    match m log with
    | (Ok x, log') => k x log'
    | (Throw e, log') => (Throw e, log')
    end.

Definition lift {X} (r : result X) : M X := fun log => (r, log).

Notation "x <- m ;; k" := (bindM m (fun x => k))
  (at level 61, m at next level, right associativity).
Notation "m ;;; k" := (bindM m (fun _ => k))
  (at level 61, right associativity).

(** [for (const sheetName of SHEETS) body(sheetName)] *)
Fixpoint forEachM {X S : Type} (body : X -> S -> M S) (xs : list X) (st : S) : M S :=
  match xs with
  | [] => ret st
  | x :: rest => st' <- body x st ;; forEachM body rest st'
  end.

(** [batchUpdate]: nothing is sent for an empty list. *)
Definition batchUpdate (updates : list update) : M unit :=
  fun log =>
    match updates with
    | [] => (Ok tt, log)
    | _ :: _ => (Ok tt, log ++ [ValuesBatchUpdate updates])
    end.

Section Remote.

Variable answer : a1range -> grid.

(** [getValues]: [res.data.values || []] *)
Definition getValues (r : a1range) : M grid :=
  fun log => (Ok (answer r), log ++ [ValuesGet r]).

(** [if (updates.length > 0) await batchUpdate(updates)] *)
Definition sendIfAny (updates : list update) : M unit :=
  if (0 <? List.length updates)%nat then batchUpdate updates else ret tt.

(** One iteration of the sheet loop of [handleAdd]. *)
Definition addSheet (words : list string) (eventsToAdd : Z) (sheetName : string)
    (updatesSummary : list Entry.entry) : M (list Entry.entry) :=
  values <- getValues (Range sheetName COL.A 1 COL.D 100) ;;
  let st := stageAdd sheetName values eventsToAdd words updatesSummary in
  sendIfAny (fst st) ;;;
  ret (snd st).

Definition handleAdd (input : value) (eventsToAdd : Z) : M (list Entry.entry) :=
  let words := parseWords input in
  forEachM (addSheet words eventsToAdd) SHEETS [].

(** One iteration of the sheet loop of [handleOfficerAdd]. *)
Definition officerAddSheet (words : list string) (eventsToAdd : Z) (sheetName : string)
    (updatesSummary : list Entry.entry) : M (list Entry.entry) :=
  values <- getValues (Range sheetName COL.A 7 COL.E 13) ;;
  let st := stageOfficerAdd sheetName values eventsToAdd words updatesSummary in
  sendIfAny (fst st) ;;;
  ret (snd st).

Definition handleOfficerAdd (input : value) (eventsToAdd : Z) : M (list Entry.entry) :=
  let words := parseWords input in
  forEachM (officerAddSheet words eventsToAdd) SHEETS [].

(** One iteration of the sheet loop of [handleTryoutAdd]. *)
Definition tryoutAddSheet (words : list string) (tryoutsToAdd : Z) (sheetName : string)
    (updatesSummary : list Entry.entry) : M (list Entry.entry) :=
  values <- getValues (Range sheetName COL.A 7 COL.G 10) ;;
  let st := stageTryoutAdd sheetName values tryoutsToAdd words updatesSummary in
  sendIfAny (fst st) ;;;
  ret (snd st).

Definition handleTryoutAdd (input : value) (tryoutsToAdd : Z) : M (list Entry.entry) :=
  let words := parseWords input in
  forEachM (tryoutAddSheet words tryoutsToAdd) SHEETS [].

Section Quota.

Variable nameOf : value -> result string.
Variable coerceF : value -> num.
Variable resetCol : COL.col.

(** One iteration of the sheet loop of [handleQuotaCheck]. *)
Definition quotaSheet (sheetName : string) (s : summary) : M summary :=
  topValues <- getValues (Range sheetName COL.A 7 COL.J 13) ;;
  st <- lift (stageTop nameOf coerceF resetCol sheetName topValues (State [] s)) ;;
  bottomValues <- getValues (Range sheetName COL.A 19 COL.I 40) ;;
  st <- lift (stageBottom nameOf coerceF sheetName bottomValues st) ;;
  if (0 <? List.length (updates st))%nat then
    batchUpdate (updates st) ;;;
    ret (pushSheet (summ st) sheetName)
  else ret (summ st).

Definition handleQuotaCheck : M summary :=
  forEachM quotaSheet SHEETS (Summary [] [] []).

End Quota.
End Remote.

(** [handleQuotaCheck] of [src/index.js] *)
Definition IndexJs_handleQuotaCheck (answer : a1range -> grid) : M summary :=
  handleQuotaCheck answer IndexJs.nameOf IndexJs.coerceF IndexJs.resetCol.

(** [handleQuotaCheck] of [src/unnamed/part_000] *)
Definition Part000_handleQuotaCheck (answer : a1range -> grid) : M summary :=
  handleQuotaCheck answer Part000.nameOf Part000.coerceF Part000.resetCol.

(** ** What a batch leaves in the store

    The store is the external spreadsheet service; its [values.batchUpdate]
    applies the single-cell writes of [data] in order.  [netEffect data c]
    is the content the batch leaves in cell [c]: that of its last write to
    [c], or [None] when it leaves [c] as it was. *)



(* ================================================================== *)
(** * Vocabulary of the statements *)

(** ** What the loops of [handleQuotaCheck] emit

    The updates and entries that each row contributes, as lists; the
    lemmas relate them to the state-passing loops above. *)

Section Emitted.

Variable nameOf : value -> result string.
Variable coerceF : value -> num.
Variable resetCol : COL.col.

(** The name the code computes for a row, [""] also where it throws. *)
Definition nameCell (row : list value) : string :=
  match nameOf (cellOf row COL.B) with
  | Ok n => n
  | Throw _ => ""
  end.

(** The guard of the [F] increment in the top block. *)
Definition topIncrement (actualRow : nat) (row : list value) : bool :=
  ((8 <=? actualRow) && (actualRow <=? 13))%nat
  && (negb (isChecked (cellOf row COL.J)) && negb (isChecked (cellOf row COL.H))).

(** The guard of the [F] increment in the bottom block. *)
Definition bottomIncrement (row : list value) : bool :=
  negb (isChecked (cellOf row COL.I)) && negb (isChecked (cellOf row COL.G)).

Definition fNewOf (row : list value) : num := plus (coerceF (cellOf row COL.F)) 1.

Definition topEmit (sheetName : string) (i : nat) (row : list value) : list update :=
  if nameCell row =? "" then []
  else (if topIncrement (7 + i) row
        then [Update (Cell sheetName COL.F (7 + i)) [[fNewOf row]]] else [])
       ++ [Update (Cell sheetName COL.D (7 + i)) [[Int 0]];
           Update (Cell sheetName COL.E (7 + i)) [[Int 0]]].

Definition topEntries (sheetName : string) (i : nat) (row : list value)
    : list Entry.entry :=
  if nameCell row =? "" then []
  else if topIncrement (7 + i) row
       then [Entry.Make sheetName (7 + i) (nameCell row) (InfoF (fNewOf row))]
       else [].

Definition resetEmit (sheetName : string) (topValues : grid) (r : nat) : list update :=
  if nameCell (rowOf topValues (r - 7)) =? "" then []
  else [Update (Cell sheetName resetCol r) [[Int 0]]].

Definition bottomEmit (sheetName : string) (i : nat) (row : list value) : list update :=
  if nameCell row =? "" then []
  else (if bottomIncrement row
        then [Update (Cell sheetName COL.F (19 + i)) [[fNewOf row]]] else [])
       ++ [Update (Cell sheetName COL.D (19 + i)) [[Int 0]]].

Definition bottomEntries (sheetName : string) (i : nat) (row : list value)
    : list Entry.entry :=
  if nameCell row =? "" then []
  else if bottomIncrement row
       then [Entry.Make sheetName (19 + i) (nameCell row) (InfoF (fNewOf row))]
       else [].

(** The concatenation of what each row emits, rows numbered from [i]. *)
Fixpoint emitRows {X : Type} (emit : nat -> list value -> list X) (i : nat)
    (rows : grid) : list X :=
  match rows with
  | [] => []
  | row :: rest => emit i row ++ emitRows emit (S i) rest
  end.

(** [st'] is [st] with the given updates and entries pushed. *)
Definition extends (st st' : state) (us : list update) (tops bottoms : list Entry.entry)
    : Prop :=
  updates st' = updates st ++ us /\
  topIncrements (summ st') = topIncrements (summ st) ++ tops /\
  bottomIncrements (summ st') = bottomIncrements (summ st) ++ bottoms /\
  sheetsUpdated (summ st') = sheetsUpdated (summ st).

(** What the three loops of one sheet emit, in order. *)
Definition stagedUpdates (sheetName : string) (topValues bottomValues : grid)
    : list update :=
  emitRows (topEmit sheetName) 0 topValues
  ++ flat_map (resetEmit sheetName topValues) [7; 8; 9; 10]
  ++ emitRows (bottomEmit sheetName) 0 bottomValues.

Inductive origin (sheetName : string) (topValues bottomValues : grid) (u : update)
    : Prop :=
| FromTopF k row :
    nth_error topValues k = Some row -> nameCell row <> "" ->
    topIncrement (7 + k) row = true ->
    u = Update (Cell sheetName COL.F (7 + k)) [[fNewOf row]] ->
    origin sheetName topValues bottomValues u
| FromTopDE k row c :
    nth_error topValues k = Some row -> nameCell row <> "" ->
    c = COL.D \/ c = COL.E ->
    u = Update (Cell sheetName c (7 + k)) [[Int 0]] ->
    origin sheetName topValues bottomValues u
| FromReset r :
    7 <= r <= 10 -> nameCell (rowOf topValues (r - 7)) <> "" ->
    u = Update (Cell sheetName resetCol r) [[Int 0]] ->
    origin sheetName topValues bottomValues u
| FromBottomF k row :
    nth_error bottomValues k = Some row -> nameCell row <> "" ->
    bottomIncrement row = true ->
    u = Update (Cell sheetName COL.F (19 + k)) [[fNewOf row]] ->
    origin sheetName topValues bottomValues u
| FromBottomD k row :
    nth_error bottomValues k = Some row -> nameCell row <> "" ->
    u = Update (Cell sheetName COL.D (19 + k)) [[Int 0]] ->
    origin sheetName topValues bottomValues u.

End Emitted.

(** ** The remote calls of a handler *)

(** The batch a sheet iteration sends for its [updates], if any. *)
Definition batchOf (updates : list update) : list call :=
  match updates with
  | [] => []
  | _ :: _ => [ValuesBatchUpdate updates]
  end.

(** The elements a loop that stops at the first exception goes through. *)
Fixpoint processed {X : Type} (ok : X -> bool) (xs : list X) : list X :=
  match xs with
  | [] => []
  | x :: rest => x :: (if ok x then processed ok rest else [])
  end.

(** A call writes to the sheet if it is a batch with an update in it. *)
Definition writesTo (sheetName : string) (c : call) : bool :=
  match c with
  | ValuesBatchUpdate data => existsb (fun u => ref_sheet (range u) =? sheetName) data
  | ValuesGet _ => false
  end.

(** The number of write calls issued for a sheet. *)
Definition writeCalls (sheetName : string) (log : list call) : nat :=
  List.length (filter (writesTo sheetName) log).

(** Every [values.batchUpdate] call of a log, in order, by the [data] it
    sends, empty or not. *)
Definition batches (log : list call) : list (list update) :=
  flat_map (fun c => match c with
                     | ValuesBatchUpdate data => [data]
                     | ValuesGet _ => []
                     end) log.

(** ** What a word contributes in the counter commands *)

Definition addWrites (sheetName : string) (values : grid) (eventsToAdd : Z)
    (word : string) : list update :=
  match findIndex values word with
  | Some rowIndex =>
      [Update (Cell sheetName COL.C (rowIndex + 1))
         [[Int (coerceInt (cellOf (nth rowIndex values []) COL.C) + eventsToAdd)]];
       Update (Cell sheetName COL.D (rowIndex + 1))
         [[Int (coerceInt (cellOf (nth rowIndex values []) COL.D) + eventsToAdd)]]]
  | None => []
  end.

Definition officerAddWrites (sheetName : string) (values : grid) (eventsToAdd : Z)
    (word : string) : list update :=
  match findIndex values word with
  | Some rowIndex =>
      [Update (Cell sheetName COL.D (rowIndex + 7))
         [[Int (coerceInt (cellOf (nth rowIndex values []) COL.D) + eventsToAdd)]];
       Update (Cell sheetName COL.E (rowIndex + 7))
         [[Int (coerceInt (cellOf (nth rowIndex values []) COL.E) + eventsToAdd)]]]
  | None => []
  end.

Definition tryoutAddWrites (sheetName : string) (values : grid) (tryoutsToAdd : Z)
    (word : string) : list update :=
  match findIndex values word with
  | Some rowIndex =>
      [Update (Cell sheetName COL.G (rowIndex + 7))
         [[Int (coerceInt (cellOf (nth rowIndex values []) COL.G) + tryoutsToAdd)]]]
  | None => []
  end.

(** The calls of one sheet iteration of a counter command. *)
Definition wordCalls (r : a1range) (updates : list update) : list call :=
  [ValuesGet r] ++ batchOf updates.

(** ** The calls of one sheet iteration of [handleQuotaCheck] *)

Section QuotaCalls.

Variable answer : a1range -> grid.
Variable nameOf : value -> result string.
Variable coerceF : value -> num.
Variable resetCol : COL.col.

(** Whether the name of every row of the grid can be computed. *)
Definition namesOk (rows : grid) : bool :=
  forallb (fun row => isOk (nameOf (cellOf row COL.B))) rows.

(** Whether the two loops over the top block complete. *)
Definition topOk (topValues : grid) : bool :=
  namesOk topValues
  && forallb (fun r => isOk (nameOf (cellOf (rowOf topValues (r - 7)) COL.B)))
             [7; 8; 9; 10].

Definition topRange (sheetName : string) : a1range := Range sheetName COL.A 7 COL.J 13.
Definition bottomRange (sheetName : string) : a1range := Range sheetName COL.A 19 COL.I 40.

(** What one sheet stages, from the answers to its two reads. *)
Definition stagedFor (sheetName : string) : list update :=
  stagedUpdates nameOf coerceF resetCol sheetName
    (answer (topRange sheetName)) (answer (bottomRange sheetName)).

(** Whether the iteration of a sheet completes. *)
Definition quotaOk (sheetName : string) : bool :=
  topOk (answer (topRange sheetName)) && namesOk (answer (bottomRange sheetName)).

(** The calls of the iteration of a sheet. *)
Definition quotaCalls (sheetName : string) : list call :=
  [ValuesGet (topRange sheetName)]
  ++ (if topOk (answer (topRange sheetName)) then
        [ValuesGet (bottomRange sheetName)]
        ++ (if namesOk (answer (bottomRange sheetName))
            then batchOf (stagedFor sheetName) else [])
      else []).

End QuotaCalls.

(** ** Cells on which the two files read the same name and the same [F] *)

(** An optional minus sign and at least one decimal digit, nothing else. *)
Definition plainInteger (s : string) : bool :=
  match s with
  | String c r =>
      if (c =? "-")%char then negb (r =? "") && allDigits 10 r else allDigits 10 s
  | EmptyString => false
  end.

(** A counter cell that is empty, a plain decimal integer, the boolean
    [false], or a number below [10^21]. *)
Definition plainCounter (f : value) : bool :=
  match f with
  | VUndef => true
  | VBool b => negb b
  | VNum z => (Z.abs z <? 10 ^ 21)%Z
  | VStr s => (s =? "") || plainInteger s
  end.

(** A name cell that is a string, or is not truthy. *)
Definition textOrEmpty (b : value) : bool :=
  match b with
  | VStr _ => true
  | _ => negb (truthy b)
  end.

(** ** Sample grids *)

Definition emptySummary : summary := Summary [] [] [].

(** A top block whose only row, row 7, is named Alice with both flags
    unchecked. *)
Definition aliceInRow7 : grid :=
  [[VStr ""; VStr "Alice"; VStr "4"; VStr "2"; VStr "1"; VStr "3"; VStr "5";
    VStr "FALSE"; VStr ""; VStr "FALSE"]].

(** A top block whose row 8 is named Bob, with both flags unchecked and a
    counter [F] that is not a number; row 7 is empty. *)
Definition bobInRow8 : grid :=
  [[];
   [VStr ""; VStr "Bob"; VStr "4"; VStr "2"; VStr "1"; VStr "abc"; VStr "";
    VStr "FALSE"; VStr ""; VStr "FALSE"]].

(** A bottom block whose row 19 is named Trp1, with both flags unchecked and
    a counter [F] that is not a number. *)
Definition trooperInRow19 : grid :=
  [[VStr ""; VStr "Trp1"; VStr ""; VStr "2"; VStr ""; VStr "n/a"; VStr "FALSE";
    VStr ""; VStr "FALSE"]].

(** ** Rows without a name *)

(** The name cell of row [r] is empty after trimming. *)
Definition unnamed (nameOf : value -> result string) (topValues bottomValues : grid)
    (r : nat) : Prop :=
  (7 <= r <= 13 /\ nameOf (cellOf (rowOf topValues (r - 7)) COL.B) = Ok "") \/
  (19 <= r <= 40 /\ nameOf (cellOf (rowOf bottomValues (r - 19)) COL.B) = Ok "").

(** Going from summary [s] to state [st] staged no write for row [r] and
    recorded no entry for it. *)
Definition untouched (s : summary) (st : state) (r : nat) : Prop :=
  (forall u, In u (updates st) -> ref_row (range u) <> r) /\
  exists tops bottoms,
    topIncrements (summ st) = topIncrements s ++ tops /\
    bottomIncrements (summ st) = bottomIncrements s ++ bottoms /\
    (forall e, In e tops -> Entry.row e <> r) /\
    (forall e, In e bottoms -> Entry.row e <> r).

(** A top block whose row 7 holds only blanks in [B] and whose row 8 is
    named. *)
Definition blankRow7 : grid :=
  [[VStr ""; VStr "   "; VStr "9"; VStr "9"; VStr "9"; VStr "9"];
   [VStr ""; VStr "Cmdr"; VStr "1"; VStr "1"; VStr "1"; VStr "3"]].

(** ** Counting the batches *)

(** The updates a staging leaves, none if it raised. *)
Definition stagedBy (r : result state) : list update :=
  match r with
  | Ok st => updates st
  | Throw _ => []
  end.

Definition oneIfAny (updates : list update) : nat :=
  match updates with
  | [] => 0
  | _ :: _ => 1
  end.

(** [updates.length > 0] *)
Definition anyStaged (updates : list update) : bool :=
  match updates with
  | [] => false
  | _ :: _ => true
  end.

(** The store answers a read of the top block with at most 7 rows and a
    read of the bottom block with at most 22. *)
Definition answersWithinRanges (answer : a1range -> grid) : Prop :=
  forall sheetName, In sheetName SHEETS ->
    List.length (answer (topRange sheetName)) <= 7 /\
    List.length (answer (bottomRange sheetName)) <= 22.

(** A store in which every sheet has Alice in row 7 and Trp1 in row 19. *)
Definition sampleAnswer (r : a1range) : grid :=
  if (rg_row1 r =? 7)%nat then aliceInRow7 else trooperInRow19.

(** ** The reset target *)

(** An update of column [B] moved to column [G]; any other update as it is.
    In [index.js] the updates of column [B] are those of the loop over the
    rows 7 to 10. *)
Definition retarget (u : update) : update :=
  match ref_col (range u) with
  | COL.B => Update (Cell (ref_sheet (range u)) COL.G (ref_row (range u))) (values u)
  | _ => u
  end.

Definition retargeted (r : result state) : result state :=
  match r with
  | Ok st => Ok (State (map retarget (updates st)) (summ st))
  | Throw e => Throw e
  end.

(** A top block with Cmdr in row 10, [F] holding 3. *)
Definition cmdrInRow10 : grid :=
  [[]; []; [];
   [VStr ""; VStr "Cmdr"; VStr ""; VStr "6"; VStr "2"; VStr "3"; VStr "1";
    VStr "FALSE"; VStr ""; VStr "FALSE"]].

(** ** Numeric values *)




(** A sheet whose row 3 is Alice, with 10 in [C] and 2 in [D]. *)
Definition aliceInRow3 : grid :=
  [[VStr "Rank"; VStr "Name"; VStr "Total"; VStr "Weekly"];
   [];
   [VStr "Pvt"; VStr "Alice"; VStr "10"; VStr "2"]].

(* ================================================================== *)
(** * Further vocabulary *)

(** ** Words *)

(** Whether the character occurs in the string. *)
Fixpoint contains (c : ascii) (s : string) : bool :=
  match s with
  | String x r => (x =? c)%char || contains c r
  | EmptyString => false
  end.

(** [words.join(sep)] *)
Fixpoint join (sep : string) (words : list string) : string :=
  match words with
  | [] => EmptyString
  | [w] => w
  | w :: rest => (w ++ sep ++ join sep rest)%string
  end.

(** A word as [parseWords] returns them: not empty, nothing to trim, no
    comma. *)
Definition cleanWord (w : string) : Prop :=
  w <> "" /\ trim w = w /\ contains "," w = false.

(** ** The counter commands *)

(** The range each command reads on a sheet. *)
Definition addRange (sheetName : string) : a1range := Range sheetName COL.A 1 COL.D 100.
Definition officerRange (sheetName : string) : a1range := Range sheetName COL.A 7 COL.E 13.
Definition tryoutRange (sheetName : string) : a1range := Range sheetName COL.A 7 COL.G 10.

(** The cell [B] of the row at index [i] is the string [word]. *)
Definition holds (values : grid) (i : nat) (word : string) : Prop :=
  cellOf (nth i values []) COL.B = VStr word.

(** [[[current + amount]]] for the counter in column [c] of the row at
    index [rowIndex]. *)
Definition bumped (values : grid) (rowIndex : nat) (c : COL.col) (amount : Z)
    : list (list num) :=
  [[Int (coerceInt (cellOf (nth rowIndex values []) c) + amount)]].

(** What a word contributes to [updatesSummary]. *)
Definition addEntries (sheetName : string) (values : grid) (eventsToAdd : Z)
    (word : string) : list Entry.entry :=
  match findIndex values word with
  | Some rowIndex =>
      [Entry.Make sheetName (rowIndex + 1) word
         (InfoTotalWeekly
            (coerceInt (cellOf (nth rowIndex values []) COL.C) + eventsToAdd)
            (coerceInt (cellOf (nth rowIndex values []) COL.D) + eventsToAdd))]
  | None => []
  end.

Definition officerAddEntries (sheetName : string) (values : grid) (eventsToAdd : Z)
    (word : string) : list Entry.entry :=
  match findIndex values word with
  | Some rowIndex =>
      [Entry.Make sheetName (rowIndex + 7) word
         (InfoDE
            (coerceInt (cellOf (nth rowIndex values []) COL.D) + eventsToAdd)
            (coerceInt (cellOf (nth rowIndex values []) COL.E) + eventsToAdd))]
  | None => []
  end.

Definition tryoutAddEntries (sheetName : string) (values : grid) (tryoutsToAdd : Z)
    (word : string) : list Entry.entry :=
  match findIndex values word with
  | Some rowIndex =>
      [Entry.Make sheetName (rowIndex + 7) word
         (InfoG (coerceInt (cellOf (nth rowIndex values []) COL.G) + tryoutsToAdd))]
  | None => []
  end.

(** An update that some batch of the log carries. *)
Definition batched (log : list call) (u : update) : Prop :=
  exists data, In (ValuesBatchUpdate data) log /\ In u data.

(** No word is found in the range read on any sheet. *)
Definition nowhere (answer : a1range -> grid) (rng : string -> a1range)
    (words : list string) : Prop :=
  forall sheetName word, In sheetName SHEETS -> In word words ->
    findIndex (answer (rng sheetName)) word = None.

(** One read per sheet, and no write. *)
Definition readsOnly (rng : string -> a1range) : list call :=
  map (fun sheetName => ValuesGet (rng sheetName)) SHEETS.

(** The store answers a read with no more rows than the range has. *)
Definition answersWithin (answer : a1range -> grid) (rng : string -> a1range) : Prop :=
  forall sheetName, In sheetName SHEETS ->
    List.length (answer (rng sheetName))
    <= rg_row2 (rng sheetName) - rg_row1 (rng sheetName) + 1.

(** A sheet in which Alice is listed twice, in rows 3 and 4. *)
Definition aliceTwice : grid :=
  [[VStr "Rank"; VStr "Name"; VStr "Total"; VStr "Weekly"];
   [];
   [VStr "Pvt"; VStr "Alice"; VStr "10"; VStr "2"];
   [VStr "Cpl"; VStr "Alice"; VStr "7"; VStr "1"]].

(** ** [handleQuotaCheck] *)

(** What [sheetsUpdated] gets from a sheet: its name if anything was
    staged for it. *)
Definition listedIfAny (updates : list update) (sheetName : string) : list string :=
  match updates with
  | [] => []
  | _ :: _ => [sheetName]
  end.

(** A row with a name. *)
Definition namedRow (nameOf : value -> result string) (row : list value) : bool :=
  negb (nameCell nameOf row =? "").

(** Whether a row with a name was read on the sheet. *)
Definition hasNamedRow (answer : a1range -> grid) (nameOf : value -> result string)
    (sheetName : string) : bool :=
  existsb (namedRow nameOf) (answer (topRange sheetName) ++ answer (bottomRange sheetName)).

(** The increments a summary lists and the writes to column [F] in the
    batches of the log are the same: every entry names a configured sheet
    and a row with a trimmed, non-empty name, and its value is written to
    [F] of that row; every write to a cell of column [F] has its entry. *)
Definition incrementsReported (log : list call) (s : summary) : Prop :=
  (forall e, In e (topIncrements s ++ bottomIncrements s) ->
     In (Entry.sheet e) SHEETS /\
     Entry.name e <> "" /\ trim (Entry.name e) = Entry.name e /\
     exists fNew,
       Entry.info e = InfoF fNew /\
       batched log (Update (Cell (Entry.sheet e) COL.F (Entry.row e)) [[fNew]])) /\
  (forall u, batched log u -> ref_col (range u) = COL.F ->
     exists name fNew,
       values u = [[fNew]] /\
       In (Entry.Make (ref_sheet (range u)) (ref_row (range u)) name (InfoF fNew))
          (topIncrements s ++ bottomIncrements s)) /\
  (forall e, In e (topIncrements s) -> 8 <= Entry.row e) /\
  (forall e, In e (bottomIncrements s) -> 19 <= Entry.row e).

(** Every name cell read on the sheet is a string, or is not truthy. *)
Definition namesAreText (answer : a1range -> grid) (sheetName : string) : Prop :=
  forall row,
    In row (answer (topRange sheetName) ++ answer (bottomRange sheetName)) ->
    textOrEmpty (cellOf row COL.B) = true.

(** A store like [sampleAnswer] in which the name cell of row 7 of
    TITAN_COMPANY holds the number 5. *)
Definition numberInTitan (r : a1range) : grid :=
  if (rg_sheet r =? "TITAN_COMPANY") && (rg_row1 r =? 7)%nat
  then [[VStr ""; VNum 5]]
  else sampleAnswer r.

(** ** Text that begins with a number *)

(** Whether the string begins with [x] or [X]. *)
Definition startsWithX (s : string) : bool :=
  match s with
  | String c _ => (c =? "x")%char || (c =? "X")%char
  | EmptyString => false
  end.

(** ** The reads of an invocation *)

(** The ranges a log reads, in order. *)
Definition reads (log : list call) : list a1range :=
  flat_map (fun c => match c with
                     | ValuesGet r => [r]
                     | ValuesBatchUpdate _ => []
                     end) log.

(** The two reads of every sheet, and no write. *)
Definition quotaReadsOnly : list call :=
  flat_map (fun sheetName => [ValuesGet (topRange sheetName);
                              ValuesGet (bottomRange sheetName)]) SHEETS.

(* ================================================================== *)
(** * What the loops of [handleQuotaCheck] emit *)

Section Emission.

Variable nameOf : value -> result string.
Variable coerceF : value -> num.
Variable resetCol : COL.col.

Lemma extends_refl st : extends st st [] [] [].
Proof. unfold extends. rewrite !app_nil_r. auto. Qed.

Lemma extends_trans st1 st2 st3 us us' ts ts' bs bs' :
  extends st1 st2 us ts bs -> extends st2 st3 us' ts' bs' ->
  extends st1 st3 (us ++ us') (ts ++ ts') (bs ++ bs').
Proof.
  unfold extends. intros (U1 & T1 & B1 & S1) (U2 & T2 & B2 & S2).
  rewrite U2, U1, T2, T1, B2, B1, S2, S1, !app_assoc. auto.
Qed.

Lemma nameCell_Ok row n : nameOf (cellOf row COL.B) = Ok n -> nameCell nameOf row = n.
Proof. unfold nameCell. now intros ->. Qed.

Lemma topBody_emits sheetName i row st st' :
  topBody nameOf coerceF sheetName i row st = Ok st' ->
  extends st st' (topEmit nameOf coerceF sheetName i row)
          (topEntries nameOf coerceF sheetName i row) [].
Proof.
  unfold topBody, topEmit, topEntries, topIncrement, fNewOf, nameCell.
  generalize (7 + i). intros r.
  destruct (nameOf (cellOf row COL.B)) as [n|e]; cbn [bind]; [|discriminate].
  destruct (n =? "").
  - intros [= <-]. apply extends_refl.
  - destruct ((8 <=? r)%nat && (r <=? 13)%nat); cbn [andb];
      [destruct (negb (isChecked (cellOf row COL.J)) && negb (isChecked (cellOf row COL.H)))|];
      intros [= <-]; unfold extends; simpl; rewrite <- ?app_assoc, ?app_nil_r; auto.
Qed.

Lemma bottomBody_emits sheetName i row st st' :
  bottomBody nameOf coerceF sheetName i row st = Ok st' ->
  extends st st' (bottomEmit nameOf coerceF sheetName i row) []
          (bottomEntries nameOf coerceF sheetName i row).
Proof.
  unfold bottomBody, bottomEmit, bottomEntries, bottomIncrement, fNewOf, nameCell.
  generalize (19 + i). intros r.
  destruct (nameOf (cellOf row COL.B)) as [n|e]; cbn [bind]; [|discriminate].
  destruct (n =? "").
  - intros [= <-]. apply extends_refl.
  - destruct (negb (isChecked (cellOf row COL.I)) && negb (isChecked (cellOf row COL.G)));
      intros [= <-]; unfold extends; simpl; rewrite <- ?app_assoc, ?app_nil_r; auto.
Qed.

Lemma resetBody_emits sheetName topValues r st st' :
  resetBody nameOf resetCol sheetName topValues r st = Ok st' ->
  extends st st' (resetEmit nameOf resetCol sheetName topValues r) [] [].
Proof.
  unfold resetBody, resetEmit, nameCell.
  destruct (nameOf (cellOf (rowOf topValues (r - 7)) COL.B)) as [n|e]; cbn [bind];
    [|discriminate].
  destruct (n =? ""); intros [= <-]; [apply extends_refl|].
  unfold extends; simpl; rewrite ?app_nil_r; auto.
Qed.

Lemma forRows_emits (body : nat -> list value -> state -> result state)
    (eu : nat -> list value -> list update)
    (et eb : nat -> list value -> list Entry.entry) :
  (forall i row st st',
     body i row st = Ok st' -> extends st st' (eu i row) (et i row) (eb i row)) ->
  forall rows i st st',
    forRows body i rows st = Ok st' ->
    extends st st' (emitRows eu i rows) (emitRows et i rows) (emitRows eb i rows).
Proof.
  intros Hbody. induction rows as [|row rest IH]; simpl; intros i st st' H.
  - injection H as <-. apply extends_refl.
  - destruct (body i row st) as [st1|e] eqn:E; simpl in H; [|discriminate].
    eapply extends_trans; [apply Hbody, E | apply IH, H].
Qed.

Lemma emitRows_nil {X : Type} i rows : emitRows (fun _ _ => @nil X) i rows = [].
Proof. revert i. induction rows; simpl; auto. Qed.

(** Membership in what a loop over rows emits. *)
Lemma in_emitRows {X : Type} (emit : nat -> list value -> list X) x rows i :
  In x (emitRows emit i rows) <->
  exists k row, nth_error rows k = Some row /\ In x (emit (i + k) row).
Proof.
  revert i. induction rows as [|row rest IH]; simpl; intros i.
  - split; [tauto|]. intros (k & row & H & _). destruct k; discriminate.
  - rewrite in_app_iff, IH. split.
    + intros [H|(k & r & Hk & H)].
      * exists 0, row. rewrite Nat.add_0_r. auto.
      * exists (S k), r. rewrite Nat.add_succ_r. auto.
    + intros (k & r & Hk & H). destruct k as [|k]; simpl in Hk.
      * injection Hk as <-. rewrite Nat.add_0_r in H. auto.
      * right. exists k, r. rewrite Nat.add_succ_r in H. auto.
Qed.

Lemma resetLoop_emits sheetName topValues st st' :
  forEach (resetBody nameOf resetCol sheetName topValues) [7; 8; 9; 10] st = Ok st' ->
  extends st st'
          (flat_map (resetEmit nameOf resetCol sheetName topValues) [7; 8; 9; 10]) [] [].
Proof.
  simpl. intros H.
  destruct (resetBody nameOf resetCol sheetName topValues 7 st) as [s1|] eqn:E1;
    simpl in H; [|discriminate].
  destruct (resetBody nameOf resetCol sheetName topValues 8 s1) as [s2|] eqn:E2;
    simpl in H; [|discriminate].
  destruct (resetBody nameOf resetCol sheetName topValues 9 s2) as [s3|] eqn:E3;
    simpl in H; [|discriminate].
  destruct (resetBody nameOf resetCol sheetName topValues 10 s3) as [s4|] eqn:E4;
    simpl in H; [|discriminate].
  injection H as <-.
  apply resetBody_emits in E1, E2, E3, E4.
  pose proof (extends_trans _ _ _ _ _ _ _ _ _ E1
               (extends_trans _ _ _ _ _ _ _ _ _ E2
                 (extends_trans _ _ _ _ _ _ _ _ _ E3 E4))) as X.
  simpl in X. rewrite app_nil_r. exact X.
Qed.

(** The staging of one sheet, when it completes, pushes exactly
    [stagedUpdates] and the entries of the two blocks. *)
Lemma stage_emits sheetName topValues bottomValues s st :
  stage nameOf coerceF resetCol sheetName topValues bottomValues s = Ok st ->
  updates st = stagedUpdates nameOf coerceF resetCol sheetName topValues bottomValues /\
  topIncrements (summ st)
    = topIncrements s ++ emitRows (topEntries nameOf coerceF sheetName) 0 topValues /\
  bottomIncrements (summ st)
    = bottomIncrements s
      ++ emitRows (bottomEntries nameOf coerceF sheetName) 0 bottomValues /\
  sheetsUpdated (summ st) = sheetsUpdated s.
Proof.
  unfold stage, stageTop, stageBottom. intros H.
  destruct (forRows (topBody nameOf coerceF sheetName) 0 topValues (State [] s))
    as [s1|] eqn:E1; cbn [bind] in H; [|discriminate].
  destruct (forEach (resetBody nameOf resetCol sheetName topValues) [7; 8; 9; 10] s1)
    as [s2|] eqn:E2; cbn [bind] in H; [|discriminate].
  apply (forRows_emits _ _ _ _ (topBody_emits sheetName)) in E1.
  apply resetLoop_emits in E2.
  apply (forRows_emits _ _ _ _ (bottomBody_emits sheetName)) in H.
  pose proof (extends_trans _ _ _ _ _ _ _ _ _ E1
               (extends_trans _ _ _ _ _ _ _ _ _ E2 H)) as X.
  destruct X as (U & T & B & S). simpl in U, T, B, S.
  rewrite !emitRows_nil in *. rewrite ?app_nil_r in *. simpl in T, B.
  unfold stagedUpdates. rewrite U, T, B, S. simpl. rewrite ?app_nil_r. auto.
Qed.

(** ** Where a staged update comes from *)

Lemma in_topEmit sheetName k row u :
  In u (topEmit nameOf coerceF sheetName k row) <->
  nameCell nameOf row <> "" /\
  ((topIncrement (7 + k) row = true /\
    u = Update (Cell sheetName COL.F (7 + k)) [[fNewOf coerceF row]]) \/
   u = Update (Cell sheetName COL.D (7 + k)) [[Int 0]] \/
   u = Update (Cell sheetName COL.E (7 + k)) [[Int 0]]).
Proof.
  unfold topEmit. destruct (nameCell nameOf row =? "") eqn:N.
  - apply String.eqb_eq in N. simpl. tauto.
  - apply String.eqb_neq in N.
    destruct (topIncrement (7 + k) row); simpl; intuition congruence.
Qed.

Lemma in_bottomEmit sheetName k row u :
  In u (bottomEmit nameOf coerceF sheetName k row) <->
  nameCell nameOf row <> "" /\
  ((bottomIncrement row = true /\
    u = Update (Cell sheetName COL.F (19 + k)) [[fNewOf coerceF row]]) \/
   u = Update (Cell sheetName COL.D (19 + k)) [[Int 0]]).
Proof.
  unfold bottomEmit. destruct (nameCell nameOf row =? "") eqn:N.
  - apply String.eqb_eq in N. simpl. tauto.
  - apply String.eqb_neq in N.
    destruct (bottomIncrement row); simpl; intuition congruence.
Qed.

Lemma in_resetEmit sheetName topValues r u :
  In u (resetEmit nameOf resetCol sheetName topValues r) <->
  nameCell nameOf (rowOf topValues (r - 7)) <> "" /\
  u = Update (Cell sheetName resetCol r) [[Int 0]].
Proof.
  unfold resetEmit. destruct (nameCell nameOf (rowOf topValues (r - 7)) =? "") eqn:N.
  - apply String.eqb_eq in N. simpl. tauto.
  - apply String.eqb_neq in N. simpl. intuition congruence.
Qed.

Lemma in_resetLoop sheetName topValues u :
  In u (flat_map (resetEmit nameOf resetCol sheetName topValues) [7; 8; 9; 10]) <->
  exists r, 7 <= r <= 10 /\ nameCell nameOf (rowOf topValues (r - 7)) <> "" /\
            u = Update (Cell sheetName resetCol r) [[Int 0]].
Proof.
  rewrite in_flat_map. split.
  - intros (r & Hr & H). apply in_resetEmit in H. exists r. split; [|exact H].
    simpl in Hr. lia.
  - intros (r & Hr & H). exists r. split; [simpl; lia | now apply in_resetEmit].
Qed.

(** Every staged update has one of the five origins, and conversely. *)
Lemma in_stagedUpdates sheetName topValues bottomValues u :
  In u (stagedUpdates nameOf coerceF resetCol sheetName topValues bottomValues) <->
  origin nameOf coerceF resetCol sheetName topValues bottomValues u.
Proof.
  unfold stagedUpdates. rewrite !in_app_iff, !in_emitRows, in_resetLoop. split.
  - intros [(k & row & Hk & H)|[(r & Hr & N & ->)|(k & row & Hk & H)]].
    + apply in_topEmit in H. destruct H as (N & [(T & ->)|[->| ->]]).
      * apply (FromTopF nameOf coerceF resetCol _ _ _ _ k row); auto.
      * apply (FromTopDE nameOf coerceF resetCol _ _ _ _ k row COL.D); auto.
      * apply (FromTopDE nameOf coerceF resetCol _ _ _ _ k row COL.E); auto.
    + apply (FromReset nameOf coerceF resetCol _ _ _ _ r); auto.
    + apply in_bottomEmit in H. destruct H as (N & [(T & ->)| ->]).
      * apply (FromBottomF nameOf coerceF resetCol _ _ _ _ k row); auto.
      * apply (FromBottomD nameOf coerceF resetCol _ _ _ _ k row); auto.
  - intros [k row Hk N T ->|k row c Hk N Hc ->|r Hr N ->|k row Hk N T ->|k row Hk N ->].
    + left. exists k, row. split; [auto|]. apply in_topEmit. auto.
    + left. exists k, row. split; [auto|]. apply in_topEmit.
      destruct Hc as [-> | ->]; auto.
    + right; left. eauto.
    + right; right. exists k, row. split; [auto|]. apply in_bottomEmit. auto.
    + right; right. exists k, row. split; [auto|]. apply in_bottomEmit. auto.
Qed.

Lemma nth_error_rowOf (values : grid) k row :
  nth_error values k = Some row -> rowOf values k = row.
Proof. intros H. unfold rowOf. now apply nth_error_nth. Qed.

Lemma rowOf_beyond (values : grid) k : List.length values <= k -> rowOf values k = [].
Proof. intros H. unfold rowOf. now apply nth_overflow. Qed.

(** The staging completes as soon as every name can be computed. *)
Lemma forRows_total (body : nat -> list value -> state -> result state) rows :
  (forall i row st, In row rows -> exists st', body i row st = Ok st') ->
  forall i st, exists st', forRows body i rows st = Ok st'.
Proof.
  induction rows as [|row rest IH]; simpl; intros Hb i st; [eauto|].
  destruct (Hb i row st (or_introl eq_refl)) as (st1 & ->). simpl.
  apply IH. intros; apply Hb; auto.
Qed.

Lemma stage_total sheetName topValues bottomValues s :
  (exists n, nameOf VUndef = Ok n) ->
  (forall row, In row (topValues ++ bottomValues) ->
               exists n, nameOf (cellOf row COL.B) = Ok n) ->
  exists st, stage nameOf coerceF resetCol sheetName topValues bottomValues s = Ok st.
Proof.
  intros Hu Hrows. unfold stage, stageTop, stageBottom.
  assert (Hany : forall k, exists n, nameOf (cellOf (rowOf topValues k) COL.B) = Ok n).
  { intros k. destruct (nth_error topValues k) as [row|] eqn:E.
    - rewrite (nth_error_rowOf _ _ _ E). apply Hrows, in_or_app. left.
      eapply nth_error_In; eauto.
    - apply nth_error_None in E. rewrite rowOf_beyond by auto.
      unfold cellOf. destruct (COL.index COL.B); exact Hu. }
  destruct (forRows_total (topBody nameOf coerceF sheetName) topValues) with (i := 0)
    (st := State [] s) as (s1 & ->).
  { intros i row st Hin. unfold topBody.
    destruct (Hrows row) as (n & ->); [apply in_or_app; auto|]. cbn [bind].
    destruct (n =? ""); eauto. }
  cbn [bind forEach]. unfold resetBody.
  destruct (Hany (7 - 7)) as (n7 & ->). cbn [bind].
  destruct (Hany (8 - 7)) as (n8 & E8).
  destruct (Hany (9 - 7)) as (n9 & E9).
  destruct (Hany (10 - 7)) as (n10 & E10).
  destruct (n7 =? ""); cbn [bind]; rewrite E8; cbn [bind];
    destruct (n8 =? ""); cbn [bind]; rewrite E9; cbn [bind];
    destruct (n9 =? ""); cbn [bind]; rewrite E10; cbn [bind];
    destruct (n10 =? ""); cbn [bind];
    (apply forRows_total; intros i row st Hin; unfold bottomBody;
     destruct (Hrows row) as (n & ->); [apply in_or_app; auto|]; cbn [bind];
     destruct (n =? ""); eauto).
Qed.

End Emission.

(* ================================================================== *)
(** * Properties of the staging of one sheet, for either file *)

Section StagingFacts.

Variable nameOf : value -> result string.
Variable coerceF : value -> num.
Variable resetCol : COL.col.

Let stageOf := stage nameOf coerceF resetCol.
Let name := nameCell nameOf.
Let fNew := fNewOf coerceF.

(** The rows of the reset loop are 7, 8, 9 and 10. *)
Lemma reset_rows r : 7 <= r <= 10 -> r = 7 \/ r = 8 \/ r = 9 \/ r = 10.
Proof. lia. Qed.

(** The loop over the rows 7 to 10 pushes, for each of these rows that has a
    name, one write of 0 to [resetCol], and nothing else. *)
Lemma reset_loop_writes sheetName topValues st st' :
  forEach (resetBody nameOf resetCol sheetName topValues) [7; 8; 9; 10] st = Ok st' ->
  exists emitted,
    updates st' = updates st ++ emitted /\
    (forall r, 7 <= r <= 10 -> name (rowOf topValues (r - 7)) <> "" ->
       filter (fun u => (ref_row (range u) =? r)%nat) emitted
       = [Update (Cell sheetName resetCol r) [[Int 0]]]) /\
    (forall u, In u emitted ->
       exists r, 7 <= r <= 10 /\ name (rowOf topValues (r - 7)) <> "" /\
                 u = Update (Cell sheetName resetCol r) [[Int 0]]).
Proof.
  intros H. apply resetLoop_emits in H. destruct H as (U & _).
  exists (flat_map (resetEmit nameOf resetCol sheetName topValues) [7; 8; 9; 10]).
  split; [exact U|]. split.
  - intros r Hr N. apply String.eqb_neq in N. unfold name in N.
    cbn [flat_map]. unfold resetEmit.
    destruct (reset_rows r Hr) as [-> | [-> | [-> | ->]]]; rewrite N;
      repeat match goal with
             | |- context [if ?b then _ else _] => destruct b
             end; reflexivity.
  - intros u Hu. now apply in_resetLoop in Hu.
Qed.

Hypothesis resetCol_not_F : resetCol <> COL.F.
Hypothesis name_undefined : nameOf VUndef = Ok "".

(** A row that the grid does not have has no name. *)
Lemma nameCell_missing : name [] = "".
Proof. unfold name, nameCell, cellOf. simpl. now rewrite name_undefined. Qed.

Lemma named_row_exists (values : grid) k :
  name (rowOf values k) <> "" ->
  exists row, nth_error values k = Some row /\ name row <> "".
Proof.
  intros N. destruct (nth_error values k) as [row|] eqn:E.
  - exists row. split; [reflexivity|]. now rewrite <- (nth_error_rowOf _ _ _ E).
  - apply nth_error_None in E. rewrite rowOf_beyond in N by exact E.
    now rewrite nameCell_missing in N.
Qed.

(** Row 7 is never incremented, and is reset when it has a name. *)
Lemma row7_asymmetry sheetName topValues bottomValues s st :
  stageOf sheetName topValues bottomValues s = Ok st ->
  (forall u, In u (updates st) -> range u <> Cell sheetName COL.F 7) /\
  (name (rowOf topValues 0) <> "" ->
   In (Update (Cell sheetName COL.D 7) [[Int 0]]) (updates st) /\
   In (Update (Cell sheetName COL.E 7) [[Int 0]]) (updates st) /\
   In (Update (Cell sheetName resetCol 7) [[Int 0]]) (updates st)).
Proof.
  intros H. apply stage_emits in H. destruct H as (U & _). rewrite U. split.
  - intros u Hu. apply in_stagedUpdates in Hu.
    destruct Hu as [k row Hk N T ->|k row c Hk N Hc ->|r Hr N ->|k row Hk N T ->|k row Hk N ->];
      cbn [range]; intros [= E]; try lia; try congruence.
    + assert (k = 0) by lia. subst k. unfold topIncrement in T. simpl in T. discriminate.
    + destruct Hc; congruence.
  - intros N.
    destruct (named_row_exists _ _ N) as (row & Hrow & Nrow).
    repeat split; apply in_stagedUpdates.
    + apply FromTopDE with (k := 0) (row := row) (c := COL.D); auto.
    + apply FromTopDE with (k := 0) (row := row) (c := COL.E); auto.
    + apply FromReset with (r := 7); auto; lia.
Qed.

Lemma in_topEntries sheetName rows e :
  In e (emitRows (topEntries nameOf coerceF sheetName) 0 rows) <->
  exists k row, nth_error rows k = Some row /\ name row <> "" /\
                topIncrement (7 + k) row = true /\
                e = Entry.Make sheetName (7 + k) (name row) (InfoF (fNew row)).
Proof.
  rewrite in_emitRows. unfold topEntries. fold name. fold fNew.
  split; intros (k & row & Hk & H); exists k, row; (split; [exact Hk|]);
    change (0 + k) with k in *.
  - destruct (name row =? "") eqn:N; [contradiction|]. apply String.eqb_neq in N.
    destruct (topIncrement (7 + k) row); [|contradiction].
    destruct H as [<-|[]]. auto.
  - destruct H as (N & T & ->). apply String.eqb_neq in N. rewrite N, T. now left.
Qed.

Lemma in_bottomEntries sheetName rows e :
  In e (emitRows (bottomEntries nameOf coerceF sheetName) 0 rows) <->
  exists k row, nth_error rows k = Some row /\ name row <> "" /\
                bottomIncrement row = true /\
                e = Entry.Make sheetName (19 + k) (name row) (InfoF (fNew row)).
Proof.
  rewrite in_emitRows. unfold bottomEntries. fold name. fold fNew.
  split; intros (k & row & Hk & H); exists k, row; (split; [exact Hk|]);
    change (0 + k) with k in *.
  - destruct (name row =? "") eqn:N; [contradiction|]. apply String.eqb_neq in N.
    destruct (bottomIncrement row); [|contradiction].
    destruct H as [<-|[]]. auto.
  - destruct H as (N & T & ->). apply String.eqb_neq in N. rewrite N, T. now left.
Qed.

Lemma nth_error_bound {X} (l : list X) k x : nth_error l k = Some x -> k < List.length l.
Proof. intros H. apply nth_error_Some. congruence. Qed.

Lemma topIncrement_flags r row :
  8 <= r <= 13 ->
  topIncrement r row = true <->
  isChecked (cellOf row COL.J) = false /\ isChecked (cellOf row COL.H) = false.
Proof.
  intros Hr. unfold topIncrement.
  replace ((8 <=? r)%nat && (r <=? 13)%nat) with true
    by (symmetry; apply andb_true_iff; split; apply Nat.leb_le; lia).
  cbn [andb]. rewrite andb_true_iff, !negb_true_iff. tauto.
Qed.

Lemma bottomIncrement_flags row :
  bottomIncrement row = true <->
  isChecked (cellOf row COL.I) = false /\ isChecked (cellOf row COL.G) = false.
Proof. unfold bottomIncrement. rewrite andb_true_iff, !negb_true_iff. tauto. Qed.

(** The [F] increment of a named row, in either block, is staged and
    recorded exactly when neither flag of the row is checked. *)
Lemma increment_iff sheetName topValues bottomValues s st :
  List.length topValues <= 7 ->
  stageOf sheetName topValues bottomValues s = Ok st ->
  exists tops bottoms,
    topIncrements (summ st) = topIncrements s ++ tops /\
    bottomIncrements (summ st) = bottomIncrements s ++ bottoms /\
    (forall r, 8 <= r <= 13 ->
       let row := rowOf topValues (r - 7) in
       name row <> "" ->
       (In (Update (Cell sheetName COL.F r) [[fNew row]]) (updates st) /\
        In (Entry.Make sheetName r (name row) (InfoF (fNew row))) tops)
       <-> (isChecked (cellOf row COL.J) = false /\
            isChecked (cellOf row COL.H) = false)) /\
    (forall r, 19 <= r <= 40 ->
       let row := rowOf bottomValues (r - 19) in
       name row <> "" ->
       (In (Update (Cell sheetName COL.F r) [[fNew row]]) (updates st) /\
        In (Entry.Make sheetName r (name row) (InfoF (fNew row))) bottoms)
       <-> (isChecked (cellOf row COL.I) = false /\
            isChecked (cellOf row COL.G) = false)).
Proof.
  intros Hlen H. apply stage_emits in H. destruct H as (U & T & B & _).
  eexists _, _. split; [exact T|]. split; [exact B|]. rewrite U. split.
  - intros r Hr row N. split.
    + intros (Hu & _). apply in_stagedUpdates in Hu.
      destruct Hu as [k row' Hk N' T' E|k row' c Hk N' Hc E|r' Hr' N' E
                     |k row' Hk N' T' E|k row' Hk N' E];
        injection E as E1 E2; try lia; try congruence.
      * assert (k = r - 7) by lia. subst k.
        pose proof (nth_error_rowOf _ _ _ Hk) as R. fold row in R. subst row'.
        apply (topIncrement_flags (7 + (r - 7))); [lia | exact T'].
      * destruct Hc; congruence.
    + intros Hf. destruct (named_row_exists _ _ N) as (row' & Hk & N').
      assert (R : row' = row) by (symmetry; now apply nth_error_rowOf). subst row'.
      assert (T' : topIncrement (7 + (r - 7)) row = true)
        by (apply topIncrement_flags; [lia | exact Hf]).
      assert (R : 7 + (r - 7) = r) by lia. split.
      * apply in_stagedUpdates. apply FromTopF with (k := r - 7) (row := row); auto.
        now rewrite R.
      * apply in_topEntries. exists (r - 7), row. rewrite R in *. auto.
  - intros r Hr row N. split.
    + intros (Hu & _). apply in_stagedUpdates in Hu.
      destruct Hu as [k row' Hk N' T' E|k row' c Hk N' Hc E|r' Hr' N' E
                     |k row' Hk N' T' E|k row' Hk N' E];
        injection E as E1 E2; try lia; try congruence.
      * apply nth_error_bound in Hk. lia.
      * destruct Hc; congruence.
      * assert (k = r - 19) by lia. subst k.
        pose proof (nth_error_rowOf _ _ _ Hk) as R. fold row in R. subst row'.
        now apply bottomIncrement_flags.
    + intros Hf. destruct (named_row_exists _ _ N) as (row' & Hk & N').
      assert (R : row' = row) by (symmetry; now apply nth_error_rowOf). subst row'.
      assert (T' : bottomIncrement row = true) by now apply bottomIncrement_flags.
      assert (R : 19 + (r - 19) = r) by lia. split.
      * apply in_stagedUpdates. apply FromBottomF with (k := r - 19) (row := row); auto.
        now rewrite R.
      * apply in_bottomEntries. exists (r - 19), row. rewrite R in *. auto.
Qed.

(** A row without a name gets no write and no entry. *)
Lemma empty_rows_inert sheetName topValues bottomValues s st :
  List.length topValues <= 7 ->
  stageOf sheetName topValues bottomValues s = Ok st ->
  exists tops bottoms,
    topIncrements (summ st) = topIncrements s ++ tops /\
    bottomIncrements (summ st) = bottomIncrements s ++ bottoms /\
    forall r,
      (7 <= r <= 13 /\ name (rowOf topValues (r - 7)) = "") \/
      (19 <= r <= 40 /\ name (rowOf bottomValues (r - 19)) = "") ->
      (forall u, In u (updates st) -> ref_row (range u) <> r) /\
      (forall e, In e tops -> Entry.row e <> r) /\
      (forall e, In e bottoms -> Entry.row e <> r).
Proof.
  intros Hlen H. apply stage_emits in H. destruct H as (U & T & B & _).
  eexists _, _. split; [exact T|]. split; [exact B|]. rewrite U.
  intros r Hr. split; [|split].
  - intros u Hu. apply in_stagedUpdates in Hu.
    destruct Hu as [k row Hk N _ ->|k row c Hk N _ ->|r' Hr' N ->
                   |k row Hk N _ ->|k row Hk N ->];
      cbn [range ref_row]; intros E; subst r;
      try (pose proof (nth_error_bound _ _ _ Hk));
      try (apply nth_error_rowOf in Hk);
      destruct Hr as [(Hr & E)|(Hr & E)]; try lia;
      try (replace (7 + k - 7) with k in E by lia);
      try (replace (19 + k - 19) with k in E by lia); unfold name in *; congruence.
  - intros e He. apply in_topEntries in He. destruct He as (k & row & Hk & N & _ & ->).
    cbn [Entry.row]. intros E; subst r.
    pose proof (nth_error_bound _ _ _ Hk). apply nth_error_rowOf in Hk.
    destruct Hr as [(Hr & E)|(Hr & E)]; try lia.
    replace (7 + k - 7) with k in E by lia. unfold name in *; congruence.
  - intros e He. apply in_bottomEntries in He. destruct He as (k & row & Hk & N & _ & ->).
    cbn [Entry.row]. intros E; subst r. apply nth_error_rowOf in Hk.
    destruct Hr as [(Hr & E)|(Hr & E)]; try lia.
    replace (19 + k - 19) with k in E by lia. unfold name in *; congruence.
Qed.

(** Every staged update is a single cell of the sheet in hand, in rows 7 to
    13 or 19 to 40. *)
Lemma stagedUpdates_in_blocks sheetName topValues bottomValues :
  List.length topValues <= 7 ->
  List.length bottomValues <= 22 ->
  forall u, In u (stagedUpdates nameOf coerceF resetCol sheetName topValues bottomValues) ->
    ref_sheet (range u) = sheetName /\
    (7 <= ref_row (range u) <= 13 \/ 19 <= ref_row (range u) <= 40) /\
    exists v, values u = [[v]].
Proof.
  intros Ht Hb u Hu. apply in_stagedUpdates in Hu.
  destruct Hu as [k row Hk N _ ->|k row c Hk N _ ->|r' Hr' N ->|k row Hk N _ ->|k row Hk N ->];
    cbn [range ref_row ref_sheet values];
    try (pose proof (nth_error_bound _ _ _ Hk));
    (split; [reflexivity|]); (split; [lia | eauto]).
Qed.

Lemma staged_in_blocks sheetName topValues bottomValues s st :
  List.length topValues <= 7 ->
  List.length bottomValues <= 22 ->
  stageOf sheetName topValues bottomValues s = Ok st ->
  forall u, In u (updates st) ->
    ref_sheet (range u) = sheetName /\
    (7 <= ref_row (range u) <= 13 \/ 19 <= ref_row (range u) <= 40) /\
    exists v, values u = [[v]].
Proof.
  intros Ht Hb H u Hu. apply stage_emits in H. destruct H as (U & _).
  rewrite U in Hu. now apply (stagedUpdates_in_blocks sheetName topValues bottomValues).
Qed.

End StagingFacts.

(* ================================================================== *)
(** * The remote calls of a handler *)

Lemma sendIfAny_run updates log :
  sendIfAny updates log = (Ok tt, log ++ batchOf updates).
Proof.
  unfold sendIfAny, batchUpdate, ret, batchOf.
  destruct updates; simpl; [now rewrite app_nil_r | reflexivity].
Qed.

Lemma batchUpdate_run updates log :
  batchUpdate updates log = (Ok tt, log ++ batchOf updates).
Proof.
  unfold batchUpdate, batchOf. destruct updates; [now rewrite app_nil_r | reflexivity].
Qed.

(** A sheet loop whose iterations each append a segment that depends on the
    sheet only: its log is the segments of the sheets it goes through, and
    it completes when every iteration does. *)
Lemma forEachM_log {X S : Type} (body : X -> S -> M S) (seg : X -> list call)
    (ok : X -> bool) :
  (forall x st log, snd (body x st log) = log ++ seg x /\
                    isOk (fst (body x st log)) = ok x) ->
  forall xs st log,
    snd (forEachM body xs st log) = log ++ flat_map seg (processed ok xs) /\
    isOk (fst (forEachM body xs st log)) = forallb ok xs.
Proof.
  intros Hb. induction xs as [|x rest IH]; intros st log.
  - simpl. rewrite app_nil_r. auto.
  - cbn [forEachM]. unfold bindM. destruct (Hb x st log) as (L & O).
    destruct (body x st log) as [[st1|e] log1]; cbn [fst snd isOk] in *;
      cbn [processed flat_map forallb]; rewrite <- O.
    + destruct (IH st1 log1) as (L' & O'). rewrite L', O'. subst log1.
      rewrite <- app_assoc. auto.
    + rewrite L. simpl. rewrite app_nil_r. auto.
Qed.

Lemma processed_all {X : Type} (ok : X -> bool) xs :
  forallb ok xs = true -> processed ok xs = xs.
Proof.
  induction xs as [|x rest IH]; simpl; [auto|].
  intros H. apply andb_true_iff in H. destruct H as (-> & H). now rewrite IH.
Qed.

Lemma processed_incl {X : Type} (ok : X -> bool) xs x :
  In x (processed ok xs) -> In x xs.
Proof.
  induction xs as [|y rest IH]; simpl; [auto|].
  intros [->|H]; [auto|]. destruct (ok y); [auto | destruct H].
Qed.

Lemma processed_NoDup {X : Type} (ok : X -> bool) xs :
  NoDup xs -> NoDup (processed ok xs).
Proof.
  induction 1 as [|x rest Hx Hn IH]; simpl; constructor.
  - intros H. destruct (ok x); [|destruct H]. apply Hx. eapply processed_incl; eauto.
  - destruct (ok x); [exact IH | constructor].
Qed.

Lemma writeCalls_app sheetName l1 l2 :
  writeCalls sheetName (l1 ++ l2) = writeCalls sheetName l1 + writeCalls sheetName l2.
Proof. unfold writeCalls. now rewrite filter_app, length_app. Qed.

(** Counting the write calls for one sheet in the segments of distinct
    sheets, when the segment of a sheet writes to that sheet only. *)
Lemma writeCalls_segments (seg : string -> list call) sheetName :
  (forall x, x <> sheetName -> writeCalls sheetName (seg x) = 0) ->
  forall xs, NoDup xs ->
    writeCalls sheetName (flat_map seg xs)
    = if in_dec string_dec sheetName xs then writeCalls sheetName (seg sheetName) else 0.
Proof.
  intros Hother. induction 1 as [|x rest Hx Hn IH]; [reflexivity|].
  cbn [flat_map]. rewrite writeCalls_app, IH.
  destruct (in_dec string_dec sheetName (x :: rest)) as [Hin|Hnin];
    destruct (in_dec string_dec sheetName rest) as [Hin'|Hnin'].
  - destruct (string_dec x sheetName) as [->|Hne]; [contradiction|].
    now rewrite Hother.
  - destruct Hin as [->|Hin]; [lia | contradiction].
  - exfalso. apply Hnin. now right.
  - rewrite Hother; [reflexivity|]. intros ->. apply Hnin. now left.
Qed.

Lemma SHEETS_NoDup : NoDup SHEETS.
Proof.
  unfold SHEETS. repeat constructor; simpl; intuition discriminate.
Qed.

(** A batch of updates that all belong to one sheet is a write call for
    that sheet alone, and is there when the updates are not empty. *)
Lemma writeCalls_batchOf sheetName owner updates :
  (forall u, In u updates -> ref_sheet (range u) = owner) ->
  writeCalls sheetName (batchOf updates)
  = if string_dec owner sheetName
    then (match updates with [] => 0 | _ :: _ => 1 end)
    else 0.
Proof.
  intros Hown. unfold writeCalls, batchOf.
  destruct updates as [|u rest]; [now destruct (string_dec owner sheetName)|].
  cbn [filter writesTo]. destruct (string_dec owner sheetName) as [->|Hne].
  - cbn [existsb]. rewrite (Hown u (or_introl eq_refl)), String.eqb_refl. reflexivity.
  - replace (existsb _ (u :: rest)) with false; [reflexivity|].
    symmetry. apply not_true_iff_false. intros H. apply existsb_exists in H.
    destruct H as (v & Hv & E). apply String.eqb_eq in E.
    rewrite (Hown v Hv) in E. contradiction.
Qed.

(** ** The word loops of the counter commands *)

Lemma fold_left_pushes {W U V : Type} (body : list U * list V -> W -> list U * list V)
    (wr : W -> list U) :
  (forall st w, fst (body st w) = fst st ++ wr w) ->
  forall ws st, fst (fold_left body ws st) = fst st ++ flat_map wr ws.
Proof.
  intros Hb. induction ws as [|w rest IH]; intros st; simpl.
  - now rewrite app_nil_r.
  - rewrite IH, Hb, <- app_assoc. reflexivity.
Qed.

Lemma stageAdd_updates sheetName values eventsToAdd words updatesSummary :
  fst (stageAdd sheetName values eventsToAdd words updatesSummary)
  = flat_map (addWrites sheetName values eventsToAdd) words.
Proof.
  unfold stageAdd.
  apply (fold_left_pushes (addBody sheetName values eventsToAdd)
           (addWrites sheetName values eventsToAdd)).
  intros st w. unfold addBody, addWrites. destruct (findIndex values w); simpl;
    [reflexivity | now rewrite app_nil_r].
Qed.

Lemma stageOfficerAdd_updates sheetName values eventsToAdd words updatesSummary :
  fst (stageOfficerAdd sheetName values eventsToAdd words updatesSummary)
  = flat_map (officerAddWrites sheetName values eventsToAdd) words.
Proof.
  unfold stageOfficerAdd.
  apply (fold_left_pushes (officerAddBody sheetName values eventsToAdd)
           (officerAddWrites sheetName values eventsToAdd)).
  intros st w. unfold officerAddBody, officerAddWrites. destruct (findIndex values w); simpl;
    [reflexivity | now rewrite app_nil_r].
Qed.

Lemma stageTryoutAdd_updates sheetName values tryoutsToAdd words updatesSummary :
  fst (stageTryoutAdd sheetName values tryoutsToAdd words updatesSummary)
  = flat_map (tryoutAddWrites sheetName values tryoutsToAdd) words.
Proof.
  unfold stageTryoutAdd.
  apply (fold_left_pushes (tryoutAddBody sheetName values tryoutsToAdd)
           (tryoutAddWrites sheetName values tryoutsToAdd)).
  intros st w. unfold tryoutAddBody, tryoutAddWrites. destruct (findIndex values w); simpl;
    [reflexivity | now rewrite app_nil_r].
Qed.

(** The updates of a word loop belong to the sheet in hand. *)
Lemma stageAdd_sheet sheetName values eventsToAdd words updatesSummary u :
  In u (fst (stageAdd sheetName values eventsToAdd words updatesSummary)) ->
  ref_sheet (range u) = sheetName.
Proof.
  rewrite stageAdd_updates, in_flat_map. intros (w & _ & H). unfold addWrites in H.
  destruct (findIndex values w); simpl in H; intuition (subst; reflexivity).
Qed.

Lemma stageOfficerAdd_sheet sheetName values eventsToAdd words updatesSummary u :
  In u (fst (stageOfficerAdd sheetName values eventsToAdd words updatesSummary)) ->
  ref_sheet (range u) = sheetName.
Proof.
  rewrite stageOfficerAdd_updates, in_flat_map. intros (w & _ & H).
  unfold officerAddWrites in H.
  destruct (findIndex values w); simpl in H; intuition (subst; reflexivity).
Qed.

Lemma stageTryoutAdd_sheet sheetName values tryoutsToAdd words updatesSummary u :
  In u (fst (stageTryoutAdd sheetName values tryoutsToAdd words updatesSummary)) ->
  ref_sheet (range u) = sheetName.
Proof.
  rewrite stageTryoutAdd_updates, in_flat_map. intros (w & _ & H).
  unfold tryoutAddWrites in H.
  destruct (findIndex values w); simpl in H; intuition (subst; reflexivity).
Qed.

Section RemoteFacts.

Variable answer : a1range -> grid.

Lemma addSheet_run words eventsToAdd sheetName updatesSummary log :
  let r := Range sheetName COL.A 1 COL.D 100 in
  let st := stageAdd sheetName (answer r) eventsToAdd words updatesSummary in
  addSheet answer words eventsToAdd sheetName updatesSummary log
  = (Ok (snd st), log ++ wordCalls r (fst st)).
Proof.
  cbv zeta. unfold addSheet, bindM, getValues, wordCalls.
  rewrite sendIfAny_run. unfold ret. now rewrite <- app_assoc.
Qed.

Lemma officerAddSheet_run words eventsToAdd sheetName updatesSummary log :
  let r := Range sheetName COL.A 7 COL.E 13 in
  let st := stageOfficerAdd sheetName (answer r) eventsToAdd words updatesSummary in
  officerAddSheet answer words eventsToAdd sheetName updatesSummary log
  = (Ok (snd st), log ++ wordCalls r (fst st)).
Proof.
  cbv zeta. unfold officerAddSheet, bindM, getValues, wordCalls.
  rewrite sendIfAny_run. unfold ret. now rewrite <- app_assoc.
Qed.

Lemma tryoutAddSheet_run words tryoutsToAdd sheetName updatesSummary log :
  let r := Range sheetName COL.A 7 COL.G 10 in
  let st := stageTryoutAdd sheetName (answer r) tryoutsToAdd words updatesSummary in
  tryoutAddSheet answer words tryoutsToAdd sheetName updatesSummary log
  = (Ok (snd st), log ++ wordCalls r (fst st)).
Proof.
  cbv zeta. unfold tryoutAddSheet, bindM, getValues, wordCalls.
  rewrite sendIfAny_run. unfold ret. now rewrite <- app_assoc.
Qed.

(** A sheet loop over [SHEETS] whose iteration for a sheet issues [cnt]
    write calls, all for that sheet: the write calls for a sheet that the
    loop reaches are those of its iteration. *)
Lemma sheetLoop_writeCalls {S : Type} (body : string -> S -> M S)
    (seg : string -> list call) (ok : string -> bool) (cnt : string -> nat) :
  (forall x st log, snd (body x st log) = log ++ seg x /\
                    isOk (fst (body x st log)) = ok x) ->
  (forall x s, writeCalls s (seg x) = if string_dec x s then cnt x else 0) ->
  forall st s,
    writeCalls s (snd (forEachM body SHEETS st []))
    = if in_dec string_dec s (processed ok SHEETS) then cnt s else 0.
Proof.
  intros Hb Hseg st s.
  destruct (forEachM_log body seg ok Hb SHEETS st []) as (-> & _).
  cbn [app]. rewrite writeCalls_segments.
  - destruct (in_dec string_dec s (processed ok SHEETS)); [|reflexivity].
    rewrite Hseg. now destruct (string_dec s s).
  - intros x Hx. rewrite Hseg. now destruct (string_dec x s).
  - apply processed_NoDup, SHEETS_NoDup.
Qed.

Lemma writeCalls_wordCalls s r owner updates :
  (forall u, In u updates -> ref_sheet (range u) = owner) ->
  writeCalls s (wordCalls r updates)
  = if string_dec owner s then (match updates with [] => 0 | _ :: _ => 1 end) else 0.
Proof.
  intros H. unfold wordCalls. rewrite writeCalls_app.
  now rewrite (writeCalls_batchOf s owner updates H).
Qed.

End RemoteFacts.

(** ** The sheet iteration of [handleQuotaCheck] *)

Section QuotaRemoteFacts.

Variable answer : a1range -> grid.
Variable nameOf : value -> result string.
Variable coerceF : value -> num.
Variable resetCol : COL.col.

Lemma forRows_isOk {S : Type} (body : nat -> list value -> S -> result S)
    (okrow : list value -> bool) :
  (forall i row st, isOk (body i row st) = okrow row) ->
  forall rows i st, isOk (forRows body i rows st) = forallb okrow rows.
Proof.
  intros Hb. induction rows as [|row rest IH]; intros i st; [reflexivity|].
  cbn [forRows forallb]. rewrite <- (Hb i row st).
  destruct (body i row st) as [st1|e]; cbn [bind isOk andb]; [apply IH | reflexivity].
Qed.

Lemma forEach_isOk {X S : Type} (body : X -> S -> result S) (okx : X -> bool) :
  (forall x st, isOk (body x st) = okx x) ->
  forall xs st, isOk (forEach body xs st) = forallb okx xs.
Proof.
  intros Hb. induction xs as [|x rest IH]; intros st; [reflexivity|].
  cbn [forEach forallb]. rewrite <- (Hb x st).
  destruct (body x st) as [st1|e]; cbn [bind isOk andb]; [apply IH | reflexivity].
Qed.

Lemma topBody_isOk sheetName i row st :
  isOk (topBody nameOf coerceF sheetName i row st) = isOk (nameOf (cellOf row COL.B)).
Proof.
  unfold topBody. destruct (nameOf (cellOf row COL.B)) as [n|e]; cbn [bind isOk];
    [|reflexivity].
  now destruct (n =? "").
Qed.

Lemma bottomBody_isOk sheetName i row st :
  isOk (bottomBody nameOf coerceF sheetName i row st) = isOk (nameOf (cellOf row COL.B)).
Proof.
  unfold bottomBody. destruct (nameOf (cellOf row COL.B)) as [n|e]; cbn [bind isOk];
    [|reflexivity].
  now destruct (n =? "").
Qed.

Lemma resetBody_isOk sheetName topValues r st :
  isOk (resetBody nameOf resetCol sheetName topValues r st)
  = isOk (nameOf (cellOf (rowOf topValues (r - 7)) COL.B)).
Proof.
  unfold resetBody.
  destruct (nameOf (cellOf (rowOf topValues (r - 7)) COL.B)) as [n|e]; cbn [bind isOk];
    [|reflexivity].
  now destruct (n =? "").
Qed.

Lemma stageTop_isOk sheetName topValues st :
  isOk (stageTop nameOf coerceF resetCol sheetName topValues st) = topOk nameOf topValues.
Proof.
  unfold stageTop, topOk, namesOk.
  rewrite <- (forRows_isOk (topBody nameOf coerceF sheetName) _
                (topBody_isOk sheetName) topValues 0 st).
  destruct (forRows (topBody nameOf coerceF sheetName) 0 topValues st) as [st1|e];
    cbn [bind isOk andb]; [|reflexivity].
  apply forEach_isOk. intros r st'. apply resetBody_isOk.
Qed.

Lemma stageBottom_isOk sheetName bottomValues st :
  isOk (stageBottom nameOf coerceF sheetName bottomValues st) = namesOk nameOf bottomValues.
Proof.
  unfold stageBottom, namesOk.
  apply forRows_isOk. intros i row st'. apply bottomBody_isOk.
Qed.

Lemma stage_isOk sheetName topValues bottomValues s :
  isOk (stage nameOf coerceF resetCol sheetName topValues bottomValues s)
  = topOk nameOf topValues && namesOk nameOf bottomValues.
Proof.
  unfold stage. rewrite <- (stageTop_isOk sheetName topValues (State [] s)).
  destruct (stageTop nameOf coerceF resetCol sheetName topValues (State [] s)) as [st1|e];
    cbn [bind isOk andb]; [apply stageBottom_isOk | reflexivity].
Qed.

Lemma quotaSheet_run sheetName s log :
  snd (quotaSheet answer nameOf coerceF resetCol sheetName s log)
  = log ++ quotaCalls answer nameOf coerceF resetCol sheetName /\
  isOk (fst (quotaSheet answer nameOf coerceF resetCol sheetName s log))
  = quotaOk answer nameOf sheetName.
Proof.
  unfold quotaSheet, quotaCalls, quotaOk, stagedFor, bindM, getValues, lift.
  fold (topRange sheetName). fold (bottomRange sheetName).
  set (top := answer (topRange sheetName)). set (bot := answer (bottomRange sheetName)).
  rewrite <- (stageTop_isOk sheetName top (State [] s)).
  destruct (stageTop nameOf coerceF resetCol sheetName top (State [] s))
    as [st1|e] eqn:E1; cbn [isOk fst snd andb]; [|auto].
  rewrite <- (stageBottom_isOk sheetName bot st1).
  destruct (stageBottom nameOf coerceF sheetName bot st1) as [st|e] eqn:E2;
    cbn [isOk fst snd]; [|rewrite <- app_assoc; auto].
  assert (E : stage nameOf coerceF resetCol sheetName top bot s = Ok st)
    by (unfold stage; rewrite E1; exact E2).
  apply stage_emits in E. destruct E as (<- & _).
  destruct (updates st) as [|u us]; cbn [List.length Nat.ltb Nat.leb batchOf].
  - unfold ret. cbn [fst snd isOk]. rewrite <- app_assoc. auto.
  - rewrite batchUpdate_run. unfold ret. cbn [fst snd isOk batchOf].
    rewrite <- !app_assoc. auto.
Qed.

(** The write calls of the iteration of a sheet: one for that sheet when
    it completes with something staged, none otherwise. *)
Lemma writeCalls_quotaCalls x s :
  writeCalls s (quotaCalls answer nameOf coerceF resetCol x)
  = if string_dec x s
    then (if quotaOk answer nameOf x
          then (match stagedFor answer nameOf coerceF resetCol x with
                | [] => 0
                | _ :: _ => 1
                end)
          else 0)
    else 0.
Proof.
  assert (Hown : forall u, In u (stagedFor answer nameOf coerceF resetCol x) ->
                           ref_sheet (range u) = x).
  { intros u Hu. apply in_stagedUpdates in Hu.
    destruct Hu as [? ? ? ? ? ->|? ? ? ? ? ? ->|? ? ? ->|? ? ? ? ? ->|? ? ? ? ->];
      reflexivity. }
  unfold quotaCalls, quotaOk. rewrite writeCalls_app.
  destruct (topOk nameOf (answer (topRange x))); cbn [andb];
    [|now destruct (string_dec x s)].
  rewrite writeCalls_app.
  destruct (namesOk nameOf (answer (bottomRange x)));
    [|now destruct (string_dec x s)].
  now rewrite (writeCalls_batchOf s x _ Hown).
Qed.

(** The write calls of [handleQuotaCheck] for a sheet. *)
Lemma handleQuotaCheck_writeCalls s :
  writeCalls s (snd (handleQuotaCheck answer nameOf coerceF resetCol []))
  = if in_dec string_dec s (processed (quotaOk answer nameOf) SHEETS)
    then (if quotaOk answer nameOf s
          then (match stagedFor answer nameOf coerceF resetCol s with
                | [] => 0
                | _ :: _ => 1
                end)
          else 0)
    else 0.
Proof.
  unfold handleQuotaCheck.
  apply (sheetLoop_writeCalls (quotaSheet answer nameOf coerceF resetCol)
           (quotaCalls answer nameOf coerceF resetCol) (quotaOk answer nameOf)
           (fun x => if quotaOk answer nameOf x
                     then (match stagedFor answer nameOf coerceF resetCol x with
                           | [] => 0
                           | _ :: _ => 1
                           end)
                     else 0)).
  - intros x st log. apply quotaSheet_run.
  - intros x s'. apply writeCalls_quotaCalls.
Qed.

Lemma handleQuotaCheck_isOk :
  isOk (fst (handleQuotaCheck answer nameOf coerceF resetCol []))
  = forallb (quotaOk answer nameOf) SHEETS.
Proof.
  unfold handleQuotaCheck.
  apply (forEachM_log (quotaSheet answer nameOf coerceF resetCol)
           (quotaCalls answer nameOf coerceF resetCol) (quotaOk answer nameOf)).
  intros x st log. apply quotaSheet_run.
Qed.

Lemma handleQuotaCheck_log :
  snd (handleQuotaCheck answer nameOf coerceF resetCol [])
  = flat_map (quotaCalls answer nameOf coerceF resetCol)
             (processed (quotaOk answer nameOf) SHEETS).
Proof.
  unfold handleQuotaCheck.
  apply (forEachM_log (quotaSheet answer nameOf coerceF resetCol)
           (quotaCalls answer nameOf coerceF resetCol) (quotaOk answer nameOf)).
  intros x st log. apply quotaSheet_run.
Qed.

End QuotaRemoteFacts.

(* ================================================================== *)
(** * Decimal digits: printing and reading back *)

Lemma digit_char_facts c :
  isDigit 10 c = true ->
  isWhiteSpace c = false /\
  (c =? "-")%char = false /\ (c =? "+")%char = false /\
  (c =? "x")%char = false /\ (c =? "X")%char = false /\
  (c =? "o")%char = false /\ (c =? "O")%char = false /\
  (c =? "b")%char = false /\ (c =? "B")%char = false /\
  (c =? ".")%char = false /\ (c =? "e")%char = false /\ (c =? "E")%char = false /\
  (c =? "I")%char = false.
Proof.
  destruct c as [[] [] [] [] [] [] [] []]; vm_compute; intros H;
    try discriminate H; repeat split.
Qed.

Lemma digitVal_digitChar d :
  (0 <= d < 10)%Z -> digitVal 10 (digitChar d) = Some d.
Proof.
  intros H.
  assert (E : (d = 0 \/ d = 1 \/ d = 2 \/ d = 3 \/ d = 4 \/ d = 5 \/ d = 6 \/ d = 7
              \/ d = 8 \/ d = 9)%Z) by lia.
  repeat (destruct E as [-> | E]; [reflexivity|]). subst d. reflexivity.
Qed.

Lemma isDigit_digitChar d : (0 <= d < 10)%Z -> isDigit 10 (digitChar d) = true.
Proof. intros H. unfold isDigit. now rewrite digitVal_digitChar. Qed.

(** Reading the digits that [decDigits] prints gives the number back. *)
Lemma digitsFrom_decDigits fuel :
  forall n acc, (0 <= n < 2 ^ Z.of_nat fuel)%Z ->
    digitsFrom 10 0 (decDigits fuel n acc) = digitsFrom 10 n acc.
Proof.
  induction fuel as [|f IH]; intros n acc Hn.
  - simpl in *. assert (n = 0%Z) by lia. now subst.
  - cbn [decDigits]. rewrite Nat2Z.inj_succ, Z.pow_succ_r in Hn by lia.
    assert (Hm : (0 <= n mod 10 < 10)%Z) by (apply Z.mod_pos_bound; lia).
    destruct (n <? 10)%Z eqn:L.
    + apply Z.ltb_lt in L. cbn [digitsFrom]. rewrite digitVal_digitChar by exact Hm.
      rewrite Z.mod_small by lia. reflexivity.
    + apply Z.ltb_ge in L. rewrite IH.
      * cbn [digitsFrom]. rewrite digitVal_digitChar by exact Hm.
        f_equal. pose proof (Z.div_mod n 10). lia.
      * split; [apply Z.div_pos; lia|]. apply Z.div_lt_upper_bound; lia.
Qed.

Lemma allDigits_decDigits fuel :
  forall n acc, (0 <= n)%Z -> allDigits 10 acc = true ->
    allDigits 10 (decDigits fuel n acc) = true.
Proof.
  induction fuel as [|f IH]; intros n acc Hn Hacc; [exact Hacc|].
  cbn [decDigits].
  assert (Hm : (0 <= n mod 10 < 10)%Z) by (apply Z.mod_pos_bound; lia).
  assert (A : allDigits 10 (String (digitChar (n mod 10)) acc) = true)
    by (cbn [allDigits]; now rewrite isDigit_digitChar).
  destruct (n <? 10)%Z; [exact A|].
  apply IH; [apply Z.div_pos; lia | exact A].
Qed.

Lemma decDigits_nonempty fuel n acc : decDigits (S fuel) n acc <> "".
Proof.
  revert n acc. induction fuel as [|f IH]; intros n acc.
  - cbn [decDigits]. now destruct (n <? 10)%Z.
  - change (decDigits (S (S f)) n acc)
      with (if (n <? 10)%Z then String (digitChar (n mod 10)) acc
            else decDigits (S f) (n / 10) (String (digitChar (n mod 10)) acc)).
    destruct (n <? 10)%Z; [discriminate | apply IH].
Qed.

Lemma decimal_fuel n : (0 <= n)%Z -> (0 <= n < 2 ^ Z.of_nat (S (Z.to_nat (Z.log2 n))))%Z.
Proof.
  intros H. split; [exact H|].
  rewrite Nat2Z.inj_succ, Z2Nat.id by apply Z.log2_nonneg.
  destruct (Z.eq_dec n 0) as [->|Hn]; [reflexivity|].
  apply Z.log2_spec. lia.
Qed.

Lemma digitsFrom_decimal n : (0 <= n)%Z -> digitsFrom 10 0 (decimal n) = (n, "").
Proof.
  intros H. unfold decimal. rewrite digitsFrom_decDigits by now apply decimal_fuel.
  reflexivity.
Qed.

Lemma allDigits_decimal n : (0 <= n)%Z -> allDigits 10 (decimal n) = true.
Proof. intros H. unfold decimal. now apply allDigits_decDigits. Qed.

Lemma decimal_nonempty n : decimal n <> "".
Proof. apply decDigits_nonempty. Qed.

(** ** Strings of decimal digits *)

Lemma digits_trimStart s : startsWithDigit 10 s = true -> trimStart s = s.
Proof.
  destruct s as [|c r]; [reflexivity|]. cbn [startsWithDigit trimStart]. intros H.
  now destruct (digit_char_facts c H) as (-> & _).
Qed.

Lemma digits_stripSign s : startsWithDigit 10 s = true -> stripSign s = (false, s).
Proof.
  destruct s as [|c r]; [reflexivity|]. cbn [startsWithDigit stripSign]. intros H.
  now destruct (digit_char_facts c H) as (_ & -> & -> & _).
Qed.

Lemma digits_stripPrefix s : allDigits 10 s = true -> stripPrefix s = (10%Z, s).
Proof.
  destruct s as [|c [|x r]]; try reflexivity. cbn [allDigits stripPrefix]. intros H.
  apply andb_true_iff in H. destruct H as (_ & H). apply andb_true_iff in H.
  destruct H as (H & _).
  destruct (digit_char_facts x H) as (_ & _ & _ & -> & -> & _).
  now rewrite andb_false_r.
Qed.

Lemma allDigits_starts s : s <> "" -> allDigits 10 s = true -> startsWithDigit 10 s = true.
Proof.
  destruct s as [|c r]; [congruence|]. cbn [allDigits startsWithDigit]. intros _ H.
  now apply andb_true_iff in H.
Qed.

(** [parseInt] reads an unsigned run of decimal digits as its value... *)
Lemma parseIntString_digits s :
  s <> "" -> allDigits 10 s = true ->
  parseIntString s = Some (fst (digitsFrom 10 0 s)).
Proof.
  intros Hne Hd. pose proof (allDigits_starts s Hne Hd) as Hs.
  unfold parseIntString. rewrite digits_trimStart, digits_stripSign by exact Hs.
  rewrite digits_stripPrefix by exact Hd. now rewrite Hs.
Qed.

(** ... and the same run after a minus sign as the opposite. *)
Lemma parseIntString_minus_digits s :
  s <> "" -> allDigits 10 s = true ->
  parseIntString (String "-" s) = Some (- fst (digitsFrom 10 0 s))%Z.
Proof.
  intros Hne Hd. pose proof (allDigits_starts s Hne Hd) as Hs.
  unfold parseIntString. cbn [trimStart]. change (isWhiteSpace "-") with false.
  cbn iota. cbn [stripSign]. change ("-" =? "-")%char with true. cbn iota.
  rewrite digits_stripPrefix by exact Hd. now rewrite Hs.
Qed.

(** Below [10^21], [String(z)] is the sign and the decimal digits. *)
Lemma Number_toString_small z :
  (Z.abs z < 10 ^ 21)%Z ->
  Number_toString z = if (z <? 0)%Z then String "-" (decimal (Z.abs z)) else decimal (Z.abs z).
Proof.
  intros H. unfold Number_toString. apply Z.ltb_lt in H. rewrite H.
  now destruct (z <? 0)%Z.
Qed.

(** [parseInt(String(z))] is [z] below [10^21]. *)
Lemma parseInt_VNum z : (Z.abs z < 10 ^ 21)%Z -> parseInt (VNum z) = Some z.
Proof.
  intros H. unfold parseInt. cbn [ToString]. rewrite Number_toString_small by exact H.
  assert (Ha : (0 <= Z.abs z)%Z) by lia.
  destruct (z <? 0)%Z eqn:L.
  - apply Z.ltb_lt in L.
    rewrite parseIntString_minus_digits
      by (apply decimal_nonempty || now apply allDigits_decimal).
    rewrite digitsFrom_decimal by exact Ha. cbn [fst]. f_equal. lia.
  - apply Z.ltb_ge in L.
    rewrite parseIntString_digits
      by (apply decimal_nonempty || now apply allDigits_decimal).
    rewrite digitsFrom_decimal by exact Ha. cbn [fst]. f_equal. lia.
Qed.

Lemma coerceInt_VNum z : (Z.abs z < 10 ^ 21)%Z -> coerceInt (VNum z) = z.
Proof.
  intros H. unfold coerceInt, or. cbn [truthy].
  destruct (z =? 0)%Z eqn:E; cbn [negb].
  - apply Z.eqb_eq in E. subst z. reflexivity.
  - now rewrite parseInt_VNum.
Qed.

(** A value that is not truthy coerces to zero. *)
Lemma coerceInt_falsy v : truthy v = false -> coerceInt v = 0%Z.
Proof. intros H. unfold coerceInt, or. now rewrite H. Qed.

(** A value on which [parseInt] gives [NaN] coerces to zero. *)
Lemma coerceInt_NaN v : parseInt v = None -> coerceInt v = 0%Z.
Proof.
  intros H. unfold coerceInt, or. destruct (truthy v); [now rewrite H | reflexivity].
Qed.

(** A value on which [parseInt] gives an integer coerces to it. *)
Lemma coerceInt_parsed v n : parseInt v = Some n -> coerceInt v = n.
Proof.
  intros H. unfold coerceInt, or. destruct (truthy v) eqn:T; [now rewrite H|].
  destruct v as [| [] | z | s]; try discriminate.
  - cbn [truthy] in T. apply negb_false_iff, Z.eqb_eq in T. subst z.
    vm_compute in H. now injection H as <-.
  - cbn [truthy] in T. apply negb_false_iff, String.eqb_eq in T. subst s.
    discriminate.
Qed.

(** ** [Number] and [parseInt] on plain decimal integers *)

Lemma digits_trimEnd s : allDigits 10 s = true -> trimEnd s = s.
Proof.
  induction s as [|c r IH]; [reflexivity|]. cbn [allDigits trimEnd]. intros H.
  apply andb_true_iff in H. destruct H as (Hc & Hr). rewrite (IH Hr).
  destruct r; [|reflexivity].
  now destruct (digit_char_facts c Hc) as (-> & _).
Qed.

Lemma digitsFrom_allDigits s : forall a,
  allDigits 10 s = true -> snd (digitsFrom 10 a s) = "".
Proof.
  induction s as [|c r IH]; intros a; [reflexivity|]. cbn [allDigits digitsFrom].
  unfold isDigit. destruct (digitVal 10 c); [|discriminate]. cbn [andb]. apply IH.
Qed.

Lemma digits_radixPrefix s : allDigits 10 s = true -> radixPrefix s = None.
Proof.
  destruct s as [|c [|x r]]; try reflexivity. cbn [allDigits radixPrefix]. intros H.
  apply andb_true_iff in H. destruct H as (_ & H). apply andb_true_iff in H.
  destruct H as (H & _).
  destruct (digit_char_facts x H) as (_ & _ & _ & -> & -> & -> & -> & -> & -> & _).
  now destruct (c =? "0")%char.
Qed.

Lemma digits_not_Infinity s : startsWithDigit 10 s = true -> (s =? "Infinity") = false.
Proof.
  destruct s as [|c r]; [reflexivity|]. cbn [startsWithDigit]. intros H.
  destruct (digit_char_facts c H) as (_ & _ & _ & _ & _ & _ & _ & _ & _ & _ & _ & _ & E).
  cbn [String.eqb]. now rewrite E.
Qed.

Lemma decimalLiteral_digits s :
  s <> "" -> allDigits 10 s = true ->
  decimalLiteral s = Int (fst (digitsFrom 10 0 s)).
Proof.
  intros Hne Hd. unfold decimalLiteral.
  pose proof (digitsFrom_allDigits s 0%Z Hd) as R.
  destruct (digitsFrom 10 0 s) as [ip r1]. cbn [snd fst] in *. subst r1.
  cbn [String.length]. rewrite Nat.sub_0_r, Nat.add_0_r.
  destruct s as [|c r]; [congruence|]. cbn [String.length Nat.eqb exponentPart].
  unfold scale. cbn. f_equal. lia.
Qed.

Lemma StringToNumber_digits s :
  s <> "" -> allDigits 10 s = true ->
  StringToNumber s = Int (fst (digitsFrom 10 0 s)).
Proof.
  intros Hne Hd. pose proof (allDigits_starts s Hne Hd) as Hs.
  unfold StringToNumber, trim. rewrite digits_trimStart, digits_trimEnd by assumption.
  apply String.eqb_neq in Hne. rewrite Hne, digits_radixPrefix by exact Hd.
  rewrite digits_stripSign, digits_not_Infinity by exact Hs.
  apply String.eqb_neq in Hne. now rewrite decimalLiteral_digits.
Qed.

Lemma StringToNumber_minus_digits s :
  s <> "" -> allDigits 10 s = true ->
  StringToNumber (String "-" s) = Int (- fst (digitsFrom 10 0 s)).
Proof.
  intros Hne Hd. pose proof (allDigits_starts s Hne Hd) as Hs.
  unfold StringToNumber, trim. cbn [trimStart]. change (isWhiteSpace "-") with false.
  cbn iota. cbn [trimEnd]. rewrite digits_trimEnd by exact Hd.
  destruct s as [|c r]; [congruence|].
  change (String "-" (String c r) =? "") with false. cbn iota.
  assert (P : radixPrefix (String "-" (String c r)) = None) by reflexivity.
  rewrite P. cbn [stripSign]. change ("-" =? "-")%char with true. cbn iota.
  rewrite digits_not_Infinity by exact Hs.
  now rewrite decimalLiteral_digits.
Qed.

(** On a plain integer, [Number(s)] is the integer [parseInt(s)]. *)
Lemma plainInteger_agree s :
  plainInteger s = true ->
  exists n, parseIntString s = Some n /\ StringToNumber s = Int n.
Proof.
  destruct s as [|c r]; [discriminate|]. cbn [plainInteger].
  destruct (c =? "-")%char eqn:E.
  - apply Ascii.eqb_eq in E. subst c. intros H. apply andb_true_iff in H.
    destruct H as (Hne & Hd). apply negb_true_iff, String.eqb_neq in Hne.
    eexists. split; [now apply parseIntString_minus_digits
                    | now apply StringToNumber_minus_digits].
  - intros Hd. eexists.
    split; [apply parseIntString_digits | apply StringToNumber_digits];
      (discriminate || exact Hd).
Qed.

(** ** Cells on which the two files read the same name and the same [F] *)

Lemma coerceF_agree f : plainCounter f = true -> Part000.coerceF f = IndexJs.coerceF f.
Proof.
  unfold Part000.coerceF, IndexJs.coerceF.
  destruct f as [| [] | z | s]; cbn [plainCounter negb]; intros H; try discriminate;
    try reflexivity.
  - apply Z.ltb_lt in H. rewrite coerceInt_VNum by exact H.
    unfold or. cbn [truthy]. destruct (z =? 0)%Z eqn:E; cbn [negb Number]; [|reflexivity].
    apply Z.eqb_eq in E. now subst.
  - destruct (s =? "") eqn:E.
    + apply String.eqb_eq in E. subst s. reflexivity.
    + cbn [orb] in H. destruct (plainInteger_agree s H) as (n & Hp & Hn).
      unfold coerceInt, or. cbn [truthy]. rewrite E. cbn [negb Number].
      unfold parseInt. cbn [ToString]. now rewrite Hp, Hn.
Qed.

Lemma nameOf_agree b : textOrEmpty b = true -> Part000.nameOf b = IndexJs.nameOf b.
Proof.
  unfold Part000.nameOf, IndexJs.nameOf, or.
  destruct b as [| [] | z | s]; cbn [textOrEmpty truthy negb]; intros H;
    try discriminate; try reflexivity.
  - destruct (z =? 0)%Z; [reflexivity | discriminate].
  - destruct (negb (s =? "")); reflexivity.
Qed.

Lemma IndexJs_nameOf_undefined : IndexJs.nameOf VUndef = Ok "".
Proof. reflexivity. Qed.

Lemma Part000_nameOf_undefined : Part000.nameOf VUndef = Ok "".
Proof. reflexivity. Qed.

(* ================================================================== *)
(** * The two files *)

Lemma IndexJs_resetCol_not_F : IndexJs.resetCol <> COL.F.
Proof. discriminate. Qed.

Lemma Part000_resetCol_not_F : Part000.resetCol <> COL.F.
Proof. discriminate. Qed.

(** The staging of [index.js] always completes. *)
Lemma IndexJs_stage_total sheetName topValues bottomValues s :
  exists st, IndexJs.stage sheetName topValues bottomValues s = Ok st.
Proof.
  apply stage_total; [now exists "" | intros row _; eexists; reflexivity].
Qed.

(** The staging of [part_000] completes when every name cell is a string or
    is not truthy. *)
Lemma Part000_stage_total sheetName topValues bottomValues s :
  (forall row, In row (topValues ++ bottomValues) -> textOrEmpty (cellOf row COL.B) = true) ->
  exists st, Part000.stage sheetName topValues bottomValues s = Ok st.
Proof.
  intros H. apply stage_total; [now exists ""|].
  intros row Hrow. rewrite nameOf_agree by auto. eexists; reflexivity.
Qed.

(** In [part_000] the loop over the rows 7 to 10 stages, for each of these
    rows that has a name, exactly one write, of 0 to column [G], and nothing
    else. *)
Lemma Part000_reset_loop sheetName topValues st st' :
  forEach (resetBody Part000.nameOf Part000.resetCol sheetName topValues) [7; 8; 9; 10] st
    = Ok st' ->
  exists emitted,
    updates st' = updates st ++ emitted /\
    (forall r n, 7 <= r <= 10 ->
       Part000.nameOf (cellOf (rowOf topValues (r - 7)) COL.B) = Ok n -> n <> "" ->
       filter (fun u => (ref_row (range u) =? r)%nat) emitted
       = [Update (Cell sheetName COL.G r) [[Int 0]]]) /\
    (forall u, In u emitted ->
       exists r, 7 <= r <= 10 /\ u = Update (Cell sheetName COL.G r) [[Int 0]]).
Proof.
  intros H. destruct (reset_loop_writes _ _ _ _ _ _ H) as (emitted & U & One & All).
  exists emitted. split; [exact U|]. split.
  - intros r n Hr Hn Hne. apply One; [exact Hr|].
    now rewrite (nameCell_Ok _ _ _ Hn).
  - intros u Hu. destruct (All u Hu) as (r & Hr & _ & ->). eauto.
Qed.

(** In [part_000] row 7 is never incremented and, when named, has [D], [E]
    and [G] reset. *)
Lemma Part000_row7 sheetName topValues bottomValues s st n :
  Part000.stage sheetName topValues bottomValues s = Ok st ->
  (forall u, In u (updates st) -> range u <> Cell sheetName COL.F 7) /\
  (Part000.nameOf (cellOf (rowOf topValues 0) COL.B) = Ok n -> n <> "" ->
   In (Update (Cell sheetName COL.D 7) [[Int 0]]) (updates st) /\
   In (Update (Cell sheetName COL.E 7) [[Int 0]]) (updates st) /\
   In (Update (Cell sheetName COL.G 7) [[Int 0]]) (updates st)).
Proof.
  intros H.
  destruct (row7_asymmetry _ _ _ Part000_resetCol_not_F Part000_nameOf_undefined
              _ _ _ _ _ H) as (NoF & Resets).
  split; [exact NoF|]. intros Hn Hne. apply Resets. now rewrite (nameCell_Ok _ _ _ Hn).
Qed.

(** In [index.js] row 7 is never incremented and, when named, has [D] and
    [E] reset. *)
Lemma IndexJs_row7 sheetName topValues bottomValues s st n :
  IndexJs.stage sheetName topValues bottomValues s = Ok st ->
  (forall u, In u (updates st) -> range u <> Cell sheetName COL.F 7) /\
  (IndexJs.nameOf (cellOf (rowOf topValues 0) COL.B) = Ok n -> n <> "" ->
   In (Update (Cell sheetName COL.D 7) [[Int 0]]) (updates st) /\
   In (Update (Cell sheetName COL.E 7) [[Int 0]]) (updates st)).
Proof.
  intros H.
  destruct (row7_asymmetry _ _ _ IndexJs_resetCol_not_F IndexJs_nameOf_undefined
              _ _ _ _ _ H) as (NoF & Resets).
  split; [exact NoF|]. intros Hn Hne.
  destruct Resets as (HD & HE & _); [now rewrite (nameCell_Ok _ _ _ Hn) | auto].
Qed.

(** In [index.js], for a named row of either block, the write of
    [coerceInt(F) + 1] to [F] is staged and the entry recorded exactly when
    neither flag of the row is checked. *)
Lemma IndexJs_increment_iff sheetName topValues bottomValues s :
  List.length topValues <= 7 ->
  exists st tops bottoms,
    IndexJs.stage sheetName topValues bottomValues s = Ok st /\
    topIncrements (summ st) = topIncrements s ++ tops /\
    bottomIncrements (summ st) = bottomIncrements s ++ bottoms /\
    (forall r n, 8 <= r <= 13 ->
       let row := rowOf topValues (r - 7) in
       IndexJs.nameOf (cellOf row COL.B) = Ok n -> n <> "" ->
       let fNew := Int (coerceInt (cellOf row COL.F) + 1) in
       (In (Update (Cell sheetName COL.F r) [[fNew]]) (updates st) /\
        In (Entry.Make sheetName r n (InfoF fNew)) tops)
       <-> (isChecked (cellOf row COL.J) = false /\
            isChecked (cellOf row COL.H) = false)) /\
    (forall r n, 19 <= r <= 40 ->
       let row := rowOf bottomValues (r - 19) in
       IndexJs.nameOf (cellOf row COL.B) = Ok n -> n <> "" ->
       let fNew := Int (coerceInt (cellOf row COL.F) + 1) in
       (In (Update (Cell sheetName COL.F r) [[fNew]]) (updates st) /\
        In (Entry.Make sheetName r n (InfoF fNew)) bottoms)
       <-> (isChecked (cellOf row COL.I) = false /\
            isChecked (cellOf row COL.G) = false)).
Proof.
  intros Hlen. destruct (IndexJs_stage_total sheetName topValues bottomValues s) as (st & Hst).
  destruct (increment_iff _ _ _ IndexJs_resetCol_not_F IndexJs_nameOf_undefined
              _ _ _ _ _ Hlen Hst) as (tops & bottoms & T & B & Top & Bottom).
  exists st, tops, bottoms. repeat (split; [assumption|]). split.
  - intros r n Hr row Hn Hne fNew. subst fNew row.
    specialize (Top r Hr). cbv zeta in Top.
    rewrite (nameCell_Ok _ _ _ Hn) in Top. apply Top. exact Hne.
  - intros r n Hr row Hn Hne fNew. subst fNew row.
    specialize (Bottom r Hr). cbv zeta in Bottom.
    rewrite (nameCell_Ok _ _ _ Hn) in Bottom. apply Bottom. exact Hne.
Qed.

(** In [part_000] the same holds with [Number(F || 0) + 1] for the new
    value. *)
Lemma Part000_increment_iff sheetName topValues bottomValues s st :
  List.length topValues <= 7 ->
  Part000.stage sheetName topValues bottomValues s = Ok st ->
  exists tops bottoms,
    topIncrements (summ st) = topIncrements s ++ tops /\
    bottomIncrements (summ st) = bottomIncrements s ++ bottoms /\
    (forall r n, 8 <= r <= 13 ->
       let row := rowOf topValues (r - 7) in
       Part000.nameOf (cellOf row COL.B) = Ok n -> n <> "" ->
       let fNew := plus (Number (or (cellOf row COL.F) (VNum 0))) 1 in
       (In (Update (Cell sheetName COL.F r) [[fNew]]) (updates st) /\
        In (Entry.Make sheetName r n (InfoF fNew)) tops)
       <-> (isChecked (cellOf row COL.J) = false /\
            isChecked (cellOf row COL.H) = false)) /\
    (forall r n, 19 <= r <= 40 ->
       let row := rowOf bottomValues (r - 19) in
       Part000.nameOf (cellOf row COL.B) = Ok n -> n <> "" ->
       let fNew := plus (Number (or (cellOf row COL.F) (VNum 0))) 1 in
       (In (Update (Cell sheetName COL.F r) [[fNew]]) (updates st) /\
        In (Entry.Make sheetName r n (InfoF fNew)) bottoms)
       <-> (isChecked (cellOf row COL.I) = false /\
            isChecked (cellOf row COL.G) = false)).
Proof.
  intros Hlen Hst.
  destruct (increment_iff _ _ _ Part000_resetCol_not_F Part000_nameOf_undefined
              _ _ _ _ _ Hlen Hst) as (tops & bottoms & T & B & Top & Bottom).
  exists tops, bottoms. repeat (split; [assumption|]). split.
  - intros r n Hr row Hn Hne fNew. subst fNew row.
    specialize (Top r Hr). cbv zeta in Top.
    rewrite (nameCell_Ok _ _ _ Hn) in Top. apply Top. exact Hne.
  - intros r n Hr row Hn Hne fNew. subst fNew row.
    specialize (Bottom r Hr). cbv zeta in Bottom.
    rewrite (nameCell_Ok _ _ _ Hn) in Bottom. apply Bottom. exact Hne.
Qed.

(** In [index.js] a counter cell that [parseInt] cannot read counts as 0:
    the increment stages the integer 1. *)
Lemma IndexJs_malformed_counter row :
  parseInt (or (cellOf row COL.F) (VNum 0)) = None ->
  fNewOf IndexJs.coerceF row = Int 1.
Proof.
  intros H. unfold fNewOf, IndexJs.coerceF, coerceInt. now rewrite H.
Qed.

(** In [index.js] every staged value is an integer. *)
Lemma IndexJs_stages_integers sheetName topValues bottomValues s st :
  IndexJs.stage sheetName topValues bottomValues s = Ok st ->
  forall u, In u (updates st) -> exists z, values u = [[Int z]].
Proof.
  intros H u Hu. apply stage_emits in H. destruct H as (U & _). rewrite U in Hu.
  apply in_stagedUpdates in Hu.
  destruct Hu as [? ? ? ? ? ->|? ? ? ? ? ? ->|? ? ? ->|? ? ? ? ? ->|? ? ? ? ->];
    cbn [values]; unfold fNewOf, IndexJs.coerceF; cbn [plus]; eauto.
Qed.

(** In [index.js], an eligible row whose [F] is not empty and not numeric
    has the integer 1 staged for [F]; the staging raises nothing. *)
Lemma IndexJs_malformed_counter_staged sheetName topValues bottomValues s :
  List.length topValues <= 7 ->
  exists st,
    IndexJs.stage sheetName topValues bottomValues s = Ok st /\
    (forall r n, 8 <= r <= 13 ->
       let row := rowOf topValues (r - 7) in
       IndexJs.nameOf (cellOf row COL.B) = Ok n -> n <> "" ->
       isChecked (cellOf row COL.J) = false -> isChecked (cellOf row COL.H) = false ->
       truthy (cellOf row COL.F) = true -> parseInt (cellOf row COL.F) = None ->
       In (Update (Cell sheetName COL.F r) [[Int 1]]) (updates st)) /\
    (forall r n, 19 <= r <= 40 ->
       let row := rowOf bottomValues (r - 19) in
       IndexJs.nameOf (cellOf row COL.B) = Ok n -> n <> "" ->
       isChecked (cellOf row COL.I) = false -> isChecked (cellOf row COL.G) = false ->
       truthy (cellOf row COL.F) = true -> parseInt (cellOf row COL.F) = None ->
       In (Update (Cell sheetName COL.F r) [[Int 1]]) (updates st)).
Proof.
  intros Hlen.
  destruct (IndexJs_increment_iff sheetName topValues bottomValues s Hlen)
    as (st & tops & bottoms & Hst & _ & _ & Top & Bottom).
  exists st. split; [exact Hst|]. split.
  - intros r n Hr row Hn Hne HJ HH _ HF.
    destruct (Top r n Hr Hn Hne) as (_ & Staged). destruct Staged as (Hu & _); [auto|].
    fold row in Hu. rewrite (coerceInt_NaN _ HF) in Hu. exact Hu.
  - intros r n Hr row Hn Hne HI HG _ HF.
    destruct (Bottom r n Hr Hn Hne) as (_ & Staged). destruct Staged as (Hu & _); [auto|].
    fold row in Hu. rewrite (coerceInt_NaN _ HF) in Hu. exact Hu.
Qed.

(* ================================================================== *)
(** * The scenarios of the specification *)

(** The checked predicate: [true], and the text [TRUE] in any case, are
    checked; an empty or missing cell, [false] and its text are not. *)
Example isChecked_examples :
  isChecked (VBool true) = true /\ isChecked (VStr "TRUE") = true /\
  isChecked (VStr "true") = true /\ isChecked (VStr "True") = true /\
  isChecked VUndef = false /\ isChecked (VStr "") = false /\
  isChecked (VBool false) = false /\ isChecked (VStr "false") = false /\
  isChecked (VStr "FALSE") = false /\ isChecked (VStr " TRUE") = false.
Proof. repeat split; reflexivity. Qed.

(** Scenario B: Cmdr in row 10 with both flags unchecked and 3 in [F], Off in
    row 13 with [J] checked.  [part_000] stages 4 for [F10], resets [D], [E]
    for both rows and [G] for row 10 only. *)
Example scenario_B :
  Part000.stage "TROOPER_COMPANY"
    [[]; []; [];
     [VStr ""; VStr "Cmdr"; VStr ""; VStr "6"; VStr "2"; VStr "3"; VStr "1";
      VStr "FALSE"; VStr ""; VStr "FALSE"];
     []; [];
     [VStr ""; VStr "Off"; VStr ""; VStr "1"; VStr "1"; VStr "0"; VStr "";
      VStr "FALSE"; VStr ""; VStr "TRUE"]]
    [] emptySummary
  = Ok (State [Update (Cell "TROOPER_COMPANY" COL.F 10) [[Int 4]];
               Update (Cell "TROOPER_COMPANY" COL.D 10) [[Int 0]];
               Update (Cell "TROOPER_COMPANY" COL.E 10) [[Int 0]];
               Update (Cell "TROOPER_COMPANY" COL.D 13) [[Int 0]];
               Update (Cell "TROOPER_COMPANY" COL.E 13) [[Int 0]];
               Update (Cell "TROOPER_COMPANY" COL.G 10) [[Int 0]]]
              (Summary [Entry.Make "TROOPER_COMPANY" 10 "Cmdr" (InfoF (Int 4))] [] [])).
Proof. reflexivity. Qed.

(** Scenario C: Trp1 in row 25 with [I] checked: no increment, [D] reset. *)
Example scenario_C :
  IndexJs.stage "TROOPER_COMPANY" []
    [[]; []; []; []; []; [];
     [VStr ""; VStr "Trp1"; VStr ""; VStr "5"; VStr ""; VStr "2"; VStr "FALSE";
      VStr ""; VStr "TRUE"]]
    emptySummary
  = Ok (State [Update (Cell "TROOPER_COMPANY" COL.D 25) [[Int 0]]] emptySummary).
Proof. reflexivity. Qed.

(** Scenario A: [add] of 5 to [Alice, Bob] where row 3 of the first sheet is
    Alice with 10 and 2: one batch, writing 15 and 7; Bob is nowhere. *)
Example scenario_A :
  handleAdd (fun r => if rg_sheet r =? "TROOPER_COMPANY" then aliceInRow3 else [])
            (VStr "Alice, Bob") 5 []
  = (Ok [Entry.Make "TROOPER_COMPANY" 3 "Alice" (InfoTotalWeekly 15 7)],
     [ValuesGet (Range "TROOPER_COMPANY" COL.A 1 COL.D 100);
      ValuesBatchUpdate [Update (Cell "TROOPER_COMPANY" COL.C 3) [[Int 15]];
                         Update (Cell "TROOPER_COMPANY" COL.D 3) [[Int 7]]];
      ValuesGet (Range "TITAN_COMPANY" COL.A 1 COL.D 100);
      ValuesGet (Range "META_SQUAD" COL.A 1 COL.D 100);
      ValuesGet (Range "VANGUARD_COMPANY" COL.A 1 COL.D 100)]).
Proof. reflexivity. Qed.

(* ================================================================== *)
(** * The claims about the staging of [handleQuotaCheck] *)

(** C1, on [src/index.js]: with Alice in row 7, the loop over the rows 7 to
    10 stages one write, and it resets column [B] of row 7 (the name), not
    column [G]; on the same grid the loop of [part_000] stages the reset of
    [G]. *)
Theorem quotacheck_index_js_reset_loop_erases_name :
  forEach (resetBody IndexJs.nameOf IndexJs.resetCol "TROOPER_COMPANY" aliceInRow7)
          [7; 8; 9; 10] (State [] emptySummary)
  = Ok (State [Update (Cell "TROOPER_COMPANY" COL.B 7) [[Int 0]]] emptySummary)
  /\
  forEach (resetBody Part000.nameOf Part000.resetCol "TROOPER_COMPANY" aliceInRow7)
          [7; 8; 9; 10] (State [] emptySummary)
  = Ok (State [Update (Cell "TROOPER_COMPANY" COL.G 7) [[Int 0]]] emptySummary).
Proof. split; reflexivity. Qed.

(** C2, on [src/index.js]: with Alice in row 7 and both flags unchecked, no
    write to [F] is staged and [D] and [E] are reset, but the third reset
    goes to [B7] and none to [G7]; [part_000] stages [D7], [E7] and [G7]. *)
Theorem quotacheck_index_js_row7_not_reset_G :
  IndexJs.stage "TROOPER_COMPANY" aliceInRow7 [] emptySummary
  = Ok (State [Update (Cell "TROOPER_COMPANY" COL.D 7) [[Int 0]];
               Update (Cell "TROOPER_COMPANY" COL.E 7) [[Int 0]];
               Update (Cell "TROOPER_COMPANY" COL.B 7) [[Int 0]]] emptySummary)
  /\
  Part000.stage "TROOPER_COMPANY" aliceInRow7 [] emptySummary
  = Ok (State [Update (Cell "TROOPER_COMPANY" COL.D 7) [[Int 0]];
               Update (Cell "TROOPER_COMPANY" COL.E 7) [[Int 0]];
               Update (Cell "TROOPER_COMPANY" COL.G 7) [[Int 0]]] emptySummary).
Proof. split; reflexivity. Qed.

(** C3, on [src/unnamed/part_000]: with Bob in row 8, both flags unchecked
    and [F] holding [abc], [coerceInt(F) + 1] is 1, but the write staged to
    [F8] and the entry recorded carry [NaN]; [index.js] stages 1. *)
Theorem quotacheck_part_000_top_increment_not_coerced :
  (coerceInt (cellOf (rowOf bobInRow8 1) COL.F) + 1 = 1)%Z /\
  isChecked (cellOf (rowOf bobInRow8 1) COL.J) = false /\
  isChecked (cellOf (rowOf bobInRow8 1) COL.H) = false /\
  Part000.stage "TITAN_COMPANY" bobInRow8 [] emptySummary
  = Ok (State [Update (Cell "TITAN_COMPANY" COL.F 8) [[NaN]];
               Update (Cell "TITAN_COMPANY" COL.D 8) [[Int 0]];
               Update (Cell "TITAN_COMPANY" COL.E 8) [[Int 0]];
               Update (Cell "TITAN_COMPANY" COL.G 8) [[Int 0]]]
              (Summary [Entry.Make "TITAN_COMPANY" 8 "Bob" (InfoF NaN)] [] []))
  /\
  IndexJs.stage "TITAN_COMPANY" bobInRow8 [] emptySummary
  = Ok (State [Update (Cell "TITAN_COMPANY" COL.F 8) [[Int 1]];
               Update (Cell "TITAN_COMPANY" COL.D 8) [[Int 0]];
               Update (Cell "TITAN_COMPANY" COL.E 8) [[Int 0]];
               Update (Cell "TITAN_COMPANY" COL.B 8) [[Int 0]]]
              (Summary [Entry.Make "TITAN_COMPANY" 8 "Bob" (InfoF (Int 1))] [] [])).
Proof. repeat split; reflexivity. Qed.

(** C5, on [src/unnamed/part_000]: with Trp1 in row 19, both flags
    unchecked and [F] holding [n/a], the value staged for [F19] is [NaN],
    not the integer 1; [index.js] stages 1. *)
Theorem quotacheck_part_000_malformed_counter_stages_NaN :
  truthy (cellOf (rowOf trooperInRow19 0) COL.F) = true /\
  parseInt (cellOf (rowOf trooperInRow19 0) COL.F) = None /\
  Part000.stage "META_SQUAD" [] trooperInRow19 emptySummary
  = Ok (State [Update (Cell "META_SQUAD" COL.F 19) [[NaN]];
               Update (Cell "META_SQUAD" COL.D 19) [[Int 0]]]
              (Summary [] [Entry.Make "META_SQUAD" 19 "Trp1" (InfoF NaN)] []))
  /\
  IndexJs.stage "META_SQUAD" [] trooperInRow19 emptySummary
  = Ok (State [Update (Cell "META_SQUAD" COL.F 19) [[Int 1]];
               Update (Cell "META_SQUAD" COL.D 19) [[Int 0]]]
              (Summary [] [Entry.Make "META_SQUAD" 19 "Trp1" (InfoF (Int 1))] [])).
Proof. repeat split; reflexivity. Qed.

Lemma unnamed_untouched nameOf coerceF resetCol sheetName topValues bottomValues s st r :
  List.length topValues <= 7 ->
  unnamed nameOf topValues bottomValues r ->
  stage nameOf coerceF resetCol sheetName topValues bottomValues s = Ok st ->
  untouched s st r.
Proof.
  intros Hlen Hr Hst.
  destruct (empty_rows_inert _ _ _ _ _ _ _ _ Hlen Hst) as (tops & bottoms & T & B & H).
  assert (Hr' : (7 <= r <= 13 /\ nameCell nameOf (rowOf topValues (r - 7)) = "") \/
                (19 <= r <= 40 /\ nameCell nameOf (rowOf bottomValues (r - 19)) = "")).
  { destruct Hr as [(R & E)|(R & E)]; [left|right]; (split; [exact R|]);
      now apply nameCell_Ok. }
  destruct (H r Hr') as (HU & HT & HB).
  split; [exact HU|]. exists tops, bottoms. auto.
Qed.

(** C4: in a top block of at most 7 rows and in the bottom block, a row
    whose name cell is empty after trimming gets no write of any kind and no
    summary entry, in [index.js] (whose staging always completes) and in
    [part_000] (whenever its staging completes). *)
Theorem quotacheck_unnamed_rows_inert sheetName topValues bottomValues s r :
  List.length topValues <= 7 ->
  (unnamed IndexJs.nameOf topValues bottomValues r ->
   exists st, IndexJs.stage sheetName topValues bottomValues s = Ok st /\
              untouched s st r) /\
  (unnamed Part000.nameOf topValues bottomValues r ->
   forall st, Part000.stage sheetName topValues bottomValues s = Ok st ->
              untouched s st r).
Proof.
  intros Hlen. split.
  - intros Hr. destruct (IndexJs_stage_total sheetName topValues bottomValues s) as (st & Hst).
    exists st. split; [exact Hst|]. eapply unnamed_untouched; eauto.
  - intros Hr st Hst. eapply unnamed_untouched; eauto.
Qed.

Lemma quotacheck_unnamed_rows_inert_witness :
  List.length blankRow7 <= 7 /\
  unnamed IndexJs.nameOf blankRow7 [] 7 /\
  unnamed Part000.nameOf blankRow7 [] 7 /\
  (exists st, IndexJs.stage "TROOPER_COMPANY" blankRow7 [] emptySummary = Ok st /\
              untouched emptySummary st 7) /\
  (exists st, Part000.stage "TROOPER_COMPANY" blankRow7 [] emptySummary = Ok st /\
              untouched emptySummary st 7).
Proof.
  assert (L : List.length blankRow7 <= 7) by (simpl; lia).
  assert (UI : unnamed IndexJs.nameOf blankRow7 [] 7)
    by (left; split; [lia | reflexivity]).
  assert (UP : unnamed Part000.nameOf blankRow7 [] 7)
    by (left; split; [lia | reflexivity]).
  destruct (quotacheck_unnamed_rows_inert "TROOPER_COMPANY" blankRow7 [] emptySummary 7 L)
    as (HI & HP).
  repeat split; try assumption.
  - exact (HI UI).
  - eexists. split; [reflexivity|]. apply HP; [exact UP | reflexivity].
Defined.

(* ================================================================== *)
(** * The claims about the remote calls *)

Lemma processed_ext {X : Type} (ok ok' : X -> bool) xs :
  (forall x, ok x = ok' x) -> processed ok xs = processed ok' xs.
Proof.
  intros H. induction xs as [|x rest IH]; [reflexivity|].
  cbn [processed]. now rewrite H, IH.
Qed.

Lemma processed_true {X : Type} (xs : list X) : processed (fun _ => true) xs = xs.
Proof. induction xs as [|x rest IH]; [reflexivity|]. cbn [processed]. now rewrite IH. Qed.

(** What a completed staging leaves is [stagedFor]; a staging that raises
    leaves nothing. *)
Lemma stagedBy_stage answer nameOf coerceF resetCol sheetName s :
  stagedBy (stage nameOf coerceF resetCol sheetName
              (answer (topRange sheetName)) (answer (bottomRange sheetName)) s)
  = if quotaOk answer nameOf sheetName
    then stagedFor answer nameOf coerceF resetCol sheetName else [].
Proof.
  unfold quotaOk. rewrite <- (stage_isOk nameOf coerceF resetCol sheetName _ _ s).
  destruct (stage nameOf coerceF resetCol sheetName (answer (topRange sheetName))
              (answer (bottomRange sheetName)) s) as [st|e] eqn:E; cbn [isOk stagedBy];
    [|reflexivity].
  apply stage_emits in E. now destruct E as (-> & _).
Qed.

Lemma quotaOk_stage answer nameOf coerceF resetCol sheetName s :
  quotaOk answer nameOf sheetName
  = isOk (stage nameOf coerceF resetCol sheetName
            (answer (topRange sheetName)) (answer (bottomRange sheetName)) s).
Proof. unfold quotaOk. now rewrite stage_isOk. Qed.

(** The write calls of a [handleQuotaCheck] for a sheet, in terms of the
    staging of the sheets. *)
Lemma quota_writeCalls answer nameOf coerceF resetCol sheetName :
  let staging x :=
    stage nameOf coerceF resetCol x (answer (topRange x)) (answer (bottomRange x))
          emptySummary in
  writeCalls sheetName (snd (handleQuotaCheck answer nameOf coerceF resetCol []))
  = if in_dec string_dec sheetName (processed (fun x => isOk (staging x)) SHEETS)
    then oneIfAny (stagedBy (staging sheetName)) else 0.
Proof.
  cbv zeta. rewrite handleQuotaCheck_writeCalls.
  rewrite (processed_ext (quotaOk answer nameOf) _ SHEETS
             (fun x => quotaOk_stage answer nameOf coerceF resetCol x emptySummary)).
  destruct (in_dec _ _ _); [|reflexivity].
  rewrite stagedBy_stage. now destruct (quotaOk answer nameOf sheetName).
Qed.

Lemma IndexJs_quotaOk answer sheetName : quotaOk answer IndexJs.nameOf sheetName = true.
Proof.
  rewrite (quotaOk_stage answer IndexJs.nameOf IndexJs.coerceF IndexJs.resetCol
             sheetName emptySummary).
  destruct (IndexJs_stage_total sheetName (answer (topRange sheetName))
              (answer (bottomRange sheetName)) emptySummary) as (st & E).
  unfold IndexJs.stage in E. now rewrite E.
Qed.

Lemma in_dec_SHEETS (sheetName : string) (X : Type) (a b : X) :
  In sheetName SHEETS -> (if in_dec string_dec sheetName SHEETS then a else b) = a.
Proof. intros H. now destruct (in_dec string_dec sheetName SHEETS). Qed.

(** ** Every batch call of an invocation *)

Lemma batches_app l1 l2 : batches (l1 ++ l2) = batches l1 ++ batches l2.
Proof. unfold batches. apply flat_map_app. Qed.

Lemma batches_batchOf updates : batches (batchOf updates) = filter anyStaged [updates].
Proof. now destruct updates. Qed.

Lemma batches_wordCalls r updates :
  batches (wordCalls r updates) = filter anyStaged [updates].
Proof. unfold wordCalls. rewrite batches_app. apply batches_batchOf. Qed.

Lemma batches_quotaCalls answer nameOf coerceF resetCol x :
  batches (quotaCalls answer nameOf coerceF resetCol x)
  = filter anyStaged
      [stagedBy (stage nameOf coerceF resetCol x (answer (topRange x))
                   (answer (bottomRange x)) emptySummary)].
Proof.
  rewrite stagedBy_stage. unfold quotaCalls, quotaOk.
  destruct (topOk nameOf (answer (topRange x))); [|reflexivity].
  destruct (namesOk nameOf (answer (bottomRange x))); [|reflexivity].
  cbn [app andb]. change (batches (ValuesGet (topRange x) :: ValuesGet (bottomRange x)
                                     :: batchOf (stagedFor answer nameOf coerceF resetCol x)))
    with (batches (batchOf (stagedFor answer nameOf coerceF resetCol x))).
  apply batches_batchOf.
Qed.

(** A sheet loop over [SHEETS] whose iteration for a sheet sends the batch of
    what it staged, if anything, and no other batch: the batches of the
    invocation are the non-empty staged lists of the sheets it goes
    through, in order. *)
Lemma sheetLoop_batches {S : Type} (body : string -> S -> M S)
    (seg : string -> list call) (ok : string -> bool) (staged : string -> list update) :
  (forall x st log, snd (body x st log) = log ++ seg x /\
                    isOk (fst (body x st log)) = ok x) ->
  (forall x, batches (seg x) = filter anyStaged [staged x]) ->
  forall st,
    batches (snd (forEachM body SHEETS st []))
    = filter anyStaged (map staged (processed ok SHEETS)).
Proof.
  intros Hb Hseg st.
  destruct (forEachM_log body seg ok Hb SHEETS st []) as (-> & _). cbn [app].
  induction (processed ok SHEETS) as [|x rest IH]; [reflexivity|].
  cbn [flat_map map]. rewrite batches_app, Hseg, IH. cbn [filter].
  now destruct (anyStaged (staged x)).
Qed.

(** C8: [batchUpdate] makes no call for an empty list.  In one invocation
    of any of the four commands, the number of batch write calls issued for
    a configured sheet is 1 when something was staged for the sheet and 0
    when nothing was; and the batch calls of the invocation, empty ones
    included, are exactly the non-empty staged lists of the sheets, one call
    each, in the order of [SHEETS]: where nothing was staged no call is made
    at all, not even an empty one.  For the [handleQuotaCheck] of
    [part_000], which stops at a sheet whose staging raises, this is so for
    the sheets it reaches, and it issues no call for the others. *)
Theorem at_most_one_batch_per_sheet answer input amount :
  (forall log, batchUpdate [] log = (Ok tt, log)) /\
  Forall (fun sheetName =>
    writeCalls sheetName (snd (handleAdd answer input amount []))
    = oneIfAny (fst (stageAdd sheetName (answer (Range sheetName COL.A 1 COL.D 100))
                       amount (parseWords input) [])) /\
    writeCalls sheetName (snd (handleOfficerAdd answer input amount []))
    = oneIfAny (fst (stageOfficerAdd sheetName (answer (Range sheetName COL.A 7 COL.E 13))
                       amount (parseWords input) [])) /\
    writeCalls sheetName (snd (handleTryoutAdd answer input amount []))
    = oneIfAny (fst (stageTryoutAdd sheetName (answer (Range sheetName COL.A 7 COL.G 10))
                       amount (parseWords input) [])) /\
    writeCalls sheetName (snd (IndexJs_handleQuotaCheck answer []))
    = oneIfAny (stagedBy (IndexJs.stage sheetName (answer (topRange sheetName))
                            (answer (bottomRange sheetName)) emptySummary)) /\
    writeCalls sheetName (snd (Part000_handleQuotaCheck answer []))
    = (if in_dec string_dec sheetName
            (processed (fun x => isOk (Part000.stage x (answer (topRange x))
                                         (answer (bottomRange x)) emptySummary)) SHEETS)
       then oneIfAny (stagedBy (Part000.stage sheetName (answer (topRange sheetName))
                                  (answer (bottomRange sheetName)) emptySummary))
       else 0))
    SHEETS /\
  batches (snd (handleAdd answer input amount []))
  = filter anyStaged
      (map (fun x => fst (stageAdd x (answer (Range x COL.A 1 COL.D 100))
                            amount (parseWords input) [])) SHEETS) /\
  batches (snd (handleOfficerAdd answer input amount []))
  = filter anyStaged
      (map (fun x => fst (stageOfficerAdd x (answer (Range x COL.A 7 COL.E 13))
                            amount (parseWords input) [])) SHEETS) /\
  batches (snd (handleTryoutAdd answer input amount []))
  = filter anyStaged
      (map (fun x => fst (stageTryoutAdd x (answer (Range x COL.A 7 COL.G 10))
                            amount (parseWords input) [])) SHEETS) /\
  batches (snd (IndexJs_handleQuotaCheck answer []))
  = filter anyStaged
      (map (fun x => stagedBy (IndexJs.stage x (answer (topRange x))
                                 (answer (bottomRange x)) emptySummary)) SHEETS) /\
  batches (snd (Part000_handleQuotaCheck answer []))
  = filter anyStaged
      (map (fun x => stagedBy (Part000.stage x (answer (topRange x))
                                 (answer (bottomRange x)) emptySummary))
           (processed (fun x => isOk (Part000.stage x (answer (topRange x))
                                        (answer (bottomRange x)) emptySummary)) SHEETS)).
Proof.
  split; [reflexivity|]. split; [|split; [|split; [|split; [|split]]]].
  2:{ unfold handleAdd.
      rewrite (sheetLoop_batches (addSheet answer (parseWords input) amount)
                 (fun x => wordCalls (Range x COL.A 1 COL.D 100)
                             (fst (stageAdd x (answer (Range x COL.A 1 COL.D 100)) amount
                                     (parseWords input) [])))
                 (fun _ => true)
                 (fun x => fst (stageAdd x (answer (Range x COL.A 1 COL.D 100)) amount
                                  (parseWords input) []))).
      - now rewrite processed_true.
      - intros x st log. rewrite addSheet_run. cbn [fst snd isOk].
        now rewrite !stageAdd_updates.
      - intros x. apply batches_wordCalls. }
  2:{ unfold handleOfficerAdd.
      rewrite (sheetLoop_batches (officerAddSheet answer (parseWords input) amount)
                 (fun x => wordCalls (Range x COL.A 7 COL.E 13)
                             (fst (stageOfficerAdd x (answer (Range x COL.A 7 COL.E 13))
                                     amount (parseWords input) [])))
                 (fun _ => true)
                 (fun x => fst (stageOfficerAdd x (answer (Range x COL.A 7 COL.E 13)) amount
                                  (parseWords input) []))).
      - now rewrite processed_true.
      - intros x st log. rewrite officerAddSheet_run. cbn [fst snd isOk].
        now rewrite !stageOfficerAdd_updates.
      - intros x. apply batches_wordCalls. }
  2:{ unfold handleTryoutAdd.
      rewrite (sheetLoop_batches (tryoutAddSheet answer (parseWords input) amount)
                 (fun x => wordCalls (Range x COL.A 7 COL.G 10)
                             (fst (stageTryoutAdd x (answer (Range x COL.A 7 COL.G 10))
                                     amount (parseWords input) [])))
                 (fun _ => true)
                 (fun x => fst (stageTryoutAdd x (answer (Range x COL.A 7 COL.G 10)) amount
                                  (parseWords input) []))).
      - now rewrite processed_true.
      - intros x st log. rewrite tryoutAddSheet_run. cbn [fst snd isOk].
        now rewrite !stageTryoutAdd_updates.
      - intros x. apply batches_wordCalls. }
  2:{ unfold IndexJs_handleQuotaCheck, handleQuotaCheck.
      rewrite (sheetLoop_batches
                 (quotaSheet answer IndexJs.nameOf IndexJs.coerceF IndexJs.resetCol)
                 (quotaCalls answer IndexJs.nameOf IndexJs.coerceF IndexJs.resetCol)
                 (quotaOk answer IndexJs.nameOf)
                 (fun x => stagedBy (IndexJs.stage x (answer (topRange x))
                                       (answer (bottomRange x)) emptySummary))).
      - rewrite (processed_ext _ (fun _ => true) SHEETS) by (intros x; apply IndexJs_quotaOk).
        now rewrite processed_true.
      - intros x st log. apply quotaSheet_run.
      - intros x. apply batches_quotaCalls. }
  2:{ unfold Part000_handleQuotaCheck, handleQuotaCheck.
      rewrite (sheetLoop_batches
                 (quotaSheet answer Part000.nameOf Part000.coerceF Part000.resetCol)
                 (quotaCalls answer Part000.nameOf Part000.coerceF Part000.resetCol)
                 (quotaOk answer Part000.nameOf)
                 (fun x => stagedBy (Part000.stage x (answer (topRange x))
                                       (answer (bottomRange x)) emptySummary))).
      - now rewrite (processed_ext (quotaOk answer Part000.nameOf) _ SHEETS
                       (fun x => quotaOk_stage answer Part000.nameOf Part000.coerceF
                                   Part000.resetCol x emptySummary)).
      - intros x st log. apply quotaSheet_run.
      - intros x. apply batches_quotaCalls. }
  apply Forall_forall. intros sheetName Hin.
  split; [|split; [|split; [|split]]].
  - unfold handleAdd.
    rewrite (sheetLoop_writeCalls (addSheet answer (parseWords input) amount)
               (fun x => wordCalls (Range x COL.A 1 COL.D 100)
                           (fst (stageAdd x (answer (Range x COL.A 1 COL.D 100)) amount
                                   (parseWords input) [])))
               (fun _ => true)
               (fun x => oneIfAny (fst (stageAdd x (answer (Range x COL.A 1 COL.D 100))
                                          amount (parseWords input) [])))).
    + rewrite processed_true. now apply in_dec_SHEETS.
    + intros x st log. rewrite addSheet_run. cbn [fst snd isOk].
      now rewrite !stageAdd_updates.
    + intros x s. apply writeCalls_wordCalls. intros u. apply stageAdd_sheet.
  - unfold handleOfficerAdd.
    rewrite (sheetLoop_writeCalls (officerAddSheet answer (parseWords input) amount)
               (fun x => wordCalls (Range x COL.A 7 COL.E 13)
                           (fst (stageOfficerAdd x (answer (Range x COL.A 7 COL.E 13)) amount
                                   (parseWords input) [])))
               (fun _ => true)
               (fun x => oneIfAny (fst (stageOfficerAdd x (answer (Range x COL.A 7 COL.E 13))
                                          amount (parseWords input) [])))).
    + rewrite processed_true. now apply in_dec_SHEETS.
    + intros x st log. rewrite officerAddSheet_run. cbn [fst snd isOk].
      now rewrite !stageOfficerAdd_updates.
    + intros x s. apply writeCalls_wordCalls. intros u. apply stageOfficerAdd_sheet.
  - unfold handleTryoutAdd.
    rewrite (sheetLoop_writeCalls (tryoutAddSheet answer (parseWords input) amount)
               (fun x => wordCalls (Range x COL.A 7 COL.G 10)
                           (fst (stageTryoutAdd x (answer (Range x COL.A 7 COL.G 10)) amount
                                   (parseWords input) [])))
               (fun _ => true)
               (fun x => oneIfAny (fst (stageTryoutAdd x (answer (Range x COL.A 7 COL.G 10))
                                          amount (parseWords input) [])))).
    + rewrite processed_true. now apply in_dec_SHEETS.
    + intros x st log. rewrite tryoutAddSheet_run. cbn [fst snd isOk].
      now rewrite !stageTryoutAdd_updates.
    + intros x s. apply writeCalls_wordCalls. intros u. apply stageTryoutAdd_sheet.
  - unfold IndexJs_handleQuotaCheck.
    rewrite (quota_writeCalls answer IndexJs.nameOf IndexJs.coerceF IndexJs.resetCol sheetName).
    rewrite (processed_ext _ (fun _ => true) SHEETS).
    + rewrite processed_true. now apply in_dec_SHEETS.
    + intros x. rewrite <- (quotaOk_stage answer). apply IndexJs_quotaOk.
  - unfold Part000_handleQuotaCheck.
    apply (quota_writeCalls answer Part000.nameOf Part000.coerceF Part000.resetCol sheetName).
Qed.

(** A batch in the log of [handleQuotaCheck] is what one of the configured
    sheets staged. *)
Lemma quota_batch_origin answer nameOf coerceF resetCol data :
  In (ValuesBatchUpdate data) (snd (handleQuotaCheck answer nameOf coerceF resetCol [])) ->
  exists sheetName, In sheetName SHEETS /\
                    data = stagedFor answer nameOf coerceF resetCol sheetName.
Proof.
  rewrite handleQuotaCheck_log, in_flat_map. intros (x & Hx & H).
  exists x. split; [eapply processed_incl; exact Hx|].
  unfold quotaCalls in H. cbn [app] in H. destruct H as [H|H]; [discriminate|].
  destruct (topOk nameOf (answer (topRange x))); [|destruct H].
  cbn [app] in H. destruct H as [H|H]; [discriminate|].
  destruct (namesOk nameOf (answer (bottomRange x))); [|destruct H].
  unfold batchOf in H. destruct (stagedFor answer nameOf coerceF resetCol x) eqn:E;
    [destruct H|].
  destruct H as [H|[]]. now injection H as <-.
Qed.

(** C9: when the store answers the reads within their ranges, every update
    of every batch that a quotacheck invocation sends, in either file, is a
    single cell of a configured sheet, in rows 7 to 13 or 19 to 40. *)
Theorem quotacheck_writes_within_blocks answer data u :
  answersWithinRanges answer ->
  In (ValuesBatchUpdate data) (snd (IndexJs_handleQuotaCheck answer [])) \/
  In (ValuesBatchUpdate data) (snd (Part000_handleQuotaCheck answer [])) ->
  In u data ->
  In (ref_sheet (range u)) SHEETS /\
  (7 <= ref_row (range u) <= 13 \/ 19 <= ref_row (range u) <= 40) /\
  exists v, values u = [[v]].
Proof.
  intros Hans Hlog Hu.
  assert (H : exists nameOf coerceF resetCol sheetName,
             In sheetName SHEETS /\
             data = stagedFor answer nameOf coerceF resetCol sheetName).
  { destruct Hlog as [H|H]; apply quota_batch_origin in H;
      destruct H as (x & Hx & E); eauto 6. }
  destruct H as (nameOf & coerceF & resetCol & x & Hx & ->).
  destruct (Hans x Hx) as (Ht & Hb).
  destruct (stagedUpdates_in_blocks nameOf coerceF resetCol x _ _ Ht Hb u Hu)
    as (S & R & V).
  rewrite S. auto.
Qed.

Lemma quotacheck_writes_within_blocks_witness :
  answersWithinRanges sampleAnswer /\
  In (ref_sheet (range (Update (Cell "META_SQUAD" COL.F 19) [[NaN]]))) SHEETS /\
  (7 <= 19 <= 13 \/ 19 <= 19 <= 40).
Proof.
  assert (A : answersWithinRanges sampleAnswer)
    by (intros x _; split; simpl; lia).
  split; [exact A|].
  destruct (quotacheck_writes_within_blocks sampleAnswer
              [Update (Cell "META_SQUAD" COL.D 7) [[Int 0]];
               Update (Cell "META_SQUAD" COL.E 7) [[Int 0]];
               Update (Cell "META_SQUAD" COL.G 7) [[Int 0]];
               Update (Cell "META_SQUAD" COL.F 19) [[NaN]];
               Update (Cell "META_SQUAD" COL.D 19) [[Int 0]]]
              (Update (Cell "META_SQUAD" COL.F 19) [[NaN]]) A)
    as (S & R & _).
  - right. vm_compute. do 8 right. left. reflexivity.
  - simpl. auto.
  - split; [exact S | exact R].
Defined.

(* ================================================================== *)
(** * The two files compared *)

Lemma emitRows_ext {X : Type} (e1 e2 : nat -> list value -> list X) rows :
  (forall i row, In row rows -> e1 i row = e2 i row) ->
  forall i, emitRows e1 i rows = emitRows e2 i rows.
Proof.
  induction rows as [|row rest IH]; intros H i; [reflexivity|].
  cbn [emitRows]. rewrite H by now left. rewrite IH; [reflexivity|].
  intros; apply H; now right.
Qed.

Lemma map_emitRows {X Y : Type} (f : X -> Y) (e : nat -> list value -> list X) rows :
  forall i, map f (emitRows e i rows) = emitRows (fun i row => map f (e i row)) i rows.
Proof.
  induction rows as [|row rest IH]; intros i; [reflexivity|].
  cbn [emitRows]. now rewrite map_app, IH.
Qed.

Section Agreement.

Variables topValues bottomValues : grid.

Hypothesis plain : forall row, In row (topValues ++ bottomValues) ->
  textOrEmpty (cellOf row COL.B) = true /\ plainCounter (cellOf row COL.F) = true.

Lemma nameCell_agree row :
  In row (topValues ++ bottomValues) ->
  nameCell Part000.nameOf row = nameCell IndexJs.nameOf row.
Proof.
  intros H. unfold nameCell. now rewrite nameOf_agree by now apply plain.
Qed.

Lemma fNewOf_agree row :
  In row (topValues ++ bottomValues) ->
  fNewOf Part000.coerceF row = fNewOf IndexJs.coerceF row.
Proof.
  intros H. unfold fNewOf. now rewrite coerceF_agree by now apply plain.
Qed.

Lemma nameCell_agree_rowOf k :
  nameCell Part000.nameOf (rowOf topValues k) = nameCell IndexJs.nameOf (rowOf topValues k).
Proof.
  destruct (nth_error topValues k) as [row|] eqn:E.
  - rewrite (nth_error_rowOf _ _ _ E). apply nameCell_agree, in_or_app. left.
    eapply nth_error_In; eauto.
  - apply nth_error_None in E. now rewrite rowOf_beyond by exact E.
Qed.

Lemma topEmit_agree sheetName i row :
  In row (topValues ++ bottomValues) ->
  map retarget (topEmit IndexJs.nameOf IndexJs.coerceF sheetName i row)
  = topEmit Part000.nameOf Part000.coerceF sheetName i row.
Proof.
  intros H. unfold topEmit. rewrite nameCell_agree, fNewOf_agree by exact H.
  destruct (nameCell IndexJs.nameOf row =? ""); [reflexivity|].
  now destruct (topIncrement (7 + i) row).
Qed.

Lemma bottomEmit_agree sheetName i row :
  In row (topValues ++ bottomValues) ->
  map retarget (bottomEmit IndexJs.nameOf IndexJs.coerceF sheetName i row)
  = bottomEmit Part000.nameOf Part000.coerceF sheetName i row.
Proof.
  intros H. unfold bottomEmit. rewrite nameCell_agree, fNewOf_agree by exact H.
  destruct (nameCell IndexJs.nameOf row =? ""); [reflexivity|].
  now destruct (bottomIncrement row).
Qed.

Lemma topEntries_agree sheetName i row :
  In row (topValues ++ bottomValues) ->
  topEntries IndexJs.nameOf IndexJs.coerceF sheetName i row
  = topEntries Part000.nameOf Part000.coerceF sheetName i row.
Proof.
  intros H. unfold topEntries. now rewrite nameCell_agree, fNewOf_agree by exact H.
Qed.

Lemma bottomEntries_agree sheetName i row :
  In row (topValues ++ bottomValues) ->
  bottomEntries IndexJs.nameOf IndexJs.coerceF sheetName i row
  = bottomEntries Part000.nameOf Part000.coerceF sheetName i row.
Proof.
  intros H. unfold bottomEntries. now rewrite nameCell_agree, fNewOf_agree by exact H.
Qed.

Lemma resetEmit_agree sheetName r :
  map retarget (resetEmit IndexJs.nameOf IndexJs.resetCol sheetName topValues r)
  = resetEmit Part000.nameOf Part000.resetCol sheetName topValues r.
Proof.
  unfold resetEmit. rewrite nameCell_agree_rowOf.
  now destruct (nameCell IndexJs.nameOf (rowOf topValues (r - 7)) =? "").
Qed.

Lemma stagedUpdates_agree sheetName :
  map retarget (stagedUpdates IndexJs.nameOf IndexJs.coerceF IndexJs.resetCol
                  sheetName topValues bottomValues)
  = stagedUpdates Part000.nameOf Part000.coerceF Part000.resetCol
      sheetName topValues bottomValues.
Proof.
  unfold stagedUpdates. rewrite !map_app, !map_emitRows. f_equal; [|f_equal].
  - apply emitRows_ext. intros i row H. apply topEmit_agree, in_or_app. now left.
  - cbn [flat_map]. rewrite !map_app, !resetEmit_agree. reflexivity.
  - apply emitRows_ext. intros i row H. apply bottomEmit_agree, in_or_app. now right.
Qed.

End Agreement.

(** Where the two files agree.  On grids whose name cells are strings or
    not truthy and whose [F] cells are empty, the boolean [false], a plain
    decimal integer (an optional minus sign and digits) or a number of
    magnitude below [10^21], the staging of [part_000] is that of
    [index.js] with the resets of the rows 7 to 10 moved from column [B] to
    column [G]: the same other writes, the same summary entries.  These
    conditions are sufficient, not necessary. *)
Theorem quotacheck_files_agree_on_plain_cells sheetName topValues bottomValues s :
  (forall row, In row (topValues ++ bottomValues) ->
     textOrEmpty (cellOf row COL.B) = true /\ plainCounter (cellOf row COL.F) = true) ->
  Part000.stage sheetName topValues bottomValues s
  = retargeted (IndexJs.stage sheetName topValues bottomValues s).
Proof.
  intros Hplain.
  destruct (IndexJs_stage_total sheetName topValues bottomValues s) as (st1 & E1).
  destruct (Part000_stage_total sheetName topValues bottomValues s) as (st2 & E2).
  { intros row H. now apply Hplain. }
  rewrite E1, E2. cbn [retargeted]. f_equal.
  apply stage_emits in E1, E2.
  destruct E1 as (U1 & T1 & B1 & S1). destruct E2 as (U2 & T2 & B2 & S2).
  destruct st1 as [u1 [t1 b1 s1]], st2 as [u2 [t2 b2 s2]].
  cbn [updates summ topIncrements bottomIncrements sheetsUpdated] in *. subst.
  rewrite (stagedUpdates_agree _ _ Hplain). f_equal. f_equal.
  - f_equal. symmetry. apply emitRows_ext. intros i row H.
    apply (topEntries_agree _ _ Hplain), in_or_app. now left.
  - f_equal. symmetry. apply emitRows_ext. intros i row H.
    apply (bottomEntries_agree _ _ Hplain), in_or_app. now right.
Qed.

Lemma quotacheck_files_agree_on_plain_cells_witness :
  Part000.stage "VANGUARD_COMPANY" cmdrInRow10 [] emptySummary
  = Ok (State [Update (Cell "VANGUARD_COMPANY" COL.F 10) [[Int 4]];
               Update (Cell "VANGUARD_COMPANY" COL.D 10) [[Int 0]];
               Update (Cell "VANGUARD_COMPANY" COL.E 10) [[Int 0]];
               Update (Cell "VANGUARD_COMPANY" COL.G 10) [[Int 0]]]
              (Summary [Entry.Make "VANGUARD_COMPANY" 10 "Cmdr" (InfoF (Int 4))] [] [])).
Proof.
  rewrite (quotacheck_files_agree_on_plain_cells "VANGUARD_COMPANY" cmdrInRow10 []
             emptySummary).
  - reflexivity.
  - intros row H. simpl in H.
    destruct H as [<-|[<-|[<-|[<-|[]]]]]; split; reflexivity.
Defined.

(** C6, on [src/unnamed/part_000]: with Bob in row 8, both flags unchecked
    and [F] holding [abc], the staging of [index.js] with its reset target
    moved to column [G] writes 1 to [F8] and reports [F=1], while that of
    [part_000] writes [NaN] to [F8] and reports [F=NaN]: the two files
    differ in more than the reset target. *)
Theorem quotacheck_files_differ_beyond_reset_target :
  retargeted (IndexJs.stage "TITAN_COMPANY" bobInRow8 [] emptySummary)
  = Ok (State [Update (Cell "TITAN_COMPANY" COL.F 8) [[Int 1]];
               Update (Cell "TITAN_COMPANY" COL.D 8) [[Int 0]];
               Update (Cell "TITAN_COMPANY" COL.E 8) [[Int 0]];
               Update (Cell "TITAN_COMPANY" COL.G 8) [[Int 0]]]
              (Summary [Entry.Make "TITAN_COMPANY" 8 "Bob" (InfoF (Int 1))] [] []))
  /\
  Part000.stage "TITAN_COMPANY" bobInRow8 [] emptySummary
  = Ok (State [Update (Cell "TITAN_COMPANY" COL.F 8) [[NaN]];
               Update (Cell "TITAN_COMPANY" COL.D 8) [[Int 0]];
               Update (Cell "TITAN_COMPANY" COL.E 8) [[Int 0]];
               Update (Cell "TITAN_COMPANY" COL.G 8) [[Int 0]]]
              (Summary [Entry.Make "TITAN_COMPANY" 8 "Bob" (InfoF NaN)] [] []))
  /\
  Part000.stage "TITAN_COMPANY" bobInRow8 [] emptySummary
  <> retargeted (IndexJs.stage "TITAN_COMPANY" bobInRow8 [] emptySummary).
Proof.
  split; [reflexivity | split; [reflexivity|]]. vm_compute. discriminate.
Qed.

(* ================================================================== *)
(** * The integer coercion *)






(** What the coercion gives on some cells. *)
Example coerceInt_examples :
  coerceInt VUndef = 0%Z /\ coerceInt (VStr "") = 0%Z /\ coerceInt (VStr "abc") = 0%Z /\
  coerceInt (VStr "17") = 17%Z /\ coerceInt (VStr " 12abc") = 12%Z /\
  coerceInt (VStr "3.7") = 3%Z /\ coerceInt (VStr "0x1F") = 31%Z /\
  coerceInt (VBool true) = 0%Z /\ coerceInt (VNum 5) = 5%Z.
Proof. repeat split; reflexivity. Qed.

(* ================================================================== *)
(** * A target named twice in [add] *)

Lemma findIndexFrom_Some rows word : forall k i,
  findIndexFrom k rows word = Some i ->
  k <= i /\ cellOf (nth (i - k) rows []) COL.B = VStr word.
Proof.
  induction rows as [|row rest IH]; intros k i H; [discriminate|].
  cbn [findIndexFrom] in H.
  destruct (strictEquals (cellOf row COL.B) word) eqn:E.
  - injection H as <-. rewrite Nat.sub_diag. split; [lia|]. cbn [nth].
    unfold strictEquals in E. destruct (cellOf row COL.B); try discriminate.
    apply String.eqb_eq in E. now subst.
  - apply IH in H. destruct H as (Hk & H). split; [lia|].
    replace (i - k) with (S (i - S k)) by lia. exact H.
Qed.

(** The row that [findIndex] returns holds the word in column [B]. *)
Lemma findIndex_Some values word i :
  findIndex values word = Some i -> cellOf (nth i values []) COL.B = VStr word.
Proof.
  intros H. apply findIndexFrom_Some in H. destruct H as (_ & H).
  now rewrite Nat.sub_0_r in H.
Qed.







(* ================================================================== *)
(** * The helpers of the source *)

(** ** [isChecked] *)

Lemma upper_letter c :
  (upper c = "T"%char <-> c = "t"%char \/ c = "T"%char) /\
  (upper c = "R"%char <-> c = "r"%char \/ c = "R"%char) /\
  (upper c = "U"%char <-> c = "u"%char \/ c = "U"%char) /\
  (upper c = "E"%char <-> c = "e"%char \/ c = "E"%char).
Proof.
  destruct c as [[] [] [] [] [] [] [] []]; vm_compute;
    repeat split; intros H; try discriminate H; auto;
    destruct H as [H|H]; discriminate H.
Qed.

Lemma upper_digit c : isDigit 10 c = true -> upper c = c.
Proof.
  destruct c as [[] [] [] [] [] [] [] []]; vm_compute; intros H;
    try discriminate H; reflexivity.
Qed.

Lemma decimal_first n :
  (0 <= n)%Z -> exists c r, decimal n = String c r /\ isDigit 10 c = true.
Proof.
  intros H. pose proof (allDigits_decimal n H) as A.
  pose proof (decimal_nonempty n) as N.
  destruct (decimal n) as [|c r]; [congruence|].
  exists c, r. split; [reflexivity|]. cbn [allDigits] in A.
  now apply andb_true_iff in A.
Qed.

(** The text of a number begins with a minus sign or a digit. *)
Lemma Number_toString_first z :
  exists c r, Number_toString z = String c r /\ (c = "-"%char \/ isDigit 10 c = true).
Proof.
  unfold Number_toString.
  destruct (decimal_first (Z.abs z) (Z.abs_nonneg z)) as (c & r & E & D).
  destruct (z <? 0)%Z.
  - eexists "-"%char, _. split; [reflexivity | now left].
  - cbn [String.append]. destruct (Z.abs z <? 10 ^ 21)%Z.
    + exists c, r. auto.
    + unfold exponential. rewrite E. eexists c, _. split; [reflexivity | now right].
Qed.

Lemma toUpperCase_TRUE s :
  toUpperCase s = "TRUE" <->
  exists a b c d,
    s = String a (String b (String c (String d ""))) /\
    (a = "t" \/ a = "T")%char /\ (b = "r" \/ b = "R")%char /\
    (c = "u" \/ c = "U")%char /\ (d = "e" \/ d = "E")%char.
Proof.
  split.
  - destruct s as [|a [|b [|c [|d [|x r]]]]]; cbn [toUpperCase]; intros H;
      try discriminate H.
    injection H as Ha Hb Hc Hd.
    exists a, b, c, d. split; [reflexivity|].
    repeat split; now apply upper_letter.
  - intros (a & b & c & d & -> & Ha & Hb & Hc & Hd). cbn [toUpperCase].
    apply upper_letter in Ha, Hb, Hc, Hd. now rewrite Ha, Hb, Hc, Hd.
Qed.

(** X1: a cell is checked exactly when it is the boolean [true] or a string
    of the four letters of [true], each in either case; no number, no
    missing cell and no other string is. *)
Theorem isChecked_characterization v :
  isChecked v = true <->
  v = VBool true \/
  exists a b c d,
    v = VStr (String a (String b (String c (String d "")))) /\
    (a = "t" \/ a = "T")%char /\ (b = "r" \/ b = "R")%char /\
    (c = "u" \/ c = "U")%char /\ (d = "e" \/ d = "E")%char.
Proof.
  unfold isChecked. destruct v as [| [] | z | s]; cbn [orb ToString].
  - split; [discriminate|]. intros [H|(a & b & c & d & H & _)]; discriminate.
  - split; auto.
  - split; [discriminate|]. intros [H|(a & b & c & d & H & _)]; discriminate.
  - split; [|intros [H|(a & b & c & d & H & _)]; discriminate].
    intros H. exfalso. apply String.eqb_eq in H.
    destruct (Number_toString_first z) as (c & r & E & Hc). rewrite E in H.
    cbn [toUpperCase] in H. injection H as H _.
    destruct Hc as [-> | Hc]; [discriminate H|].
    rewrite (upper_digit c Hc) in H. subst c. discriminate Hc.
  - rewrite String.eqb_eq, toUpperCase_TRUE. split.
    + intros (a & b & c & d & -> & H). right. exists a, b, c, d. auto.
    + intros [H|(a & b & c & d & H & H')]; [discriminate|].
      injection H as ->. exists a, b, c, d. auto.
Qed.

Lemma isChecked_characterization_witness :
  isChecked (VStr "True") = true /\ isChecked (VStr "TRUE ") = false.
Proof.
  split.
  - apply (proj2 (isChecked_characterization (VStr "True"))). right.
    exists "T"%char, "r"%char, "u"%char, "e"%char.
    split; [reflexivity | split; [now right | split; [now left | split; now left]]].
  - apply not_true_iff_false. intros H.
    apply (proj1 (isChecked_characterization (VStr "TRUE "))) in H.
    destruct H as [H | (a & b & c & d & H & _)]; discriminate H.
Defined.

(** ** [trim] and [split] *)

Lemma trimEnd_head c r :
  isWhiteSpace c = false -> exists t, trimEnd (String c r) = String c t.
Proof.
  intros H. cbn [trimEnd]. rewrite H. destruct (trimEnd r); eauto.
Qed.

Lemma trimEnd_idempotent s : trimEnd (trimEnd s) = trimEnd s.
Proof.
  induction s as [|c r IH]; [reflexivity|]. cbn [trimEnd].
  destruct (trimEnd r) as [|x t] eqn:E.
  - destruct (isWhiteSpace c) eqn:W; [reflexivity|]. cbn [trimEnd]. now rewrite W.
  - cbn [trimEnd]. cbn [trimEnd] in IH. now rewrite IH.
Qed.

(** What [trimStart] leaves does not begin with white space. *)
Lemma trimStart_head s :
  trimStart s = "" \/ exists c r, trimStart s = String c r /\ isWhiteSpace c = false.
Proof.
  induction s as [|c r IH]; [now left|]. cbn [trimStart].
  destruct (isWhiteSpace c) eqn:W; [exact IH | right; eauto].
Qed.

Lemma trimStart_fixed c r : isWhiteSpace c = false -> trimStart (String c r) = String c r.
Proof. intros H. cbn [trimStart]. now rewrite H. Qed.

(** Trimming twice is trimming once. *)
Lemma trim_idempotent s : trim (trim s) = trim s.
Proof.
  unfold trim. destruct (trimStart_head s) as [-> | (c & r & -> & W)]; [reflexivity|].
  destruct (trimEnd_head c r W) as (t & E). rewrite E, trimStart_fixed by exact W.
  rewrite <- E. apply trimEnd_idempotent.
Qed.

Lemma contains_trimStart c s : contains c (trimStart s) = true -> contains c s = true.
Proof.
  induction s as [|x r IH]; [auto|]. cbn [trimStart].
  destruct (isWhiteSpace x); [|auto]. intros H. cbn [contains]. rewrite (IH H).
  apply orb_true_r.
Qed.

Lemma contains_trimEnd c s : contains c (trimEnd s) = true -> contains c s = true.
Proof.
  induction s as [|x r IH]; [auto|]. cbn [trimEnd contains].
  destruct (trimEnd r) as [|y t].
  - destruct (isWhiteSpace x); [discriminate|]. cbn [contains].
    rewrite orb_false_r. intros ->. reflexivity.
  - cbn [contains] in *. destruct (x =? c)%char; [reflexivity|]. cbn [orb]. exact IH.
Qed.

Lemma contains_trim c s : contains c s = false -> contains c (trim s) = false.
Proof.
  intros H. apply not_true_iff_false. intros T. unfold trim in T.
  apply contains_trimEnd, contains_trimStart in T. congruence.
Qed.

Lemma split_nonempty sep s : split sep s <> [].
Proof.
  induction s as [|c r IH]; [discriminate|]. cbn [split].
  destruct (c =? sep)%char; [discriminate|]. now destruct (split sep r).
Qed.

(** No piece of a split holds the separator. *)
Lemma split_pieces sep s p : In p (split sep s) -> contains sep p = false.
Proof.
  revert p. induction s as [|c r IH]; intros p; cbn [split].
  - intros [<-|[]]. reflexivity.
  - destruct (c =? sep)%char eqn:E.
    + intros [<-|H]; [reflexivity | now apply IH].
    + destruct (split sep r) as [|w ws] eqn:S.
      * intros [<-|[]]. cbn [contains]. now rewrite E.
      * intros [<-|H].
        -- cbn [contains]. rewrite E. apply IH. now left.
        -- apply IH. now right.
Qed.

(** A word that [parseWords] returns is clean. *)
Lemma parseWords_cleanWord input w : In w (parseWords input) -> cleanWord w.
Proof.
  unfold parseWords. intros H. apply filter_In in H. destruct H as (H & L).
  apply in_map_iff in H. destruct H as (p & <- & Hp).
  split; [|split].
  - intros E. rewrite E in L. discriminate L.
  - apply trim_idempotent.
  - apply contains_trim. eapply split_pieces; eauto.
Qed.

(** X2: whatever the input, every word that [parseWords] returns is not
    empty, has no white space left to trim at either end, and holds no
    comma. *)
Theorem parseWords_words_clean input : Forall cleanWord (parseWords input).
Proof. apply Forall_forall. intros w. apply parseWords_cleanWord. Qed.

(** ** [join] and [parseWords] *)

Lemma split_cons sep c s :
  (c =? sep)%char = false ->
  exists p ps, split sep s = p :: ps /\ split sep (String c s) = String c p :: ps.
Proof.
  intros E. cbn [split]. rewrite E.
  destruct (split sep s) as [|p ps] eqn:S; [now apply split_nonempty in S|]. eauto.
Qed.

Lemma split_app sep w rest :
  contains sep w = false ->
  split sep (w ++ String sep rest) = w :: split sep rest.
Proof.
  induction w as [|c r IH]; cbn [contains String.append]; intros H.
  - cbn [split]. now rewrite Ascii.eqb_refl.
  - apply orb_false_iff in H. destruct H as (E & H).
    cbn [split]. rewrite E, (IH H). reflexivity.
Qed.

Lemma split_single sep w : contains sep w = false -> split sep w = [w].
Proof.
  induction w as [|c r IH]; cbn [contains]; intros H; [reflexivity|].
  apply orb_false_iff in H. destruct H as (E & H).
  cbn [split]. rewrite E, (IH H). reflexivity.
Qed.

Lemma trim_space s : trim (String " " s) = trim s.
Proof. reflexivity. Qed.

Lemma join_words_split words :
  words <> [] -> Forall cleanWord words ->
  map trim (split "," (join ", " words)) = words.
Proof.
  induction words as [|w rest IH]; [congruence|]. intros _ H.
  inversion H as [|? ? (Hne & Ht & Hc) Hrest]; subst.
  destruct rest as [|w2 rest].
  - cbn [join]. rewrite split_single by exact Hc. cbn [map]. now rewrite Ht.
  - change (join ", " (w :: w2 :: rest))
      with (w ++ String "," (String " " (join ", " (w2 :: rest))))%string.
    rewrite split_app by exact Hc.
    destruct (split_cons "," " " (join ", " (w2 :: rest)) eq_refl) as (p & ps & S & ->).
    cbn [map]. rewrite trim_space, Ht.
    specialize (IH ltac:(discriminate) Hrest). rewrite S in IH. cbn [map] in IH.
    now rewrite IH.
Qed.

Lemma join_empty sep words :
  Forall cleanWord words -> join sep words = "" -> words = [].
Proof.
  destruct words as [|w rest]; [reflexivity|]. intros H E.
  inversion H as [|? ? (Hne & _) _]; subst.
  destruct rest; cbn [join] in E; [congruence|].
  destruct w; [congruence | discriminate E].
Qed.

Lemma parseWords_join words :
  Forall cleanWord words -> parseWords (VStr (join ", " words)) = words.
Proof.
  intros H. destruct words as [|w rest]; [reflexivity|].
  assert (N : join ", " (w :: rest) <> "").
  { intros E. apply join_empty in E; [discriminate | exact H]. }
  unfold parseWords, or. cbn [truthy]. apply String.eqb_neq in N. rewrite N.
  cbn [negb ToString]. rewrite join_words_split by (discriminate || exact H).
  apply forallb_filter_id. apply forallb_forall. intros x Hx.
  rewrite Forall_forall in H. destruct (H x Hx) as (Hne & _).
  destruct x; [congruence | reflexivity].
Qed.

(** X3: [parseWords] undoes [words.join(', ')] on clean words; so the list
    of words that a not-found reply prints, [words.join(', ')] for the words
    parsed from the input, reads back through [parseWords] as the same
    words in the same order. *)
Theorem parseWords_join_roundtrip :
  (forall words, Forall cleanWord words ->
                 parseWords (VStr (join ", " words)) = words) /\
  (forall input,
     parseWords (VStr (join ", " (parseWords input))) = parseWords input).
Proof.
  split; [apply parseWords_join|].
  intros input. apply parseWords_join, Forall_forall.
  intros w. apply parseWords_cleanWord.
Qed.

Lemma parseWords_join_roundtrip_witness :
  Forall cleanWord ["Alice"; "Bob Jr"] /\
  parseWords (VStr (join ", " ["Alice"; "Bob Jr"])) = ["Alice"; "Bob Jr"].
Proof.
  assert (H : Forall cleanWord ["Alice"; "Bob Jr"]).
  { repeat constructor; discriminate. }
  split; [exact H | exact (proj1 parseWords_join_roundtrip _ H)].
Defined.

(* ================================================================== *)
(** * The counter commands *)

(** ** [findIndex] *)

Lemma strictEquals_true cell word : strictEquals cell word = true <-> cell = VStr word.
Proof.
  unfold strictEquals. destruct cell; try (split; [discriminate | congruence]).
  rewrite String.eqb_eq. split; congruence.
Qed.

Lemma findIndexFrom_first rows word : forall k i,
  findIndexFrom k rows word = Some i <->
  k <= i /\ i - k < List.length rows /\ holds rows (i - k) word /\
  forall j, j < i - k -> ~ holds rows j word.
Proof.
  unfold holds.
  induction rows as [|row rest IH]; intros k i; cbn [findIndexFrom List.length].
  - split; [discriminate | intros (_ & H & _); lia].
  - destruct (strictEquals (cellOf row COL.B) word) eqn:E.
    + apply strictEquals_true in E. split.
      * intros [= <-]. rewrite Nat.sub_diag. repeat split; [lia | lia | exact E | lia].
      * intros (Hk & _ & _ & Hfirst). f_equal.
        destruct (Nat.eq_dec k i) as [|Hne]; [assumption|].
        exfalso. apply (Hfirst 0); [lia | exact E].
    + assert (N : cellOf row COL.B <> VStr word).
      { intros H. apply strictEquals_true in H. congruence. }
      rewrite IH. split.
      * intros (Hk & Hl & Hh & Hfirst).
        replace (i - k) with (S (i - S k)) by lia. repeat split; [lia | lia | exact Hh |].
        intros [|j] Hj; [exact N|]. cbn [nth]. apply Hfirst. lia.
      * intros (Hk & Hl & Hh & Hfirst).
        assert (Hki : k <> i).
        { intros ->. rewrite Nat.sub_diag in Hh. exact (N Hh). }
        replace (i - k) with (S (i - S k)) in * by lia. cbn [nth] in Hh.
        repeat split; [lia | lia | exact Hh |].
        intros j Hj. apply (Hfirst (S j)). lia.
Qed.

Lemma findIndexFrom_None rows word : forall k,
  findIndexFrom k rows word = None <->
  forall j, j < List.length rows -> ~ holds rows j word.
Proof.
  unfold holds.
  induction rows as [|row rest IH]; intros k; cbn [findIndexFrom List.length].
  - split; [intros _ j Hj; lia | reflexivity].
  - destruct (strictEquals (cellOf row COL.B) word) eqn:E.
    + apply strictEquals_true in E. split; [discriminate|].
      intros H. exfalso. apply (H 0); [lia | exact E].
    + assert (N : cellOf row COL.B <> VStr word).
      { intros H. apply strictEquals_true in H. congruence. }
      rewrite IH. split.
      * intros H [|j] Hj; [exact N|]. cbn [nth]. apply H. lia.
      * intros H j Hj. apply (H (S j)). lia.
Qed.

Lemma findIndex_first values word i :
  findIndex values word = Some i <->
  i < List.length values /\ holds values i word /\
  forall j, j < i -> ~ holds values j word.
Proof.
  unfold findIndex. rewrite findIndexFrom_first, Nat.sub_0_r.
  split; [intros (_ & H); exact H | intros H; split; [lia | exact H]].
Qed.

(** X4: [findIndex] returns the index of the first row whose cell [B] is the
    word itself, as a string and character for character (no trimming, no
    change of case, a number is never equal to a word); it returns "not
    found" exactly when no row of the grid has such a cell. *)
Theorem findIndex_first_match values word :
  (forall i, findIndex values word = Some i <->
             i < List.length values /\ holds values i word /\
             forall j, j < i -> ~ holds values j word) /\
  (findIndex values word = None <->
   forall j, j < List.length values -> ~ holds values j word).
Proof.
  split; [intros i; apply findIndex_first | apply findIndexFrom_None].
Qed.

Lemma findIndex_first_match_witness :
  findIndex aliceTwice "Alice" = Some 2 /\
  holds aliceTwice 2 "Alice" /\ ~ holds aliceTwice 1 "Alice" /\
  findIndex aliceTwice "alice" = None.
Proof.
  assert (H : findIndex aliceTwice "Alice" = Some 2) by reflexivity.
  destruct (findIndex_first_match aliceTwice "Alice") as (HS & _).
  destruct (findIndex_first_match aliceTwice "alice") as (_ & HN).
  destruct (proj1 (HS 2) H) as (_ & Hh & Hfirst).
  split; [exact H | split; [exact Hh | split; [apply Hfirst; lia|]]].
  apply (proj2 HN). intros j Hj Hc.
  destruct j as [|[|[|[|j]]]]; try discriminate Hc. simpl in Hj. lia.
Defined.

(** ** The runs of the three handlers *)

Lemma fold_left_entries {W U V : Type} (body : list U * list V -> W -> list U * list V)
    (en : W -> list V) :
  (forall st w, snd (body st w) = snd st ++ en w) ->
  forall ws st, snd (fold_left body ws st) = snd st ++ flat_map en ws.
Proof.
  intros Hb. induction ws as [|w rest IH]; intros st; simpl.
  - now rewrite app_nil_r.
  - rewrite IH, Hb, <- app_assoc. reflexivity.
Qed.

Lemma stageAdd_entries sheetName values eventsToAdd words updatesSummary :
  snd (stageAdd sheetName values eventsToAdd words updatesSummary)
  = updatesSummary ++ flat_map (addEntries sheetName values eventsToAdd) words.
Proof.
  unfold stageAdd.
  apply (fold_left_entries (addBody sheetName values eventsToAdd)
           (addEntries sheetName values eventsToAdd)).
  intros st w. unfold addBody, addEntries. destruct (findIndex values w); simpl;
    [reflexivity | now rewrite app_nil_r].
Qed.

Lemma stageOfficerAdd_entries sheetName values eventsToAdd words updatesSummary :
  snd (stageOfficerAdd sheetName values eventsToAdd words updatesSummary)
  = updatesSummary ++ flat_map (officerAddEntries sheetName values eventsToAdd) words.
Proof.
  unfold stageOfficerAdd.
  apply (fold_left_entries (officerAddBody sheetName values eventsToAdd)
           (officerAddEntries sheetName values eventsToAdd)).
  intros st w. unfold officerAddBody, officerAddEntries. destruct (findIndex values w); simpl;
    [reflexivity | now rewrite app_nil_r].
Qed.

Lemma stageTryoutAdd_entries sheetName values tryoutsToAdd words updatesSummary :
  snd (stageTryoutAdd sheetName values tryoutsToAdd words updatesSummary)
  = updatesSummary ++ flat_map (tryoutAddEntries sheetName values tryoutsToAdd) words.
Proof.
  unfold stageTryoutAdd.
  apply (fold_left_entries (tryoutAddBody sheetName values tryoutsToAdd)
           (tryoutAddEntries sheetName values tryoutsToAdd)).
  intros st w. unfold tryoutAddBody, tryoutAddEntries. destruct (findIndex values w); simpl;
    [reflexivity | now rewrite app_nil_r].
Qed.

(** A loop whose iterations each complete, push entries and append calls that
    depend on the element only. *)
Lemma forEachM_run {X V : Type} (body : X -> list V -> M (list V))
    (ens : X -> list V) (seg : X -> list call) :
  (forall x us log, body x us log = (Ok (us ++ ens x), log ++ seg x)) ->
  forall xs us log,
    forEachM body xs us log = (Ok (us ++ flat_map ens xs), log ++ flat_map seg xs).
Proof.
  intros Hb. induction xs as [|x rest IH]; intros us log.
  - cbn [forEachM flat_map]. unfold ret. now rewrite !app_nil_r.
  - cbn [forEachM flat_map]. unfold bindM. rewrite Hb, IH, <- !app_assoc. reflexivity.
Qed.

Lemma handleAdd_run answer input amount log :
  let words := parseWords input in
  handleAdd answer input amount log
  = (Ok (flat_map (fun s => flat_map (addEntries s (answer (addRange s)) amount) words)
                  SHEETS),
     log ++ flat_map (fun s => wordCalls (addRange s)
                                 (flat_map (addWrites s (answer (addRange s)) amount) words))
                     SHEETS).
Proof.
  intros words. unfold handleAdd. fold words.
  apply (forEachM_run (addSheet answer words amount)
           (fun s => flat_map (addEntries s (answer (addRange s)) amount) words)
           (fun s => wordCalls (addRange s)
                       (flat_map (addWrites s (answer (addRange s)) amount) words))).
  intros x us log'. rewrite addSheet_run. unfold addRange.
  now rewrite stageAdd_entries, stageAdd_updates.
Qed.

Lemma handleOfficerAdd_run answer input amount log :
  let words := parseWords input in
  handleOfficerAdd answer input amount log
  = (Ok (flat_map (fun s => flat_map (officerAddEntries s (answer (officerRange s)) amount)
                              words) SHEETS),
     log ++ flat_map (fun s => wordCalls (officerRange s)
                                 (flat_map (officerAddWrites s (answer (officerRange s)) amount)
                                    words))
                     SHEETS).
Proof.
  intros words. unfold handleOfficerAdd. fold words.
  apply (forEachM_run (officerAddSheet answer words amount)
           (fun s => flat_map (officerAddEntries s (answer (officerRange s)) amount) words)
           (fun s => wordCalls (officerRange s)
                       (flat_map (officerAddWrites s (answer (officerRange s)) amount) words))).
  intros x us log'. rewrite officerAddSheet_run. unfold officerRange.
  now rewrite stageOfficerAdd_entries, stageOfficerAdd_updates.
Qed.

Lemma handleTryoutAdd_run answer input amount log :
  let words := parseWords input in
  handleTryoutAdd answer input amount log
  = (Ok (flat_map (fun s => flat_map (tryoutAddEntries s (answer (tryoutRange s)) amount)
                              words) SHEETS),
     log ++ flat_map (fun s => wordCalls (tryoutRange s)
                                 (flat_map (tryoutAddWrites s (answer (tryoutRange s)) amount)
                                    words))
                     SHEETS).
Proof.
  intros words. unfold handleTryoutAdd. fold words.
  apply (forEachM_run (tryoutAddSheet answer words amount)
           (fun s => flat_map (tryoutAddEntries s (answer (tryoutRange s)) amount) words)
           (fun s => wordCalls (tryoutRange s)
                       (flat_map (tryoutAddWrites s (answer (tryoutRange s)) amount) words))).
  intros x us log'. rewrite tryoutAddSheet_run. unfold tryoutRange.
  now rewrite stageTryoutAdd_entries, stageTryoutAdd_updates.
Qed.

(** The updates that the batches of a sheet loop carry. *)
Lemma batched_wordCalls (rng : string -> a1range) (wr : string -> list update) xs u :
  batched (flat_map (fun s => wordCalls (rng s) (wr s)) xs) u <->
  exists s, In s xs /\ In u (wr s).
Proof.
  unfold batched. split.
  - intros (data & Hd & Hu). apply in_flat_map in Hd. destruct Hd as (s & Hs & Hd).
    exists s. split; [exact Hs|]. unfold wordCalls, batchOf in Hd. cbn [app] in Hd.
    destruct Hd as [Hd|Hd]; [discriminate|].
    destruct (wr s) as [|x rest]; [destruct Hd|].
    destruct Hd as [Hd|[]]. now injection Hd as <-.
  - intros (s & Hs & Hu). exists (wr s). split; [|exact Hu].
    apply in_flat_map. exists s. split; [exact Hs|]. unfold wordCalls, batchOf.
    destruct (wr s) as [|x rest]; [destruct Hu|]. right. now left.
Qed.

Lemma in_addWrites sheetName values amount word u :
  In u (addWrites sheetName values amount word) <->
  exists rowIndex, findIndex values word = Some rowIndex /\
    (u = Update (Cell sheetName COL.C (rowIndex + 1)) (bumped values rowIndex COL.C amount) \/
     u = Update (Cell sheetName COL.D (rowIndex + 1)) (bumped values rowIndex COL.D amount)).
Proof.
  unfold addWrites, bumped. destruct (findIndex values word) as [i|].
  - cbn [In]. split.
    + intros [<-|[<-|[]]]; exists i; auto.
    + intros (j & [= <-] & [->| ->]); auto.
  - split; [intros [] | intros (j & H & _); discriminate].
Qed.

Lemma in_officerAddWrites sheetName values amount word u :
  In u (officerAddWrites sheetName values amount word) <->
  exists rowIndex, findIndex values word = Some rowIndex /\
    (u = Update (Cell sheetName COL.D (rowIndex + 7)) (bumped values rowIndex COL.D amount) \/
     u = Update (Cell sheetName COL.E (rowIndex + 7)) (bumped values rowIndex COL.E amount)).
Proof.
  unfold officerAddWrites, bumped. destruct (findIndex values word) as [i|].
  - cbn [In]. split.
    + intros [<-|[<-|[]]]; exists i; auto.
    + intros (j & [= <-] & [->| ->]); auto.
  - split; [intros [] | intros (j & H & _); discriminate].
Qed.

Lemma in_tryoutAddWrites sheetName values amount word u :
  In u (tryoutAddWrites sheetName values amount word) <->
  exists rowIndex, findIndex values word = Some rowIndex /\
    u = Update (Cell sheetName COL.G (rowIndex + 7)) (bumped values rowIndex COL.G amount).
Proof.
  unfold tryoutAddWrites, bumped. destruct (findIndex values word) as [i|].
  - cbn [In]. split.
    + intros [<-|[]]; exists i; auto.
    + intros (j & [= <-] & ->); auto.
  - split; [intros [] | intros (j & H & _); discriminate].
Qed.

(** The updates in the batches of the three handlers. *)
Lemma handleAdd_batched answer input amount u :
  batched (snd (handleAdd answer input amount [])) u <->
  exists sheetName word rowIndex,
    In sheetName SHEETS /\ In word (parseWords input) /\
    findIndex (answer (addRange sheetName)) word = Some rowIndex /\
    (u = Update (Cell sheetName COL.C (rowIndex + 1))
                (bumped (answer (addRange sheetName)) rowIndex COL.C amount) \/
     u = Update (Cell sheetName COL.D (rowIndex + 1))
                (bumped (answer (addRange sheetName)) rowIndex COL.D amount)).
Proof.
  rewrite handleAdd_run. cbn [snd app]. rewrite batched_wordCalls. split.
  - intros (s & Hs & Hu). apply in_flat_map in Hu. destruct Hu as (w & Hw & Hu).
    apply in_addWrites in Hu. destruct Hu as (i & Hi & Hu). exists s, w, i. auto.
  - intros (s & w & i & Hs & Hw & Hi & Hu). exists s. split; [exact Hs|].
    apply in_flat_map. exists w. split; [exact Hw|]. apply in_addWrites. eauto.
Qed.

Lemma handleOfficerAdd_batched answer input amount u :
  batched (snd (handleOfficerAdd answer input amount [])) u <->
  exists sheetName word rowIndex,
    In sheetName SHEETS /\ In word (parseWords input) /\
    findIndex (answer (officerRange sheetName)) word = Some rowIndex /\
    (u = Update (Cell sheetName COL.D (rowIndex + 7))
                (bumped (answer (officerRange sheetName)) rowIndex COL.D amount) \/
     u = Update (Cell sheetName COL.E (rowIndex + 7))
                (bumped (answer (officerRange sheetName)) rowIndex COL.E amount)).
Proof.
  rewrite handleOfficerAdd_run. cbn [snd app]. rewrite batched_wordCalls. split.
  - intros (s & Hs & Hu). apply in_flat_map in Hu. destruct Hu as (w & Hw & Hu).
    apply in_officerAddWrites in Hu. destruct Hu as (i & Hi & Hu). exists s, w, i. auto.
  - intros (s & w & i & Hs & Hw & Hi & Hu). exists s. split; [exact Hs|].
    apply in_flat_map. exists w. split; [exact Hw|]. apply in_officerAddWrites. eauto.
Qed.

Lemma handleTryoutAdd_batched answer input amount u :
  batched (snd (handleTryoutAdd answer input amount [])) u <->
  exists sheetName word rowIndex,
    In sheetName SHEETS /\ In word (parseWords input) /\
    findIndex (answer (tryoutRange sheetName)) word = Some rowIndex /\
    u = Update (Cell sheetName COL.G (rowIndex + 7))
               (bumped (answer (tryoutRange sheetName)) rowIndex COL.G amount).
Proof.
  rewrite handleTryoutAdd_run. cbn [snd app]. rewrite batched_wordCalls. split.
  - intros (s & Hs & Hu). apply in_flat_map in Hu. destruct Hu as (w & Hw & Hu).
    apply in_tryoutAddWrites in Hu. destruct Hu as (i & Hi & Hu). exists s, w, i. auto.
  - intros (s & w & i & Hs & Hw & Hi & Hu). exists s. split; [exact Hs|].
    apply in_flat_map. exists w. split; [exact Hw|]. apply in_tryoutAddWrites. eauto.
Qed.

(** X5: the writes of the three counter commands, exactly.  An update is in
    a batch of the invocation if and only if it is, for a configured sheet
    and a word of the input found in the range read on that sheet, the write
    of the counter of the row found plus the amount: columns [C] and [D] of
    row [rowIndex + 1] for [add], [D] and [E] of row [rowIndex + 7] for
    [officeradd], [G] of row [rowIndex + 7] for [tryoutadd].  A word found
    in several sheets is written in each of them. *)
Theorem counter_commands_write_exactly answer input amount u :
  let words := parseWords input in
  (batched (snd (handleAdd answer input amount [])) u <->
   exists sheetName word rowIndex,
     In sheetName SHEETS /\ In word words /\
     findIndex (answer (addRange sheetName)) word = Some rowIndex /\
     (u = Update (Cell sheetName COL.C (rowIndex + 1))
                 (bumped (answer (addRange sheetName)) rowIndex COL.C amount) \/
      u = Update (Cell sheetName COL.D (rowIndex + 1))
                 (bumped (answer (addRange sheetName)) rowIndex COL.D amount))) /\
  (batched (snd (handleOfficerAdd answer input amount [])) u <->
   exists sheetName word rowIndex,
     In sheetName SHEETS /\ In word words /\
     findIndex (answer (officerRange sheetName)) word = Some rowIndex /\
     (u = Update (Cell sheetName COL.D (rowIndex + 7))
                 (bumped (answer (officerRange sheetName)) rowIndex COL.D amount) \/
      u = Update (Cell sheetName COL.E (rowIndex + 7))
                 (bumped (answer (officerRange sheetName)) rowIndex COL.E amount))) /\
  (batched (snd (handleTryoutAdd answer input amount [])) u <->
   exists sheetName word rowIndex,
     In sheetName SHEETS /\ In word words /\
     findIndex (answer (tryoutRange sheetName)) word = Some rowIndex /\
     u = Update (Cell sheetName COL.G (rowIndex + 7))
                (bumped (answer (tryoutRange sheetName)) rowIndex COL.G amount)).
Proof.
  cbv zeta. split; [|split].
  - apply handleAdd_batched.
  - apply handleOfficerAdd_batched.
  - apply handleTryoutAdd_batched.
Qed.

Lemma counter_commands_write_exactly_witness :
  findIndex aliceInRow3 "Alice" = Some 2 /\
  batched (snd (handleAdd (fun _ => aliceInRow3) (VStr "Bob, Alice") 5 []))
          (Update (Cell "META_SQUAD" COL.C 3) [[Int 15]]).
Proof.
  assert (H : findIndex aliceInRow3 "Alice" = Some 2) by reflexivity.
  split; [exact H|].
  destruct (counter_commands_write_exactly (fun _ => aliceInRow3) (VStr "Bob, Alice") 5
              (Update (Cell "META_SQUAD" COL.C 3) [[Int 15]])) as ((_ & W) & _).
  apply W. exists "META_SQUAD", "Alice", 2.
  split; [simpl; auto | split; [simpl; auto | split; [exact H | now left]]].
Defined.

(** ** Nothing found *)

Lemma flat_map_nil {X Y : Type} (f : X -> list Y) xs :
  flat_map f xs = [] <-> forall x, In x xs -> f x = [].
Proof.
  induction xs as [|x rest IH]; cbn [flat_map].
  - split; [intros _ x [] | reflexivity].
  - split.
    + intros H. apply app_eq_nil in H. destruct H as (Hx & Hr).
      intros y [<-|Hy]; [exact Hx | now apply IH].
    + intros H. rewrite (H x (or_introl eq_refl)). apply IH.
      intros y Hy. apply H. now right.
Qed.

Lemma wordCalls_nothing (rng : string -> a1range) (wr : string -> list update) xs :
  (forall s, In s xs -> wr s = []) ->
  flat_map (fun s => wordCalls (rng s) (wr s)) xs = map (fun s => ValuesGet (rng s)) xs.
Proof.
  induction xs as [|x rest IH]; intros H; [reflexivity|].
  cbn [flat_map map]. rewrite (H x (or_introl eq_refl)), IH; [reflexivity|].
  intros s Hs. apply H. now right.
Qed.

Lemma addEntries_nil sheetName values amount word :
  addEntries sheetName values amount word = [] <-> findIndex values word = None.
Proof.
  unfold addEntries. destruct (findIndex values word); split; congruence.
Qed.

Lemma officerAddEntries_nil sheetName values amount word :
  officerAddEntries sheetName values amount word = [] <-> findIndex values word = None.
Proof.
  unfold officerAddEntries. destruct (findIndex values word); split; congruence.
Qed.

Lemma tryoutAddEntries_nil sheetName values amount word :
  tryoutAddEntries sheetName values amount word = [] <-> findIndex values word = None.
Proof.
  unfold tryoutAddEntries. destruct (findIndex values word); split; congruence.
Qed.

Lemma addWrites_nil sheetName values amount word :
  findIndex values word = None -> addWrites sheetName values amount word = [].
Proof. unfold addWrites. now intros ->. Qed.

Lemma officerAddWrites_nil sheetName values amount word :
  findIndex values word = None -> officerAddWrites sheetName values amount word = [].
Proof. unfold officerAddWrites. now intros ->. Qed.

Lemma tryoutAddWrites_nil sheetName values amount word :
  findIndex values word = None -> tryoutAddWrites sheetName values amount word = [].
Proof. unfold tryoutAddWrites. now intros ->. Qed.

(** A sheet loop in which the entries of a word are empty exactly when the
    word is not found, and so are its writes. *)
Lemma nothing_found answer (rng : string -> a1range) words
    (en : string -> grid -> string -> list Entry.entry)
    (wr : string -> grid -> string -> list update) :
  (forall s v w, en s v w = [] <-> findIndex v w = None) ->
  (forall s v w, findIndex v w = None -> wr s v w = []) ->
  (flat_map (fun s => flat_map (en s (answer (rng s))) words) SHEETS = []
   <-> nowhere answer rng words) /\
  (nowhere answer rng words ->
   flat_map (fun s => wordCalls (rng s) (flat_map (wr s (answer (rng s))) words)) SHEETS
   = readsOnly rng).
Proof.
  intros Hen Hwr. unfold nowhere. split.
  - rewrite flat_map_nil. split.
    + intros H s w Hs Hw. apply (Hen s). specialize (H s Hs).
      rewrite flat_map_nil in H. now apply H.
    + intros H s Hs. apply flat_map_nil. intros w Hw. apply Hen. now apply H.
  - intros H. unfold readsOnly.
    apply (wordCalls_nothing rng (fun s => flat_map (wr s (answer (rng s))) words)).
    intros s Hs. apply flat_map_nil. intros w Hw. apply Hwr. now apply H.
Qed.

(** X6: the three counter commands always complete, and each returns an
    empty [updatesSummary] (the one that selects the "not found" reply) if
    and only if no word of the input is found in the range read on any
    sheet; in that case the invocation has made its four reads, one per
    sheet in the order of [SHEETS], and no write. *)
Theorem counter_commands_nothing_found answer input amount :
  let words := parseWords input in
  (exists updatesSummary,
     fst (handleAdd answer input amount []) = Ok updatesSummary /\
     (updatesSummary = [] <-> nowhere answer addRange words) /\
     (nowhere answer addRange words ->
      snd (handleAdd answer input amount []) = readsOnly addRange)) /\
  (exists updatesSummary,
     fst (handleOfficerAdd answer input amount []) = Ok updatesSummary /\
     (updatesSummary = [] <-> nowhere answer officerRange words) /\
     (nowhere answer officerRange words ->
      snd (handleOfficerAdd answer input amount []) = readsOnly officerRange)) /\
  (exists updatesSummary,
     fst (handleTryoutAdd answer input amount []) = Ok updatesSummary /\
     (updatesSummary = [] <-> nowhere answer tryoutRange words) /\
     (nowhere answer tryoutRange words ->
      snd (handleTryoutAdd answer input amount []) = readsOnly tryoutRange)).
Proof.
  intros words. split; [|split].
  - rewrite handleAdd_run. fold words. cbn [fst snd app]. eexists. split; [reflexivity|].
    apply (nothing_found answer addRange words
             (fun s v => addEntries s v amount) (fun s v => addWrites s v amount)).
    + intros s v w. apply addEntries_nil.
    + intros s v w. apply addWrites_nil.
  - rewrite handleOfficerAdd_run. fold words. cbn [fst snd app]. eexists.
    split; [reflexivity|].
    apply (nothing_found answer officerRange words
             (fun s v => officerAddEntries s v amount)
             (fun s v => officerAddWrites s v amount)).
    + intros s v w. apply officerAddEntries_nil.
    + intros s v w. apply officerAddWrites_nil.
  - rewrite handleTryoutAdd_run. fold words. cbn [fst snd app]. eexists.
    split; [reflexivity|].
    apply (nothing_found answer tryoutRange words
             (fun s v => tryoutAddEntries s v amount)
             (fun s v => tryoutAddWrites s v amount)).
    + intros s v w. apply tryoutAddEntries_nil.
    + intros s v w. apply tryoutAddWrites_nil.
Qed.

Lemma counter_commands_nothing_found_witness :
  nowhere (fun _ => aliceInRow3) addRange (parseWords (VStr "Bob, alice")) /\
  snd (handleAdd (fun _ => aliceInRow3) (VStr "Bob, alice") 5 []) = readsOnly addRange.
Proof.
  assert (N : nowhere (fun _ => aliceInRow3) addRange (parseWords (VStr "Bob, alice"))).
  { intros s w _ [<-|[<-|[]]]; reflexivity. }
  split; [exact N|].
  destruct (counter_commands_nothing_found (fun _ => aliceInRow3) (VStr "Bob, alice") 5)
    as ((us & _ & _ & H) & _).
  exact (H N).
Defined.

(** ** Where the counter commands write *)

Lemma findIndex_bound values word i :
  findIndex values word = Some i -> i < List.length values.
Proof. intros H. apply findIndex_first in H. tauto. Qed.

(** X7: when the store answers each read with no more rows than its range
    has, every update in a batch of [add] is one value written to one cell,
    in column [C] or [D] of a row from 1 to 100 of a configured sheet; of
    [officeradd], in column [D] or [E] of a row from 7 to 13; of
    [tryoutadd], in column [G] of a row from 7 to 10.  No other cell is
    written: never the names in column [B]. *)
Theorem counter_commands_write_within_ranges answer input amount u :
  (answersWithin answer addRange ->
   batched (snd (handleAdd answer input amount [])) u ->
   In (ref_sheet (range u)) SHEETS /\
   (ref_col (range u) = COL.C \/ ref_col (range u) = COL.D) /\
   1 <= ref_row (range u) <= 100 /\
   exists v, values u = [[v]]) /\
  (answersWithin answer officerRange ->
   batched (snd (handleOfficerAdd answer input amount [])) u ->
   In (ref_sheet (range u)) SHEETS /\
   (ref_col (range u) = COL.D \/ ref_col (range u) = COL.E) /\
   7 <= ref_row (range u) <= 13 /\
   exists v, values u = [[v]]) /\
  (answersWithin answer tryoutRange ->
   batched (snd (handleTryoutAdd answer input amount [])) u ->
   In (ref_sheet (range u)) SHEETS /\
   ref_col (range u) = COL.G /\
   7 <= ref_row (range u) <= 10 /\
   exists v, values u = [[v]]).
Proof.
  split; [|split]; intros Hans Hu.
  - apply handleAdd_batched in Hu. destruct Hu as (s & w & i & Hs & _ & Hi & Hu).
    apply findIndex_bound in Hi. specialize (Hans s Hs). cbn in Hans.
    unfold bumped in Hu.
    destruct Hu as [-> | ->]; cbn [range values ref_sheet ref_col ref_row];
      (split; [exact Hs | split; [auto | split; [lia | eauto]]]).
  - apply handleOfficerAdd_batched in Hu. destruct Hu as (s & w & i & Hs & _ & Hi & Hu).
    apply findIndex_bound in Hi. specialize (Hans s Hs). cbn in Hans.
    unfold bumped in Hu.
    destruct Hu as [-> | ->]; cbn [range values ref_sheet ref_col ref_row];
      (split; [exact Hs | split; [auto | split; [lia | eauto]]]).
  - apply handleTryoutAdd_batched in Hu. destruct Hu as (s & w & i & Hs & _ & Hi & Hu).
    apply findIndex_bound in Hi. specialize (Hans s Hs). cbn in Hans.
    unfold bumped in Hu. subst u. cbn [range values ref_sheet ref_col ref_row].
    split; [exact Hs | split; [auto | split; [lia | eauto]]].
Qed.

Lemma counter_commands_write_within_ranges_witness :
  answersWithin (fun _ => aliceInRow3) addRange /\
  batched (snd (handleAdd (fun _ => aliceInRow3) (VStr "Alice") 5 []))
          (Update (Cell "META_SQUAD" COL.C 3) [[Int 15]]) /\
  In "META_SQUAD" SHEETS /\ 1 <= 3 <= 100.
Proof.
  assert (A : answersWithin (fun _ => aliceInRow3) addRange)
    by (intros s _; simpl; lia).
  assert (B : batched (snd (handleAdd (fun _ => aliceInRow3) (VStr "Alice") 5 []))
                (Update (Cell "META_SQUAD" COL.C 3) [[Int 15]])).
  { exists [Update (Cell "META_SQUAD" COL.C 3) [[Int 15]];
             Update (Cell "META_SQUAD" COL.D 3) [[Int 7]]].
    split; [|left; reflexivity]. vm_compute. do 5 right. left. reflexivity. }
  destruct (counter_commands_write_within_ranges (fun _ => aliceInRow3) (VStr "Alice") 5
              (Update (Cell "META_SQUAD" COL.C 3) [[Int 15]])) as (H & _).
  destruct (H A B) as (S & _ & R & _).
  split; [exact A | split; [exact B | split; [exact S | exact R]]].
Defined.

(** ** What the counter commands report *)

Lemma in_addEntries sheetName values amount word e :
  In e (addEntries sheetName values amount word) <->
  exists rowIndex, findIndex values word = Some rowIndex /\
    e = Entry.Make sheetName (rowIndex + 1) word
          (InfoTotalWeekly
             (coerceInt (cellOf (nth rowIndex values []) COL.C) + amount)
             (coerceInt (cellOf (nth rowIndex values []) COL.D) + amount)).
Proof.
  unfold addEntries. destruct (findIndex values word) as [i|].
  - cbn [In]. split.
    + intros [<-|[]]. eauto.
    + intros (j & [= <-] & ->). auto.
  - split; [intros [] | intros (j & H & _); discriminate].
Qed.

Lemma in_officerAddEntries sheetName values amount word e :
  In e (officerAddEntries sheetName values amount word) <->
  exists rowIndex, findIndex values word = Some rowIndex /\
    e = Entry.Make sheetName (rowIndex + 7) word
          (InfoDE
             (coerceInt (cellOf (nth rowIndex values []) COL.D) + amount)
             (coerceInt (cellOf (nth rowIndex values []) COL.E) + amount)).
Proof.
  unfold officerAddEntries. destruct (findIndex values word) as [i|].
  - cbn [In]. split.
    + intros [<-|[]]. eauto.
    + intros (j & [= <-] & ->). auto.
  - split; [intros [] | intros (j & H & _); discriminate].
Qed.

Lemma in_tryoutAddEntries sheetName values amount word e :
  In e (tryoutAddEntries sheetName values amount word) <->
  exists rowIndex, findIndex values word = Some rowIndex /\
    e = Entry.Make sheetName (rowIndex + 7) word
          (InfoG (coerceInt (cellOf (nth rowIndex values []) COL.G) + amount)).
Proof.
  unfold tryoutAddEntries. destruct (findIndex values word) as [i|].
  - cbn [In]. split.
    + intros [<-|[]]. eauto.
    + intros (j & [= <-] & ->). auto.
  - split; [intros [] | intros (j & H & _); discriminate].
Qed.

Lemma in_sheet_words {X : Type} (f : string -> string -> list X) words x :
  In x (flat_map (fun s => flat_map (f s) words) SHEETS) <->
  exists s w, In s SHEETS /\ In w words /\ In x (f s w).
Proof.
  rewrite in_flat_map. split.
  - intros (s & Hs & H). apply in_flat_map in H. destruct H as (w & Hw & H). eauto.
  - intros (s & w & Hs & Hw & H). exists s. split; [exact Hs|].
    apply in_flat_map. eauto.
Qed.

(** X8: what the counter commands report is what they write.  Every entry
    of the [updatesSummary] a command returns names a configured sheet, a
    word of the input and the row that holds that word in column [B], and
    the values of its [info] are those of updates in the batches of the
    invocation, for the counters of that row of that sheet; and every update
    in a batch belongs to the row of some entry. *)
Theorem counter_commands_report_what_they_write answer input amount :
  let words := parseWords input in
  (exists updatesSummary,
     fst (handleAdd answer input amount []) = Ok updatesSummary /\
     (forall e, In e updatesSummary ->
        In (Entry.sheet e) SHEETS /\ In (Entry.name e) words /\
        holds (answer (addRange (Entry.sheet e))) (Entry.row e - 1) (Entry.name e) /\
        exists totalNew weeklyNew,
          Entry.info e = InfoTotalWeekly totalNew weeklyNew /\
          batched (snd (handleAdd answer input amount []))
                  (Update (Cell (Entry.sheet e) COL.C (Entry.row e)) [[Int totalNew]]) /\
          batched (snd (handleAdd answer input amount []))
                  (Update (Cell (Entry.sheet e) COL.D (Entry.row e)) [[Int weeklyNew]])) /\
     (forall u, batched (snd (handleAdd answer input amount [])) u ->
        exists e, In e updatesSummary /\ Entry.sheet e = ref_sheet (range u) /\
                  Entry.row e = ref_row (range u))) /\
  (exists updatesSummary,
     fst (handleOfficerAdd answer input amount []) = Ok updatesSummary /\
     (forall e, In e updatesSummary ->
        In (Entry.sheet e) SHEETS /\ In (Entry.name e) words /\
        holds (answer (officerRange (Entry.sheet e))) (Entry.row e - 7) (Entry.name e) /\
        exists dNew eNew,
          Entry.info e = InfoDE dNew eNew /\
          batched (snd (handleOfficerAdd answer input amount []))
                  (Update (Cell (Entry.sheet e) COL.D (Entry.row e)) [[Int dNew]]) /\
          batched (snd (handleOfficerAdd answer input amount []))
                  (Update (Cell (Entry.sheet e) COL.E (Entry.row e)) [[Int eNew]])) /\
     (forall u, batched (snd (handleOfficerAdd answer input amount [])) u ->
        exists e, In e updatesSummary /\ Entry.sheet e = ref_sheet (range u) /\
                  Entry.row e = ref_row (range u))) /\
  (exists updatesSummary,
     fst (handleTryoutAdd answer input amount []) = Ok updatesSummary /\
     (forall e, In e updatesSummary ->
        In (Entry.sheet e) SHEETS /\ In (Entry.name e) words /\
        holds (answer (tryoutRange (Entry.sheet e))) (Entry.row e - 7) (Entry.name e) /\
        exists gNew,
          Entry.info e = InfoG gNew /\
          batched (snd (handleTryoutAdd answer input amount []))
                  (Update (Cell (Entry.sheet e) COL.G (Entry.row e)) [[Int gNew]])) /\
     (forall u, batched (snd (handleTryoutAdd answer input amount [])) u ->
        exists e, In e updatesSummary /\ Entry.sheet e = ref_sheet (range u) /\
                  Entry.row e = ref_row (range u))).
Proof.
  intros words. split; [|split].
  - eexists. split; [rewrite handleAdd_run; reflexivity|]. fold words. split.
    + intros e He. apply in_sheet_words in He. destruct He as (s & w & Hs & Hw & He).
      apply in_addEntries in He. destruct He as (i & Hi & ->).
      cbn [Entry.sheet Entry.name Entry.row Entry.info].
      split; [exact Hs | split; [exact Hw | split]].
      * replace (i + 1 - 1) with i by lia. now apply findIndex_first in Hi.
      * do 2 eexists. split; [reflexivity|].
        split; apply handleAdd_batched; exists s, w, i; unfold bumped; auto.
    + intros u Hu. apply handleAdd_batched in Hu.
      destruct Hu as (s & w & i & Hs & Hw & Hi & Hu).
      eexists. split.
      * apply in_sheet_words. exists s, w. split; [exact Hs | split; [exact Hw|]].
        apply in_addEntries. eauto.
      * destruct Hu as [-> | ->]; auto.
  - eexists. split; [rewrite handleOfficerAdd_run; reflexivity|]. fold words. split.
    + intros e He. apply in_sheet_words in He. destruct He as (s & w & Hs & Hw & He).
      apply in_officerAddEntries in He. destruct He as (i & Hi & ->).
      cbn [Entry.sheet Entry.name Entry.row Entry.info].
      split; [exact Hs | split; [exact Hw | split]].
      * replace (i + 7 - 7) with i by lia. now apply findIndex_first in Hi.
      * do 2 eexists. split; [reflexivity|].
        split; apply handleOfficerAdd_batched; exists s, w, i; unfold bumped; auto.
    + intros u Hu. apply handleOfficerAdd_batched in Hu.
      destruct Hu as (s & w & i & Hs & Hw & Hi & Hu).
      eexists. split.
      * apply in_sheet_words. exists s, w. split; [exact Hs | split; [exact Hw|]].
        apply in_officerAddEntries. eauto.
      * destruct Hu as [-> | ->]; auto.
  - eexists. split; [rewrite handleTryoutAdd_run; reflexivity|]. fold words. split.
    + intros e He. apply in_sheet_words in He. destruct He as (s & w & Hs & Hw & He).
      apply in_tryoutAddEntries in He. destruct He as (i & Hi & ->).
      cbn [Entry.sheet Entry.name Entry.row Entry.info].
      split; [exact Hs | split; [exact Hw | split]].
      * replace (i + 7 - 7) with i by lia. now apply findIndex_first in Hi.
      * eexists. split; [reflexivity|].
        apply handleTryoutAdd_batched; exists s, w, i; unfold bumped; auto.
    + intros u Hu. apply handleTryoutAdd_batched in Hu.
      destruct Hu as (s & w & i & Hs & Hw & Hi & Hu).
      eexists. split.
      * apply in_sheet_words. exists s, w. split; [exact Hs | split; [exact Hw|]].
        apply in_tryoutAddEntries. eauto.
      * subst u. auto.
Qed.

Lemma counter_commands_report_what_they_write_witness :
  exists updatesSummary,
    fst (handleAdd (fun _ => aliceInRow3) (VStr "Alice") 5 []) = Ok updatesSummary /\
    In (Entry.Make "META_SQUAD" 3 "Alice" (InfoTotalWeekly 15 7)) updatesSummary /\
    holds aliceInRow3 (3 - 1) "Alice".
Proof.
  destruct (counter_commands_report_what_they_write (fun _ => aliceInRow3) (VStr "Alice") 5)
    as ((updatesSummary & E & H & _) & _).
  exists updatesSummary. split; [exact E|].
  assert (I : In (Entry.Make "META_SQUAD" 3 "Alice" (InfoTotalWeekly 15 7)) updatesSummary).
  { vm_compute in E. injection E as <-. simpl. auto. }
  split; [exact I|]. destruct (H _ I) as (_ & _ & Hh & _). exact Hh.
Defined.

(** ** A name listed twice in a sheet *)

Lemma first_match_only values word i j w :
  i < j -> holds values i word -> holds values j word ->
  findIndex values w <> Some j.
Proof.
  intros Hij Hi Hj H. apply findIndex_first in H. destruct H as (_ & Hw & Hfirst).
  unfold holds in *. assert (w = word) by congruence. subst w.
  exact (Hfirst i Hij Hi).
Qed.

(** X9: when two rows of the range read on a sheet hold the same word in
    column [B], no counter command ever writes to the later one: whatever
    the input, no update of any batch targets that row of that sheet.  Only
    the first row of a name can be credited. *)
Theorem counter_commands_skip_repeated_names answer input amount sheetName word i j u :
  i < j ->
  (holds (answer (addRange sheetName)) i word ->
   holds (answer (addRange sheetName)) j word ->
   batched (snd (handleAdd answer input amount [])) u ->
   ~ (ref_sheet (range u) = sheetName /\ ref_row (range u) = j + 1)) /\
  (holds (answer (officerRange sheetName)) i word ->
   holds (answer (officerRange sheetName)) j word ->
   batched (snd (handleOfficerAdd answer input amount [])) u ->
   ~ (ref_sheet (range u) = sheetName /\ ref_row (range u) = j + 7)) /\
  (holds (answer (tryoutRange sheetName)) i word ->
   holds (answer (tryoutRange sheetName)) j word ->
   batched (snd (handleTryoutAdd answer input amount [])) u ->
   ~ (ref_sheet (range u) = sheetName /\ ref_row (range u) = j + 7)).
Proof.
  intros Hij. split; [|split]; intros Hi Hj Hu (Hs & Hr).
  - apply handleAdd_batched in Hu. destruct Hu as (s & w & k & _ & _ & Hk & Hu).
    assert (E : s = sheetName /\ k = j).
    { destruct Hu as [-> | ->]; cbn [range ref_sheet ref_row] in Hs, Hr; split; (assumption || lia). }
    destruct E as (-> & ->). exact (first_match_only _ _ _ _ _ Hij Hi Hj Hk).
  - apply handleOfficerAdd_batched in Hu. destruct Hu as (s & w & k & _ & _ & Hk & Hu).
    assert (E : s = sheetName /\ k = j).
    { destruct Hu as [-> | ->]; cbn [range ref_sheet ref_row] in Hs, Hr; split; (assumption || lia). }
    destruct E as (-> & ->). exact (first_match_only _ _ _ _ _ Hij Hi Hj Hk).
  - apply handleTryoutAdd_batched in Hu. destruct Hu as (s & w & k & _ & _ & Hk & Hu).
    assert (E : s = sheetName /\ k = j).
    { subst u; cbn [range ref_sheet ref_row] in Hs, Hr; split; (assumption || lia). }
    destruct E as (-> & ->). exact (first_match_only _ _ _ _ _ Hij Hi Hj Hk).
Qed.

Lemma counter_commands_skip_repeated_names_witness :
  2 < 3 /\ holds aliceTwice 2 "Alice" /\ holds aliceTwice 3 "Alice" /\
  batched (snd (handleAdd (fun _ => aliceTwice) (VStr "Alice") 5 []))
          (Update (Cell "META_SQUAD" COL.C 3) [[Int 15]]) /\
  ~ ("META_SQUAD" = "META_SQUAD" /\ 3 = 3 + 1).
Proof.
  assert (L : 2 < 3) by lia.
  assert (Hi : holds aliceTwice 2 "Alice") by reflexivity.
  assert (Hj : holds aliceTwice 3 "Alice") by reflexivity.
  assert (B : batched (snd (handleAdd (fun _ => aliceTwice) (VStr "Alice") 5 []))
                (Update (Cell "META_SQUAD" COL.C 3) [[Int 15]])).
  { exists [Update (Cell "META_SQUAD" COL.C 3) [[Int 15]];
             Update (Cell "META_SQUAD" COL.D 3) [[Int 7]]].
    split; [|left; reflexivity]. vm_compute. do 5 right. left. reflexivity. }
  destruct (counter_commands_skip_repeated_names (fun _ => aliceTwice) (VStr "Alice") 5
              "META_SQUAD" "Alice" 2 3 (Update (Cell "META_SQUAD" COL.C 3) [[Int 15]]) L)
    as (H & _).
  split; [exact L | split; [exact Hi | split; [exact Hj | split; [exact B|]]]].
  exact (H Hi Hj B).
Defined.

(* ================================================================== *)
(** * [handleQuotaCheck]: the whole invocation *)

Section QuotaInvocation.

Variable answer : a1range -> grid.
Variable nameOf : value -> result string.
Variable coerceF : value -> num.
Variable resetCol : COL.col.

(** The updates in the batches of an invocation: what was staged for the
    sheets whose iteration completed. *)
Lemma quota_batched u :
  batched (snd (handleQuotaCheck answer nameOf coerceF resetCol [])) u <->
  exists s, In s (processed (quotaOk answer nameOf) SHEETS) /\
            quotaOk answer nameOf s = true /\
            In u (stagedFor answer nameOf coerceF resetCol s).
Proof.
  rewrite handleQuotaCheck_log. unfold batched. split.
  - intros (data & Hd & Hu). apply in_flat_map in Hd. destruct Hd as (s & Hs & Hd).
    exists s. split; [exact Hs|]. unfold quotaCalls, quotaOk in *. cbn [app] in Hd.
    destruct Hd as [Hd|Hd]; [discriminate|].
    destruct (topOk nameOf (answer (topRange s))); [|destruct Hd].
    cbn [app] in Hd. destruct Hd as [Hd|Hd]; [discriminate|].
    destruct (namesOk nameOf (answer (bottomRange s))); [|destruct Hd].
    split; [reflexivity|]. unfold batchOf in Hd.
    destruct (stagedFor answer nameOf coerceF resetCol s) as [|x rest]; [destruct Hd|].
    destruct Hd as [Hd|[]]. now injection Hd as <-.
  - intros (s & Hs & Hok & Hu). exists (stagedFor answer nameOf coerceF resetCol s).
    split; [|exact Hu]. apply in_flat_map. exists s. split; [exact Hs|].
    unfold quotaCalls, quotaOk in *. apply andb_true_iff in Hok. destruct Hok as (-> & ->).
    right. right. unfold batchOf.
    destruct (stagedFor answer nameOf coerceF resetCol s) as [|x rest]; [destruct Hu|].
    now left.
Qed.

(** What the iteration of a sheet returns. *)
Lemma quotaSheet_result sheetName s log :
  fst (quotaSheet answer nameOf coerceF resetCol sheetName s log)
  = match stage nameOf coerceF resetCol sheetName
            (answer (topRange sheetName)) (answer (bottomRange sheetName)) s with
    | Ok st => Ok (match updates st with
                   | [] => summ st
                   | _ :: _ => pushSheet (summ st) sheetName
                   end)
    | Throw e => Throw e
    end.
Proof.
  unfold quotaSheet, stage, bindM, getValues, lift.
  fold (topRange sheetName). fold (bottomRange sheetName).
  destruct (stageTop nameOf coerceF resetCol sheetName (answer (topRange sheetName))
              (State [] s)) as [st1|e]; cbn [bind fst]; [|reflexivity].
  destruct (stageBottom nameOf coerceF sheetName (answer (bottomRange sheetName)) st1)
    as [st|e]; cbn [fst]; [|reflexivity].
  destruct (updates st) as [|u us]; cbn [List.length Nat.ltb Nat.leb]; [reflexivity|].
  rewrite batchUpdate_run. reflexivity.
Qed.

Lemma quotaSheet_summary sheetName s log s' :
  fst (quotaSheet answer nameOf coerceF resetCol sheetName s log) = Ok s' ->
  topIncrements s'
  = topIncrements s
    ++ emitRows (topEntries nameOf coerceF sheetName) 0 (answer (topRange sheetName)) /\
  bottomIncrements s'
  = bottomIncrements s
    ++ emitRows (bottomEntries nameOf coerceF sheetName) 0 (answer (bottomRange sheetName)) /\
  sheetsUpdated s'
  = sheetsUpdated s
    ++ listedIfAny (stagedFor answer nameOf coerceF resetCol sheetName) sheetName.
Proof.
  rewrite quotaSheet_result. unfold stagedFor.
  destruct (stage nameOf coerceF resetCol sheetName (answer (topRange sheetName))
              (answer (bottomRange sheetName)) s) as [st|e] eqn:E; [|discriminate].
  apply stage_emits in E. destruct E as (U & T & B & S). rewrite <- U.
  intros [= <-]. destruct (updates st); cbn [listedIfAny pushSheet topIncrements
    bottomIncrements sheetsUpdated]; rewrite ?app_nil_r; rewrite S; auto.
Qed.

Lemma sheetLoop_summary xs : forall s log s',
  fst (forEachM (quotaSheet answer nameOf coerceF resetCol) xs s log) = Ok s' ->
  topIncrements s'
  = topIncrements s
    ++ flat_map (fun x => emitRows (topEntries nameOf coerceF x) 0 (answer (topRange x))) xs /\
  bottomIncrements s'
  = bottomIncrements s
    ++ flat_map (fun x => emitRows (bottomEntries nameOf coerceF x) 0
                            (answer (bottomRange x))) xs /\
  sheetsUpdated s'
  = sheetsUpdated s
    ++ flat_map (fun x => listedIfAny (stagedFor answer nameOf coerceF resetCol x) x) xs.
Proof.
  induction xs as [|x rest IH]; intros s log s'.
  - cbn [forEachM flat_map]. unfold ret. cbn [fst]. intros [= <-]. now rewrite !app_nil_r.
  - cbn [forEachM flat_map]. unfold bindM.
    destruct (quotaSheet answer nameOf coerceF resetCol x s log) as [[s1|e] log1] eqn:E;
      [|discriminate].
    assert (E1 : fst (quotaSheet answer nameOf coerceF resetCol x s log) = Ok s1)
      by now rewrite E.
    apply quotaSheet_summary in E1. destruct E1 as (T1 & B1 & S1).
    intros H. apply IH in H. destruct H as (T & B & S).
    rewrite T, B, S, T1, B1, S1, <- !app_assoc. auto.
Qed.

Lemma handleQuotaCheck_summary s' :
  fst (handleQuotaCheck answer nameOf coerceF resetCol []) = Ok s' ->
  topIncrements s'
  = flat_map (fun x => emitRows (topEntries nameOf coerceF x) 0 (answer (topRange x)))
             SHEETS /\
  bottomIncrements s'
  = flat_map (fun x => emitRows (bottomEntries nameOf coerceF x) 0 (answer (bottomRange x)))
             SHEETS /\
  sheetsUpdated s'
  = flat_map (fun x => listedIfAny (stagedFor answer nameOf coerceF resetCol x) x) SHEETS.
Proof. unfold handleQuotaCheck. intros H. now apply sheetLoop_summary in H. Qed.

(** A completed invocation went through every sheet. *)
Lemma handleQuotaCheck_completed :
  isOk (fst (handleQuotaCheck answer nameOf coerceF resetCol [])) = true ->
  processed (quotaOk answer nameOf) SHEETS = SHEETS /\
  forall s, In s SHEETS -> quotaOk answer nameOf s = true.
Proof.
  rewrite handleQuotaCheck_isOk. intros H. split; [now apply processed_all|].
  intros s Hs. rewrite forallb_forall in H. now apply H.
Qed.

Lemma quota_batched_completed u :
  isOk (fst (handleQuotaCheck answer nameOf coerceF resetCol [])) = true ->
  batched (snd (handleQuotaCheck answer nameOf coerceF resetCol [])) u <->
  exists s, In s SHEETS /\
            origin nameOf coerceF resetCol s
                   (answer (topRange s)) (answer (bottomRange s)) u.
Proof.
  intros Hok. apply handleQuotaCheck_completed in Hok. destruct Hok as (P & Hall).
  rewrite quota_batched, P. split.
  - intros (s & Hs & _ & Hu). exists s. split; [exact Hs|]. now apply in_stagedUpdates.
  - intros (s & Hs & Hu). exists s. split; [exact Hs | split; [now apply Hall|]].
    now apply in_stagedUpdates.
Qed.

End QuotaInvocation.

Lemma IndexJs_handleQuotaCheck_isOk answer :
  isOk (fst (IndexJs_handleQuotaCheck answer [])) = true.
Proof.
  unfold IndexJs_handleQuotaCheck. rewrite handleQuotaCheck_isOk.
  apply forallb_forall. intros s _. apply IndexJs_quotaOk.
Qed.

Lemma isOk_true {X : Type} (r : result X) : isOk r = true <-> exists x, r = Ok x.
Proof.
  destruct r as [x|e]; cbn [isOk]; split; eauto; try discriminate.
  intros (x & H). discriminate.
Qed.

(** X10: every row with a name that quotacheck reads is reset, whatever its
    check boxes: for a row of the top block, [0] is written to its [D] and
    to its [E]; for a row of the bottom block, to its [D].  In [index.js]
    always; in [part_000] whenever the invocation completes. *)
Theorem quotacheck_named_rows_always_reset answer sheetName k row :
  In sheetName SHEETS ->
  (nth_error (answer (topRange sheetName)) k = Some row ->
   (nameCell IndexJs.nameOf row <> "" ->
    batched (snd (IndexJs_handleQuotaCheck answer []))
            (Update (Cell sheetName COL.D (7 + k)) [[Int 0]]) /\
    batched (snd (IndexJs_handleQuotaCheck answer []))
            (Update (Cell sheetName COL.E (7 + k)) [[Int 0]])) /\
   (isOk (fst (Part000_handleQuotaCheck answer [])) = true ->
    nameCell Part000.nameOf row <> "" ->
    batched (snd (Part000_handleQuotaCheck answer []))
            (Update (Cell sheetName COL.D (7 + k)) [[Int 0]]) /\
    batched (snd (Part000_handleQuotaCheck answer []))
            (Update (Cell sheetName COL.E (7 + k)) [[Int 0]]))) /\
  (nth_error (answer (bottomRange sheetName)) k = Some row ->
   (nameCell IndexJs.nameOf row <> "" ->
    batched (snd (IndexJs_handleQuotaCheck answer []))
            (Update (Cell sheetName COL.D (19 + k)) [[Int 0]])) /\
   (isOk (fst (Part000_handleQuotaCheck answer [])) = true ->
    nameCell Part000.nameOf row <> "" ->
    batched (snd (Part000_handleQuotaCheck answer []))
            (Update (Cell sheetName COL.D (19 + k)) [[Int 0]]))).
Proof.
  intros Hs. pose proof (IndexJs_handleQuotaCheck_isOk answer) as HI.
  unfold IndexJs_handleQuotaCheck, Part000_handleQuotaCheck in *.
  split; intros Hrow; split.
  - intros Hn. split; apply quota_batched_completed; try exact HI;
      exists sheetName; (split; [exact Hs|]);
      solve [apply FromTopDE with (k := k) (row := row) (c := COL.D); auto
            |apply FromTopDE with (k := k) (row := row) (c := COL.E); auto].
  - intros HP Hn. split; apply quota_batched_completed; try exact HP;
      exists sheetName; (split; [exact Hs|]);
      solve [apply FromTopDE with (k := k) (row := row) (c := COL.D); auto
            |apply FromTopDE with (k := k) (row := row) (c := COL.E); auto].
  - intros Hn. apply quota_batched_completed; [exact HI|].
    exists sheetName. split; [exact Hs|].
    apply FromBottomD with (k := k) (row := row); auto.
  - intros HP Hn. apply quota_batched_completed; [exact HP|].
    exists sheetName. split; [exact Hs|].
    apply FromBottomD with (k := k) (row := row); auto.
Qed.

Lemma quotacheck_named_rows_always_reset_witness :
  In "META_SQUAD" SHEETS /\
  nth_error (sampleAnswer (topRange "META_SQUAD")) 0 = Some (nth 0 aliceInRow7 []) /\
  nameCell IndexJs.nameOf (nth 0 aliceInRow7 []) <> "" /\
  batched (snd (IndexJs_handleQuotaCheck sampleAnswer []))
          (Update (Cell "META_SQUAD" COL.D (7 + 0)) [[Int 0]]).
Proof.
  assert (S : In "META_SQUAD" SHEETS) by (simpl; auto).
  assert (R : nth_error (sampleAnswer (topRange "META_SQUAD")) 0
              = Some (nth 0 aliceInRow7 [])) by reflexivity.
  assert (N : nameCell IndexJs.nameOf (nth 0 aliceInRow7 []) <> "")
    by (vm_compute; discriminate).
  destruct (quotacheck_named_rows_always_reset sampleAnswer "META_SQUAD" 0
              (nth 0 aliceInRow7 []) S) as (H & _).
  destruct (H R) as (HI & _). destruct (HI N) as (HD & _).
  split; [exact S | split; [exact R | split; [exact N | exact HD]]].
Defined.

(** ** The columns quotacheck writes *)

Lemma quota_batched_origin answer nameOf coerceF resetCol u :
  batched (snd (handleQuotaCheck answer nameOf coerceF resetCol [])) u ->
  exists s, In s SHEETS /\
            origin nameOf coerceF resetCol s
                   (answer (topRange s)) (answer (bottomRange s)) u.
Proof.
  intros H. apply quota_batched in H. destruct H as (s & Hs & _ & Hu).
  exists s. split; [eapply processed_incl; exact Hs | now apply in_stagedUpdates].
Qed.

Lemma topIncrement_from_8 r row :
  topIncrement r row = true -> 8 <= r.
Proof.
  unfold topIncrement. intros H. apply andb_true_iff in H. destruct H as (H & _).
  apply andb_true_iff in H. destruct H as (H & _). now apply Nat.leb_le in H.
Qed.

(** X11: the cells quotacheck writes, by column.  In [index.js] every update
    of every batch is a value written to [F] of a row from 8 on, or [0]
    written to [D] or [E], or [0] written to [B] of a row from 7 to 10; in
    [part_000] it is a value written to [F] of a row from 8 on, or [0]
    written to [D] or [E], or [0] written to [G] of a row from 7 to 10.
    Neither ever writes to the check boxes in [H], [I] and [J], which
    therefore stay as they are from one quotacheck to the next. *)
Theorem quotacheck_columns_written answer u :
  (batched (snd (IndexJs_handleQuotaCheck answer [])) u ->
   (ref_col (range u) = COL.F /\ 8 <= ref_row (range u) /\
    exists v, values u = [[v]]) \/
   ((ref_col (range u) = COL.D \/ ref_col (range u) = COL.E) /\
    values u = [[Int 0]]) \/
   (ref_col (range u) = COL.B /\ 7 <= ref_row (range u) <= 10 /\
    values u = [[Int 0]])) /\
  (batched (snd (Part000_handleQuotaCheck answer [])) u ->
   (ref_col (range u) = COL.F /\ 8 <= ref_row (range u) /\
    exists v, values u = [[v]]) \/
   ((ref_col (range u) = COL.D \/ ref_col (range u) = COL.E) /\
    values u = [[Int 0]]) \/
   (ref_col (range u) = COL.G /\ 7 <= ref_row (range u) <= 10 /\
    values u = [[Int 0]])).
Proof.
  split; intros H; apply quota_batched_origin in H; destruct H as (s & _ & H);
    destruct H as [k row _ _ Hinc ->|k row c _ _ Hc ->|r Hr _ ->|k row _ _ _ ->|k row _ _ ->];
    cbn [range values ref_col ref_row].
  - left. apply topIncrement_from_8 in Hinc. split; [reflexivity | split; [lia | eauto]].
  - right. left. split; [destruct Hc as [-> | ->]; auto | reflexivity].
  - right. right. auto.
  - left. split; [reflexivity | split; [lia | eauto]].
  - right. left. auto.
  - left. apply topIncrement_from_8 in Hinc. split; [reflexivity | split; [lia | eauto]].
  - right. left. split; [destruct Hc as [-> | ->]; auto | reflexivity].
  - right. right. auto.
  - left. split; [reflexivity | split; [lia | eauto]].
  - right. left. auto.
Qed.

Lemma quotacheck_columns_written_witness :
  batched (snd (IndexJs_handleQuotaCheck sampleAnswer []))
          (Update (Cell "META_SQUAD" COL.B 7) [[Int 0]]) /\
  ((COL.B = COL.F /\ 8 <= 7 /\ exists v, [[Int 0]] = [[v]]) \/
   ((COL.B = COL.D \/ COL.B = COL.E) /\ [[Int 0]] = [[Int 0]]) \/
   (COL.B = COL.B /\ 7 <= 7 <= 10 /\ [[Int 0]] = [[Int 0]])).
Proof.
  assert (B : batched (snd (IndexJs_handleQuotaCheck sampleAnswer []))
                (Update (Cell "META_SQUAD" COL.B 7) [[Int 0]])).
  { exists [Update (Cell "META_SQUAD" COL.D 7) [[Int 0]];
             Update (Cell "META_SQUAD" COL.E 7) [[Int 0]];
             Update (Cell "META_SQUAD" COL.B 7) [[Int 0]];
             Update (Cell "META_SQUAD" COL.F 19) [[Int 1]];
             Update (Cell "META_SQUAD" COL.D 19) [[Int 0]]].
    split; [|simpl; auto]. vm_compute. do 8 right. left. reflexivity. }
  destruct (quotacheck_columns_written sampleAnswer
              (Update (Cell "META_SQUAD" COL.B 7) [[Int 0]])) as (H & _).
  split; [exact B | exact (H B)].
Defined.

(** ** The summary of quotacheck *)

Section QuotaSummary.

Variable answer : a1range -> grid.
Variable nameOf : value -> result string.
Variable coerceF : value -> num.
Variable resetCol : COL.col.

Hypothesis resetCol_not_F : resetCol <> COL.F.
Hypothesis name_undefined : nameOf VUndef = Ok "".
Hypothesis name_trimmed : forall b n, nameOf b = Ok n -> trim n = n.

Lemma nameCell_trimmed row : trim (nameCell nameOf row) = nameCell nameOf row.
Proof.
  unfold nameCell. destruct (nameOf (cellOf row COL.B)) as [n|e] eqn:E;
    [eapply name_trimmed; eauto | reflexivity].
Qed.

Lemma in_sheet_entries (en : string -> nat -> list value -> list Entry.entry)
    (rng : string -> a1range) e :
  In e (flat_map (fun x => emitRows (en x) 0 (answer (rng x))) SHEETS) <->
  exists s, In s SHEETS /\ In e (emitRows (en s) 0 (answer (rng s))).
Proof. apply in_flat_map. Qed.

Lemma completed_reports s' :
  fst (handleQuotaCheck answer nameOf coerceF resetCol []) = Ok s' ->
  incrementsReported (snd (handleQuotaCheck answer nameOf coerceF resetCol [])) s'.
Proof.
  intros Hres.
  assert (Hok : isOk (fst (handleQuotaCheck answer nameOf coerceF resetCol [])) = true)
    by now rewrite Hres.
  pose proof (fun u => quota_batched_completed answer nameOf coerceF resetCol u Hok) as HB.
  apply handleQuotaCheck_summary in Hres. destruct Hres as (T & B & _).
  assert (HT : forall e, In e (topIncrements s') <->
             exists s k row, In s SHEETS /\
               nth_error (answer (topRange s)) k = Some row /\
               nameCell nameOf row <> "" /\ topIncrement (7 + k) row = true /\
               e = Entry.Make s (7 + k) (nameCell nameOf row) (InfoF (fNewOf coerceF row))).
  { intros e. rewrite T, in_flat_map. split.
    - intros (s & Hs & He). apply in_topEntries in He.
      destruct He as (k & row & ?). exists s, k, row. tauto.
    - intros (s & k & row & Hs & ?). exists s. split; [exact Hs|].
      apply in_topEntries. exists k, row. tauto. }
  assert (HBo : forall e, In e (bottomIncrements s') <->
             exists s k row, In s SHEETS /\
               nth_error (answer (bottomRange s)) k = Some row /\
               nameCell nameOf row <> "" /\ bottomIncrement row = true /\
               e = Entry.Make s (19 + k) (nameCell nameOf row) (InfoF (fNewOf coerceF row))).
  { intros e. rewrite B, in_flat_map. split.
    - intros (s & Hs & He). apply in_bottomEntries in He.
      destruct He as (k & row & ?). exists s, k, row. tauto.
    - intros (s & k & row & Hs & ?). exists s. split; [exact Hs|].
      apply in_bottomEntries. exists k, row. tauto. }
  split; [|split; [|split]].
  - intros e He. apply in_app_or in He. destruct He as [He|He].
    + apply HT in He. destruct He as (s & k & row & Hs & Hrow & Hn & Hinc & ->).
      cbn [Entry.sheet Entry.name Entry.row Entry.info].
      split; [exact Hs | split; [exact Hn | split; [apply nameCell_trimmed|]]].
      eexists. split; [reflexivity|]. apply HB. exists s. split; [exact Hs|].
      apply FromTopF with (k := k) (row := row); auto.
    + apply HBo in He. destruct He as (s & k & row & Hs & Hrow & Hn & Hinc & ->).
      cbn [Entry.sheet Entry.name Entry.row Entry.info].
      split; [exact Hs | split; [exact Hn | split; [apply nameCell_trimmed|]]].
      eexists. split; [reflexivity|]. apply HB. exists s. split; [exact Hs|].
      apply FromBottomF with (k := k) (row := row); auto.
  - intros u Hu Hcol. apply HB in Hu. destruct Hu as (s & Hs & Hu).
    destruct Hu as [k row Hrow Hn Hinc ->|k row c _ _ Hc ->|r _ _ ->
                   |k row Hrow Hn Hinc ->|k row _ _ ->];
      cbn [range ref_col ref_sheet ref_row values] in *.
    + exists (nameCell nameOf row), (fNewOf coerceF row). split; [reflexivity|].
      apply in_or_app. left. apply HT. exists s, k, row. auto.
    + destruct Hc as [-> | ->]; discriminate.
    + congruence.
    + exists (nameCell nameOf row), (fNewOf coerceF row). split; [reflexivity|].
      apply in_or_app. right. apply HBo. exists s, k, row. auto.
    + discriminate.
  - intros e He. apply HT in He. destruct He as (s & k & row & _ & _ & _ & Hinc & ->).
    apply topIncrement_from_8 in Hinc. exact Hinc.
  - intros e He. apply HBo in He. destruct He as (s & k & row & _ & _ & _ & _ & ->).
    cbn [Entry.row]. lia.
Qed.

(** Something is staged for a sheet exactly when a row with a name was
    read on it. *)
Lemma listedIfAny_named s :
  listedIfAny (stagedFor answer nameOf coerceF resetCol s) s
  = if hasNamedRow answer nameOf s then [s] else [].
Proof.
  unfold hasNamedRow, namedRow.
  destruct (existsb _ _) eqn:E.
  - apply existsb_exists in E. destruct E as (row & Hrow & Hn).
    apply negb_true_iff, String.eqb_neq in Hn.
    assert (H : exists u, In u (stagedFor answer nameOf coerceF resetCol s)).
    { apply in_app_or in Hrow. destruct Hrow as [Hrow|Hrow];
        apply In_nth_error in Hrow; destruct Hrow as (k & Hk); eexists;
        apply in_stagedUpdates.
      - apply FromTopDE with (k := k) (row := row) (c := COL.D); auto.
      - apply FromBottomD with (k := k) (row := row); auto. }
    destruct H as (u & Hu).
    destruct (stagedFor answer nameOf coerceF resetCol s); [destruct Hu | reflexivity].
  - destruct (stagedFor answer nameOf coerceF resetCol s) as [|u rest] eqn:S;
      [reflexivity|].
    exfalso. apply not_true_iff_false in E. apply E. apply existsb_exists.
    assert (Hu : In u (stagedFor answer nameOf coerceF resetCol s))
      by (rewrite S; now left).
    apply in_stagedUpdates in Hu.
    assert (named : forall row, nameCell nameOf row <> "" ->
                    negb (nameCell nameOf row =? "") = true).
    { intros row Hn. now apply negb_true_iff, String.eqb_neq. }
    destruct Hu as [k row Hrow Hn _ _|k row c Hrow Hn _ _|r _ Hn _
                   |k row Hrow Hn _ _|k row Hrow Hn _].
    + exists row. split; [apply in_or_app; left; eapply nth_error_In; eauto | auto].
    + exists row. split; [apply in_or_app; left; eapply nth_error_In; eauto | auto].
    + destruct (named_row_exists nameOf name_undefined _ _ Hn) as (row & Hrow & Hn').
      exists row. split; [apply in_or_app; left; eapply nth_error_In; eauto | auto].
    + exists row. split; [apply in_or_app; right; eapply nth_error_In; eauto | auto].
    + exists row. split; [apply in_or_app; right; eapply nth_error_In; eauto | auto].
Qed.


End QuotaSummary.

Lemma IndexJs_name_trimmed b n : IndexJs.nameOf b = Ok n -> trim n = n.
Proof. unfold IndexJs.nameOf. intros [= <-]. apply trim_idempotent. Qed.

Lemma Part000_name_trimmed b n : Part000.nameOf b = Ok n -> trim n = n.
Proof.
  unfold Part000.nameOf. destruct (or b (VStr "")); try discriminate.
  intros [= <-]. apply trim_idempotent.
Qed.

(** X12: the increments that quotacheck reports are the increments it
    writes.  Every entry of [topIncrements] and [bottomIncrements] names a
    configured sheet and a row whose name is not empty and is trimmed, and
    the value it reports is the one written to [F] of that row in a batch
    of the invocation; every write to a cell of column [F] has its entry; top
    entries are of rows from 8 on, bottom entries of rows from 19 on.  In
    [index.js] always; in [part_000] whenever the invocation completes. *)
Theorem quotacheck_reports_the_increments_written answer :
  (exists summary,
     fst (IndexJs_handleQuotaCheck answer []) = Ok summary /\
     incrementsReported (snd (IndexJs_handleQuotaCheck answer [])) summary) /\
  (forall summary,
     fst (Part000_handleQuotaCheck answer []) = Ok summary ->
     incrementsReported (snd (Part000_handleQuotaCheck answer [])) summary).
Proof.
  split.
  - destruct (proj1 (isOk_true _) (IndexJs_handleQuotaCheck_isOk answer)) as (summary & H).
    exists summary. split; [exact H|].
    apply (completed_reports answer IndexJs.nameOf IndexJs.coerceF IndexJs.resetCol
             IndexJs_resetCol_not_F IndexJs_name_trimmed summary H).
  - intros summary H.
    apply (completed_reports answer Part000.nameOf Part000.coerceF Part000.resetCol
             Part000_resetCol_not_F Part000_name_trimmed summary H).
Qed.

Lemma quotacheck_reports_the_increments_written_witness :
  fst (Part000_handleQuotaCheck sampleAnswer [])
  = Ok (Summary []
          (map (fun s => Entry.Make s 19 "Trp1" (InfoF NaN)) SHEETS)
          SHEETS) /\
  incrementsReported (snd (Part000_handleQuotaCheck sampleAnswer []))
    (Summary [] (map (fun s => Entry.Make s 19 "Trp1" (InfoF NaN)) SHEETS) SHEETS).
Proof.
  assert (H : fst (Part000_handleQuotaCheck sampleAnswer [])
              = Ok (Summary []
                      (map (fun s => Entry.Make s 19 "Trp1" (InfoF NaN)) SHEETS)
                      SHEETS)) by reflexivity.
  split; [exact H|].
  destruct (quotacheck_reports_the_increments_written sampleAnswer) as (_ & HP).
  exact (HP _ H).
Defined.



(** ** A name cell that is not text *)

Lemma Part000_nameOf_isOk b : isOk (Part000.nameOf b) = textOrEmpty b.
Proof.
  unfold Part000.nameOf, textOrEmpty, or.
  destruct b as [|[]|z|s]; cbn [truthy negb isOk]; try reflexivity.
  - destruct (z =? 0)%Z; reflexivity.
  - destruct (negb (s =? "")); reflexivity.
Qed.

Lemma Part000_namesOk rows :
  namesOk Part000.nameOf rows = true <->
  forall row, In row rows -> textOrEmpty (cellOf row COL.B) = true.
Proof.
  unfold namesOk. rewrite forallb_forall.
  split; intros H row Hrow; specialize (H row Hrow);
    now rewrite Part000_nameOf_isOk in *.
Qed.

Lemma Part000_topOk rows : topOk Part000.nameOf rows = namesOk Part000.nameOf rows.
Proof.
  unfold topOk. destruct (namesOk Part000.nameOf rows) eqn:E; [|reflexivity].
  cbn [andb]. apply forallb_forall. intros r _.
  destruct (Nat.lt_ge_cases (r - 7) (List.length rows)) as [Hlt|Hge].
  - rewrite Part000_nameOf_isOk. apply (proj1 (Part000_namesOk rows) E).
    unfold rowOf. now apply nth_In.
  - now rewrite rowOf_beyond.
Qed.

Lemma Part000_quotaOk answer s :
  quotaOk answer Part000.nameOf s = true <-> namesAreText answer s.
Proof.
  unfold quotaOk, namesAreText. rewrite Part000_topOk, andb_true_iff, !Part000_namesOk.
  split.
  - intros (Ht & Hb) row Hrow. apply in_app_or in Hrow. destruct Hrow; auto.
  - intros H. split; intros row Hrow; apply H, in_or_app; auto.
Qed.

Lemma processed_stop {X : Type} (ok : X -> bool) pre x post :
  (forall y, In y pre -> ok y = true) -> ok x = false ->
  processed ok (pre ++ x :: post) = pre ++ [x].
Proof.
  intros Hpre Hx. induction pre as [|y rest IH]; cbn [app processed].
  - now rewrite Hx.
  - rewrite (Hpre y (or_introl eq_refl)), IH; [reflexivity|].
    intros z Hz. apply Hpre. now right.
Qed.

(** X14: quotacheck and a name cell that is not text.  The invocation of
    [index.js] completes whatever the store answers.  That of [part_000]
    completes exactly when every name cell it reads is a string or is not
    truthy; when the first sheet with another name cell (a number, the
    boolean [true]) is reached, it raises a [TypeError], having sent the
    batches of the sheets before that one, which are not undone; it writes
    nothing for that sheet and neither reads nor writes the sheets after
    it. *)
Theorem quotacheck_part_000_stops_at_a_name_that_is_not_text answer :
  isOk (fst (IndexJs_handleQuotaCheck answer [])) = true /\
  (isOk (fst (Part000_handleQuotaCheck answer [])) = true <->
   forall sheetName, In sheetName SHEETS -> namesAreText answer sheetName) /\
  (forall pre sheetName post,
     SHEETS = pre ++ sheetName :: post ->
     (forall x, In x pre -> namesAreText answer x) ->
     ~ namesAreText answer sheetName ->
     fst (Part000_handleQuotaCheck answer []) = Throw TypeError /\
     (forall u, batched (snd (Part000_handleQuotaCheck answer [])) u <->
                exists x, In x pre /\
                          In u (stagedFor answer Part000.nameOf Part000.coerceF
                                  Part000.resetCol x)) /\
     (forall r, In (ValuesGet r) (snd (Part000_handleQuotaCheck answer [])) ->
                In (rg_sheet r) (pre ++ [sheetName]))).
Proof.
  split; [apply IndexJs_handleQuotaCheck_isOk|]. unfold Part000_handleQuotaCheck. split.
  - rewrite handleQuotaCheck_isOk, forallb_forall.
    split; intros H s Hs; apply Part000_quotaOk; auto.
  - intros pre s post HS Hpre Hbad.
    assert (Hpre' : forall x, In x pre -> quotaOk answer Part000.nameOf x = true)
      by (intros x Hx; now apply Part000_quotaOk, Hpre).
    assert (Hbad' : quotaOk answer Part000.nameOf s = false).
    { apply not_true_iff_false. intros H. now apply Part000_quotaOk in H. }
    assert (P : processed (quotaOk answer Part000.nameOf) SHEETS = pre ++ [s])
      by (rewrite HS; now apply processed_stop).
    split; [|split].
    + pose proof (handleQuotaCheck_isOk answer Part000.nameOf Part000.coerceF
                    Part000.resetCol) as H.
      destruct (fst (handleQuotaCheck answer Part000.nameOf Part000.coerceF
                       Part000.resetCol [])) as [s'|[]]; [|reflexivity].
      cbn [isOk] in H. symmetry in H. rewrite forallb_forall in H.
      rewrite H in Hbad'; [discriminate|]. rewrite HS. apply in_or_app. right. now left.
    + intros u. rewrite quota_batched, P. split.
      * intros (x & Hx & Hok & Hu). exists x. split; [|exact Hu].
        apply in_app_or in Hx. destruct Hx as [Hx|[<-|[]]]; [exact Hx | congruence].
      * intros (x & Hx & Hu). exists x.
        split; [apply in_or_app; now left | split; [now apply Hpre' | exact Hu]].
    + intros r. rewrite handleQuotaCheck_log, P, in_flat_map. intros (x & Hx & Hr).
      assert (E : rg_sheet r = x); [|now rewrite E].
      unfold quotaCalls in Hr. cbn [app] in Hr. destruct Hr as [[= <-]|Hr]; [reflexivity|].
      destruct (topOk Part000.nameOf (answer (topRange x))); [|destruct Hr].
      cbn [app] in Hr. destruct Hr as [[= <-]|Hr]; [reflexivity|].
      destruct (namesOk Part000.nameOf (answer (bottomRange x))); [|destruct Hr].
      unfold batchOf in Hr.
      destruct (stagedFor answer Part000.nameOf Part000.coerceF Part000.resetCol x);
        [destruct Hr | destruct Hr as [Hr|[]]; discriminate].
Qed.

Lemma quotacheck_part_000_stops_at_a_name_that_is_not_text_witness :
  SHEETS = ["TROOPER_COMPANY"] ++ "TITAN_COMPANY" :: ["META_SQUAD"; "VANGUARD_COMPANY"] /\
  (forall x, In x ["TROOPER_COMPANY"] -> namesAreText numberInTitan x) /\
  ~ namesAreText numberInTitan "TITAN_COMPANY" /\
  fst (Part000_handleQuotaCheck numberInTitan []) = Throw TypeError /\
  batched (snd (Part000_handleQuotaCheck numberInTitan []))
          (Update (Cell "TROOPER_COMPANY" COL.D 7) [[Int 0]]).
Proof.
  assert (S : SHEETS = ["TROOPER_COMPANY"] ++ "TITAN_COMPANY"
                       :: ["META_SQUAD"; "VANGUARD_COMPANY"]) by reflexivity.
  assert (Hpre : forall x, In x ["TROOPER_COMPANY"] -> namesAreText numberInTitan x).
  { intros x [<-|[]] row Hrow. cbn in Hrow. destruct Hrow as [<-|[<-|[]]]; reflexivity. }
  assert (Hbad : ~ namesAreText numberInTitan "TITAN_COMPANY").
  { intros H. specialize (H [VStr ""; VNum 5] (or_introl eq_refl)). discriminate H. }
  destruct (quotacheck_part_000_stops_at_a_name_that_is_not_text numberInTitan)
    as (_ & _ & H).
  destruct (H _ _ _ S Hpre Hbad) as (HT & HB & _).
  split; [exact S | split; [exact Hpre | split; [exact Hbad | split; [exact HT|]]]].
  apply HB. exists "TROOPER_COMPANY". split; [now left|]. vm_compute. now left.
Defined.

(* ================================================================== *)
(** * A batch writes each cell once *)

(** ** quotacheck *)

Section QuotaCells.

Variable nameOf : value -> result string.
Variable coerceF : value -> num.
Variable resetCol : COL.col.

Hypothesis resetCol_not_D : resetCol <> COL.D.
Hypothesis resetCol_not_E : resetCol <> COL.E.
Hypothesis resetCol_not_F : resetCol <> COL.F.

Lemma NoDup_emitRows (emit : nat -> list value -> list update) (base : nat) :
  (forall i row, NoDup (map range (emit i row))) ->
  (forall i row u, In u (emit i row) -> ref_row (range u) = base + i) ->
  forall rows i, NoDup (map range (emitRows emit i rows)).
Proof.
  intros Hnd Hrow. induction rows as [|row rest IH]; intros i; cbn [emitRows map].
  - constructor.
  - rewrite map_app. apply NoDup_app; [apply Hnd | apply IH|].
    intros a Ha Ha'. apply in_map_iff in Ha, Ha'.
    destruct Ha as (u & <- & Hu), Ha' as (u' & E & Hu').
    apply in_emitRows in Hu'. destruct Hu' as (k & row' & _ & Hu').
    apply Hrow in Hu, Hu'. rewrite E in Hu'. lia.
Qed.

Lemma topEmit_cells sheetName i row :
  NoDup (map range (topEmit nameOf coerceF sheetName i row)).
Proof.
  unfold topEmit. destruct (nameCell nameOf row =? ""); [constructor|].
  destruct (topIncrement (7 + i) row); cbn [app map range];
    repeat constructor; cbn [In]; intuition discriminate.
Qed.

Lemma bottomEmit_cells sheetName i row :
  NoDup (map range (bottomEmit nameOf coerceF sheetName i row)).
Proof.
  unfold bottomEmit. destruct (nameCell nameOf row =? ""); [constructor|].
  destruct (bottomIncrement row); cbn [app map range];
    repeat constructor; cbn [In]; intuition discriminate.
Qed.

Lemma resetLoop_cells sheetName topValues :
  NoDup (map range (flat_map (resetEmit nameOf resetCol sheetName topValues) [7; 8; 9; 10])).
Proof.
  cbn [flat_map]. unfold resetEmit.
  destruct (nameCell nameOf (rowOf topValues (7 - 7)) =? "");
    destruct (nameCell nameOf (rowOf topValues (8 - 7)) =? "");
    destruct (nameCell nameOf (rowOf topValues (9 - 7)) =? "");
    destruct (nameCell nameOf (rowOf topValues (10 - 7)) =? "");
    cbn [app map range]; repeat constructor; cbn [In]; intuition discriminate.
Qed.

Lemma stagedUpdates_cells sheetName topValues bottomValues :
  List.length topValues <= 7 ->
  NoDup (map range (stagedUpdates nameOf coerceF resetCol sheetName topValues bottomValues)).
Proof.
  intros Hlen. unfold stagedUpdates. rewrite !map_app.
  assert (HT : forall u, In u (emitRows (topEmit nameOf coerceF sheetName) 0 topValues) ->
                 ref_row (range u) < 19 /\ ref_col (range u) <> resetCol).
  { intros u Hu. apply in_emitRows in Hu. destruct Hu as (k & row & Hk & Hu).
    apply nth_error_bound in Hk. apply in_topEmit in Hu.
    destruct Hu as (_ & [(_ & ->)|[-> | ->]]); cbn [range ref_row ref_col];
      (split; [lia | congruence]). }
  assert (HB : forall u, In u (emitRows (bottomEmit nameOf coerceF sheetName) 0 bottomValues) ->
                 19 <= ref_row (range u) /\ ref_col (range u) <> resetCol).
  { intros u Hu. apply in_emitRows in Hu. destruct Hu as (k & row & Hk & Hu).
    apply in_bottomEmit in Hu.
    destruct Hu as (_ & [(_ & ->)| ->]); cbn [range ref_row ref_col];
      (split; [lia | congruence]). }
  assert (HR : forall u, In u (flat_map (resetEmit nameOf resetCol sheetName topValues)
                                 [7; 8; 9; 10]) ->
                 ref_col (range u) = resetCol).
  { intros u Hu. apply in_resetLoop in Hu. now destruct Hu as (r & _ & _ & ->). }
  apply NoDup_app; [|apply NoDup_app|].
  - apply (NoDup_emitRows (topEmit nameOf coerceF sheetName) 7).
    + intros i row. apply topEmit_cells.
    + intros i row u Hu. apply in_topEmit in Hu.
      now destruct Hu as (_ & [(_ & ->)|[-> | ->]]).
  - apply resetLoop_cells.
  - apply (NoDup_emitRows (bottomEmit nameOf coerceF sheetName) 19).
    + intros i row. apply bottomEmit_cells.
    + intros i row u Hu. apply in_bottomEmit in Hu.
      now destruct Hu as (_ & [(_ & ->)| ->]).
  - intros a Ha Ha'. apply in_map_iff in Ha, Ha'.
    destruct Ha as (u & <- & Hu), Ha' as (u' & E & Hu').
    apply HR in Hu. apply HB in Hu'. rewrite E in Hu'. tauto.
  - intros a Ha Ha'. apply in_map_iff in Ha. destruct Ha as (u & <- & Hu).
    apply HT in Hu. rewrite <- map_app in Ha'. apply in_map_iff in Ha'.
    destruct Ha' as (u' & E & Hu'). apply in_app_or in Hu'. destruct Hu' as [Hu'|Hu'].
    + apply HR in Hu'. rewrite E in Hu'. tauto.
    + apply HB in Hu'. rewrite E in Hu'. lia.
Qed.

End QuotaCells.

(** X15: when the store answers the reads within their ranges, no batch of
    a quotacheck invocation, in either file, has two updates of the same
    cell: what a batch leaves in the store does not depend on the order in
    which its writes are applied. *)
Theorem quotacheck_writes_each_cell_once answer data :
  answersWithinRanges answer ->
  In (ValuesBatchUpdate data) (snd (IndexJs_handleQuotaCheck answer [])) \/
  In (ValuesBatchUpdate data) (snd (Part000_handleQuotaCheck answer [])) ->
  NoDup (map range data).
Proof.
  intros Hans [H|H]; apply quota_batch_origin in H; destruct H as (s & Hs & ->);
    destruct (Hans s Hs) as (Ht & _); unfold stagedFor;
    apply stagedUpdates_cells; (exact Ht || discriminate).
Qed.

Lemma quotacheck_writes_each_cell_once_witness :
  answersWithinRanges sampleAnswer /\
  NoDup (map range [Update (Cell "META_SQUAD" COL.D 7) [[Int 0]];
                    Update (Cell "META_SQUAD" COL.E 7) [[Int 0]];
                    Update (Cell "META_SQUAD" COL.B 7) [[Int 0]];
                    Update (Cell "META_SQUAD" COL.F 19) [[Int 1]];
                    Update (Cell "META_SQUAD" COL.D 19) [[Int 0]]]).
Proof.
  assert (A : answersWithinRanges sampleAnswer)
    by (intros x _; split; simpl; lia).
  split; [exact A|].
  apply (quotacheck_writes_each_cell_once sampleAnswer _ A).
  left. vm_compute. do 8 right. left. reflexivity.
Defined.

(** ** The counter commands *)

Lemma batch_wordCalls (rng : string -> a1range) (wr : string -> list update) xs data :
  In (ValuesBatchUpdate data) (flat_map (fun s => wordCalls (rng s) (wr s)) xs) ->
  exists s, In s xs /\ data = wr s.
Proof.
  intros Hd. apply in_flat_map in Hd. destruct Hd as (s & Hs & Hd).
  exists s. split; [exact Hs|]. unfold wordCalls, batchOf in Hd. cbn [app] in Hd.
  destruct Hd as [Hd|Hd]; [discriminate|].
  destruct (wr s) as [|x rest]; [destruct Hd|].
  destruct Hd as [Hd|[]]. now injection Hd as <-.
Qed.

Lemma NoDup_word_writes (wr : string -> list update) words :
  (forall w, NoDup (map range (wr w))) ->
  (forall w w' u u', w <> w' -> In u (wr w) -> In u' (wr w') -> range u <> range u') ->
  NoDup words -> NoDup (map range (flat_map wr words)).
Proof.
  intros Hone Hcross. induction 1 as [|w rest Hw Hnd IH]; cbn [flat_map map].
  - constructor.
  - rewrite map_app. apply NoDup_app; [apply Hone | exact IH|].
    intros a Ha Ha'. apply in_map_iff in Ha, Ha'.
    destruct Ha as (u & <- & Hu), Ha' as (u' & E & Hu').
    apply in_flat_map in Hu'. destruct Hu' as (w' & Hw' & Hu').
    apply (Hcross w w' u u'); [intros -> ; contradiction | assumption | assumption | now symmetry].
Qed.

Lemma distinct_words_distinct_rows values w w' i :
  w <> w' -> findIndex values w = Some i -> findIndex values w' <> Some i.
Proof.
  intros Hne H H'. apply findIndex_Some in H, H'. congruence.
Qed.

(** X16: when the words of the input are pairwise distinct, no batch of a
    counter command has two updates of the same cell.  (With a word given
    twice it has: the cells of its row are then written twice.) *)
Theorem counter_commands_write_each_cell_once answer input amount data :
  NoDup (parseWords input) ->
  In (ValuesBatchUpdate data) (snd (handleAdd answer input amount [])) \/
  In (ValuesBatchUpdate data) (snd (handleOfficerAdd answer input amount [])) \/
  In (ValuesBatchUpdate data) (snd (handleTryoutAdd answer input amount [])) ->
  NoDup (map range data).
Proof.
  intros Hnd [H|[H|H]].
  - rewrite handleAdd_run in H. cbn [snd app] in H. apply batch_wordCalls in H.
    destruct H as (s & _ & ->). apply NoDup_word_writes; [| |exact Hnd].
    + intros w. unfold addWrites. destruct (findIndex _ w); cbn [map range];
        repeat constructor; cbn [In]; intuition discriminate.
    + intros w w' u u' Hne Hu Hu' E. apply in_addWrites in Hu, Hu'.
      destruct Hu as (i & Hi & Hu), Hu' as (i' & Hi' & Hu').
      assert (i = i').
      { destruct Hu as [-> | ->], Hu' as [-> | ->]; cbn [range] in E;
          injection E; intros; lia. }
      subst i'. exact (distinct_words_distinct_rows _ _ _ _ Hne Hi Hi').
  - rewrite handleOfficerAdd_run in H. cbn [snd app] in H. apply batch_wordCalls in H.
    destruct H as (s & _ & ->). apply NoDup_word_writes; [| |exact Hnd].
    + intros w. unfold officerAddWrites. destruct (findIndex _ w); cbn [map range];
        repeat constructor; cbn [In]; intuition discriminate.
    + intros w w' u u' Hne Hu Hu' E. apply in_officerAddWrites in Hu, Hu'.
      destruct Hu as (i & Hi & Hu), Hu' as (i' & Hi' & Hu').
      assert (i = i').
      { destruct Hu as [-> | ->], Hu' as [-> | ->]; cbn [range] in E;
          injection E; intros; lia. }
      subst i'. exact (distinct_words_distinct_rows _ _ _ _ Hne Hi Hi').
  - rewrite handleTryoutAdd_run in H. cbn [snd app] in H. apply batch_wordCalls in H.
    destruct H as (s & _ & ->). apply NoDup_word_writes; [| |exact Hnd].
    + intros w. unfold tryoutAddWrites. destruct (findIndex _ w); cbn [map range];
        repeat constructor; cbn [In]; intuition discriminate.
    + intros w w' u u' Hne Hu Hu' E. apply in_tryoutAddWrites in Hu, Hu'.
      destruct Hu as (i & Hi & ->), Hu' as (i' & Hi' & ->).
      assert (i = i') by (cbn [range] in E; injection E; intros; lia).
      subst i'. exact (distinct_words_distinct_rows _ _ _ _ Hne Hi Hi').
Qed.

Lemma counter_commands_write_each_cell_once_witness :
  NoDup (parseWords (VStr "Alice, Bob")) /\
  NoDup (map range [Update (Cell "META_SQUAD" COL.C 3) [[Int 15]];
                    Update (Cell "META_SQUAD" COL.D 3) [[Int 7]]]).
Proof.
  assert (N : NoDup (parseWords (VStr "Alice, Bob"))).
  { vm_compute. repeat constructor; cbn [In]; intuition discriminate. }
  split; [exact N|].
  apply (counter_commands_write_each_cell_once (fun _ => aliceInRow3) (VStr "Alice, Bob") 5
           _ N).
  left. vm_compute. do 5 right. left. reflexivity.
Defined.

(* ================================================================== *)
(** * A counter cell whose text begins with a number *)

Lemma digitsFrom_app d rest :
  allDigits 10 d = true -> startsWithDigit 10 rest = false ->
  forall acc, digitsFrom 10 acc (d ++ rest) = (fst (digitsFrom 10 acc d), rest).
Proof.
  intros Hd Hrest. induction d as [|c r IH]; intros acc; cbn [String.append].
  - destruct rest as [|x t]; [reflexivity|]. cbn [digitsFrom startsWithDigit] in *.
    unfold isDigit in Hrest. now destruct (digitVal 10 x).
  - cbn [allDigits] in Hd. apply andb_true_iff in Hd. destruct Hd as (Hc & Hr).
    cbn [digitsFrom]. unfold isDigit in Hc.
    destruct (digitVal 10 c) as [v|]; [|discriminate]. now apply IH.
Qed.

Lemma decimal_zero n : (0 <= n)%Z -> decimal n = "0" -> n = 0%Z.
Proof.
  intros Hn E. pose proof (digitsFrom_decimal n Hn) as D. rewrite E in D.
  vm_compute in D. congruence.
Qed.

(** The digits of a number followed by something that is not a digit, read
    by [parseInt] after the sign. *)
Lemma leading_decimal n rest :
  (0 <= n)%Z -> startsWithDigit 10 rest = false ->
  (n = 0%Z -> startsWithX rest = false) ->
  trimStart (decimal n ++ rest) = (decimal n ++ rest)%string /\
  stripSign (decimal n ++ rest) = (false, (decimal n ++ rest)%string) /\
  stripPrefix (decimal n ++ rest) = (10%Z, (decimal n ++ rest)%string) /\
  startsWithDigit 10 (decimal n ++ rest) = true /\
  digitsFrom 10 0 (decimal n ++ rest) = (n, rest).
Proof.
  intros Hn Hrest Hx.
  pose proof (allDigits_decimal n Hn) as A.
  pose proof (digitsFrom_app (decimal n) rest A Hrest 0%Z) as D.
  rewrite digitsFrom_decimal in D by exact Hn. cbn [fst] in D.
  pose proof (decimal_zero n Hn) as Z0.
  destruct (decimal n) as [|c r] eqn:E; [now apply decimal_nonempty in E|].
  cbn [allDigits] in A. apply andb_true_iff in A. destruct A as (Hc & Hr).
  destruct (digit_char_facts c Hc) as (W & M & P & _).
  cbn [String.append] in *. split; [|split; [|split; [|split]]].
  - cbn [trimStart]. now rewrite W.
  - cbn [stripSign]. now rewrite M, P.
  - cbn [stripPrefix]. destruct (r ++ rest)%string as [|x t] eqn:R; [reflexivity|].
    destruct ((c =? "0")%char && ((x =? "x")%char || (x =? "X")%char)) eqn:X;
      [|reflexivity].
    exfalso. apply andb_true_iff in X. destruct X as (C0 & X).
    destruct r as [|y r'].
    + cbn [String.append] in R. subst rest. apply Ascii.eqb_eq in C0. subst c.
      specialize (Hx (Z0 eq_refl)). cbn [startsWithX] in Hx. congruence.
    + cbn [String.append] in R. injection R as -> _.
      cbn [allDigits] in Hr. apply andb_true_iff in Hr. destruct Hr as (Hy & _).
      destruct (digit_char_facts x Hy) as (_ & _ & _ & X1 & X2 & _).
      rewrite X1, X2 in X. discriminate.
  - exact Hc.
  - exact D.
Qed.

(** X17: a counter cell whose text begins with a number.  For a text made of
    the decimal digits of [n], with [n] at most [2^53] (up to there every
    integer is a number of JavaScript, and [parseInt] returns it as it
    is), with or without a minus sign in front, followed by anything that
    does not begin with a digit (a thousands separator, a decimal point, a
    unit, nothing), the integer coercion [parseInt(cell || 0) || 0] returns
    [n] (or [-n]) and ignores the rest: ["1,234"] counts as 1 and ["3.9"]
    as 3.  The one exception is [0] followed by [x] or [X], which begins a
    hexadecimal literal. *)
Theorem coerceInt_reads_the_leading_integer n rest :
  (0 <= n <= 2 ^ 53)%Z -> startsWithDigit 10 rest = false ->
  (n = 0%Z -> startsWithX rest = false) ->
  coerceInt (VStr (decimal n ++ rest)) = n /\
  coerceInt (VStr ("-" ++ decimal n ++ rest)) = (- n)%Z.
Proof.
  intros (Hn & _) Hrest Hx.
  destruct (leading_decimal n rest Hn Hrest Hx) as (T & S & P & SD & D).
  assert (N : (decimal n ++ rest)%string <> "").
  { pose proof (decimal_nonempty n) as Hne. destruct (decimal n); [congruence | discriminate]. }
  split.
  - apply coerceInt_parsed. unfold parseInt, parseIntString. cbn [ToString].
    rewrite T, S, P, SD, D. reflexivity.
  - apply coerceInt_parsed. unfold parseInt, parseIntString. cbn [ToString].
    change ("-" ++ decimal n ++ rest)%string with (String "-" (decimal n ++ rest)).
    replace (trimStart (String "-" (decimal n ++ rest)))
      with (String "-" (decimal n ++ rest)) by reflexivity.
    replace (stripSign (String "-" (decimal n ++ rest)))
      with (true, (decimal n ++ rest)%string) by reflexivity.
    rewrite P, SD, D. reflexivity.
Qed.

Lemma coerceInt_reads_the_leading_integer_witness :
  (0 <= 1 <= 2 ^ 53)%Z /\ startsWithDigit 10 ",234" = false /\
  coerceInt (VStr "1,234") = 1%Z /\ coerceInt (VStr "-1,234") = (-1)%Z.
Proof.
  assert (Hn : (0 <= 1 <= 2 ^ 53)%Z) by (split; [lia | discriminate]).
  assert (Hr : startsWithDigit 10 ",234" = false) by reflexivity.
  destruct (coerceInt_reads_the_leading_integer 1 ",234" Hn Hr) as (P & M);
    [intros H; discriminate H|].
  split; [exact Hn | split; [exact Hr | split; [exact P | exact M]]].
Defined.

(* ================================================================== *)
(** * The reads of an invocation *)

Lemma reads_app l1 l2 : reads (l1 ++ l2) = reads l1 ++ reads l2.
Proof. unfold reads. apply flat_map_app. Qed.

Lemma reads_batchOf updates : reads (batchOf updates) = [].
Proof. now destruct updates. Qed.

Lemma reads_sheets (seg : string -> list call) (rs : string -> list a1range) xs :
  (forall x, reads (seg x) = rs x) ->
  reads (flat_map seg xs) = flat_map rs xs.
Proof.
  intros H. induction xs as [|x rest IH]; [reflexivity|].
  cbn [flat_map]. now rewrite reads_app, H, IH.
Qed.

Lemma reads_wordCalls (rng : string -> a1range) (wr : string -> list update) xs :
  reads (flat_map (fun s => wordCalls (rng s) (wr s)) xs) = map rng xs.
Proof.
  rewrite (reads_sheets _ (fun s => [rng s])).
  - induction xs as [|x rest IH]; [reflexivity|]. cbn [flat_map map app]. now rewrite IH.
  - intros x. unfold wordCalls. rewrite reads_app, reads_batchOf. reflexivity.
Qed.

Lemma reads_cons r log : reads (ValuesGet r :: log) = r :: reads log.
Proof. reflexivity. Qed.

Lemma reads_quotaCalls answer nameOf coerceF resetCol x :
  reads (quotaCalls answer nameOf coerceF resetCol x)
  = topRange x :: (if topOk nameOf (answer (topRange x)) then [bottomRange x] else []).
Proof.
  unfold quotaCalls.
  destruct (topOk nameOf (answer (topRange x)));
    [destruct (namesOk nameOf (answer (bottomRange x)))|];
    cbn [app]; rewrite ?reads_cons, ?reads_batchOf; reflexivity.
Qed.

Lemma NoDup_by_sheet (rs : string -> list a1range) xs :
  (forall x, NoDup (rs x)) ->
  (forall x r, In r (rs x) -> rg_sheet r = x) ->
  NoDup xs -> NoDup (flat_map rs xs).
Proof.
  intros Hone Hsheet. induction 1 as [|x rest Hx Hnd IH]; cbn [flat_map].
  - constructor.
  - apply NoDup_app; [apply Hone | exact IH|].
    intros r Hr Hr'. apply in_flat_map in Hr'. destruct Hr' as (y & Hy & Hr').
    apply Hsheet in Hr, Hr'. subst. contradiction.
Qed.

(** X18: no invocation reads a range twice.  Each counter command reads
    its range once on every configured sheet, in the order of [SHEETS],
    whatever it finds; the quotacheck of [index.js] reads the top block and
    then the bottom block of every sheet, in that order; the quotacheck of
    [part_000] reads a prefix of these, without repetition. *)
Theorem handlers_read_each_range_once answer input amount :
  reads (snd (handleAdd answer input amount [])) = map addRange SHEETS /\
  reads (snd (handleOfficerAdd answer input amount [])) = map officerRange SHEETS /\
  reads (snd (handleTryoutAdd answer input amount [])) = map tryoutRange SHEETS /\
  reads (snd (IndexJs_handleQuotaCheck answer []))
  = flat_map (fun s => [topRange s; bottomRange s]) SHEETS /\
  NoDup (reads (snd (Part000_handleQuotaCheck answer []))) /\
  incl (reads (snd (Part000_handleQuotaCheck answer [])))
       (flat_map (fun s => [topRange s; bottomRange s]) SHEETS).
Proof.
  split; [|split; [|split; [|split; [|split]]]].
  - rewrite handleAdd_run. cbn [snd app]. apply reads_wordCalls.
  - rewrite handleOfficerAdd_run. cbn [snd app]. apply reads_wordCalls.
  - rewrite handleTryoutAdd_run. cbn [snd app]. apply reads_wordCalls.
  - unfold IndexJs_handleQuotaCheck. rewrite handleQuotaCheck_log.
    rewrite (processed_ext _ (fun _ => true) SHEETS) by (intros x; apply IndexJs_quotaOk).
    rewrite processed_true. apply reads_sheets. intros x. rewrite reads_quotaCalls.
    pose proof (IndexJs_quotaOk answer x) as H. unfold quotaOk in H.
    apply andb_true_iff in H. destruct H as (-> & _). reflexivity.
  - unfold Part000_handleQuotaCheck. rewrite handleQuotaCheck_log.
    rewrite (reads_sheets _ _ _ (reads_quotaCalls answer Part000.nameOf Part000.coerceF
                                   Part000.resetCol)).
    apply NoDup_by_sheet.
    + intros x. destruct (topOk Part000.nameOf (answer (topRange x)));
        repeat constructor; cbn [In]; intuition discriminate.
    + intros x r Hr. destruct (topOk Part000.nameOf (answer (topRange x)));
        cbn [In] in Hr; intuition (subst; reflexivity).
    + apply processed_NoDup, SHEETS_NoDup.
  - unfold Part000_handleQuotaCheck. rewrite handleQuotaCheck_log.
    rewrite (reads_sheets _ _ _ (reads_quotaCalls answer Part000.nameOf Part000.coerceF
                                   Part000.resetCol)).
    intros r Hr. apply in_flat_map in Hr. destruct Hr as (x & Hx & Hr).
    apply in_flat_map. exists x. split; [eapply processed_incl; exact Hx|].
    destruct (topOk Part000.nameOf (answer (topRange x))); cbn [In] in *; tauto.
Qed.

(* ================================================================== *)
(** * quotacheck on sheets without names *)

Section NoNames.

Variable answer : a1range -> grid.
Variable nameOf : value -> result string.
Variable coerceF : value -> num.
Variable resetCol : COL.col.

Hypothesis name_undefined : nameOf VUndef = Ok "".
Hypothesis no_name : forall s, In s SHEETS -> hasNamedRow answer nameOf s = false.

Lemma no_name_row s row :
  In s SHEETS ->
  In row (answer (topRange s) ++ answer (bottomRange s)) ->
  nameCell nameOf row = "".
Proof.
  intros Hs Hrow. specialize (no_name s Hs). unfold hasNamedRow in no_name.
  destruct (String.eqb_spec (nameCell nameOf row) "") as [E|N]; [exact E|].
  exfalso. apply not_true_iff_false in no_name. apply no_name.
  apply existsb_exists. exists row. split; [exact Hrow|].
  unfold namedRow. now apply negb_true_iff, String.eqb_neq.
Qed.

Lemma no_name_nothing_staged s :
  In s SHEETS -> stagedFor answer nameOf coerceF resetCol s = [].
Proof.
  intros Hs. pose proof (listedIfAny_named answer nameOf coerceF resetCol name_undefined s) as H.
  rewrite (no_name s Hs) in H.
  now destruct (stagedFor answer nameOf coerceF resetCol s).
Qed.

Lemma no_name_no_entries s :
  In s SHEETS ->
  emitRows (topEntries nameOf coerceF s) 0 (answer (topRange s)) = [] /\
  emitRows (bottomEntries nameOf coerceF s) 0 (answer (bottomRange s)) = [].
Proof.
  intros Hs. split.
  - destruct (emitRows _ 0 (answer (topRange s))) as [|e rest] eqn:E; [reflexivity|].
    assert (He : In e (emitRows (topEntries nameOf coerceF s) 0 (answer (topRange s))))
      by (rewrite E; now left).
    apply in_topEntries in He. destruct He as (k & row & Hrow & Hn & _).
    exfalso. apply Hn. apply (no_name_row s row Hs).
    apply in_or_app. left. eapply nth_error_In; eauto.
  - destruct (emitRows _ 0 (answer (bottomRange s))) as [|e rest] eqn:E; [reflexivity|].
    assert (He : In e (emitRows (bottomEntries nameOf coerceF s) 0 (answer (bottomRange s))))
      by (rewrite E; now left).
    apply in_bottomEntries in He. destruct He as (k & row & Hrow & Hn & _).
    exfalso. apply Hn. apply (no_name_row s row Hs).
    apply in_or_app. right. eapply nth_error_In; eauto.
Qed.

Lemma no_name_run :
  isOk (fst (handleQuotaCheck answer nameOf coerceF resetCol [])) = true ->
  handleQuotaCheck answer nameOf coerceF resetCol [] = (Ok emptySummary, quotaReadsOnly).
Proof.
  intros Hok.
  destruct (handleQuotaCheck_completed answer nameOf coerceF resetCol Hok) as (P & Hall).
  pose proof (handleQuotaCheck_log answer nameOf coerceF resetCol) as L. rewrite P in L.
  destruct (handleQuotaCheck answer nameOf coerceF resetCol []) as [[s'|e] log] eqn:E;
    [|discriminate Hok].
  cbn [snd] in L. f_equal.
  - assert (R : fst (handleQuotaCheck answer nameOf coerceF resetCol []) = Ok s')
      by now rewrite E.
    apply handleQuotaCheck_summary in R. destruct R as (T & B & S).
    assert (Z : forall (X : Type) (f : string -> list X),
                (forall s, In s SHEETS -> f s = []) -> flat_map f SHEETS = []).
    { intros X f Hf. now apply flat_map_nil. }
    rewrite Z in T by (intros s Hs; now apply no_name_no_entries).
    rewrite Z in B by (intros s Hs; now apply no_name_no_entries).
    rewrite Z in S by (intros s Hs; now rewrite no_name_nothing_staged).
    destruct s' as [t b u]. cbn in T, B, S. subst. reflexivity.
  - rewrite L. unfold quotaReadsOnly.
    assert (Q : forall xs, (forall s, In s xs -> In s SHEETS) ->
                flat_map (quotaCalls answer nameOf coerceF resetCol) xs
                = flat_map (fun s => [ValuesGet (topRange s); ValuesGet (bottomRange s)]) xs).
    { induction xs as [|x rest IH]; intros Hxs; [reflexivity|].
      cbn [flat_map]. rewrite IH by (intros s Hs; apply Hxs; now right).
      f_equal. unfold quotaCalls.
      pose proof (Hall x (Hxs x (or_introl eq_refl))) as O. unfold quotaOk in O.
      apply andb_true_iff in O. destruct O as (-> & ->).
      now rewrite (no_name_nothing_staged x (Hxs x (or_introl eq_refl))). }
    apply Q. auto.
Qed.

End NoNames.

Lemma hasNamedRow_agree answer s :
  namesAreText answer s ->
  hasNamedRow answer Part000.nameOf s = hasNamedRow answer IndexJs.nameOf s.
Proof.
  unfold namesAreText, hasNamedRow, namedRow.
  generalize (answer (topRange s) ++ answer (bottomRange s)). intros rows H.
  induction rows as [|row rest IH]; [reflexivity|].
  cbn [existsb]. rewrite IH by (intros r Hr; apply H; now right).
  unfold nameCell. rewrite (nameOf_agree _ (H row (or_introl eq_refl))). reflexivity.
Qed.

(** X19: quotacheck on sheets without names.  When no row read on any
    configured sheet has a name left after trimming, the invocation makes
    its eight reads, the top block and then the bottom block of each sheet
    in the order of [SHEETS], sends no batch and returns the empty summary.
    In [index.js] always; in [part_000] when every name cell is a string or
    is not truthy. *)
Theorem quotacheck_without_names_writes_nothing answer :
  (forall s, In s SHEETS -> hasNamedRow answer IndexJs.nameOf s = false) ->
  IndexJs_handleQuotaCheck answer [] = (Ok emptySummary, quotaReadsOnly) /\
  ((forall s, In s SHEETS -> namesAreText answer s) ->
   Part000_handleQuotaCheck answer [] = (Ok emptySummary, quotaReadsOnly)).
Proof.
  intros Hno. split.
  - apply (no_name_run answer IndexJs.nameOf IndexJs.coerceF IndexJs.resetCol
             IndexJs_nameOf_undefined Hno).
    apply IndexJs_handleQuotaCheck_isOk.
  - intros Htext.
    apply (no_name_run answer Part000.nameOf Part000.coerceF Part000.resetCol
             Part000_nameOf_undefined).
    + intros s Hs. rewrite hasNamedRow_agree by now apply Htext. now apply Hno.
    + unfold Part000_handleQuotaCheck. rewrite handleQuotaCheck_isOk.
      apply forallb_forall. intros s Hs. now apply Part000_quotaOk, Htext.
Qed.

Lemma quotacheck_without_names_writes_nothing_witness :
  (forall s, In s SHEETS -> hasNamedRow (fun _ => [[VStr ""; VStr "   "; VStr "9"]])
                              IndexJs.nameOf s = false) /\
  IndexJs_handleQuotaCheck (fun _ => [[VStr ""; VStr "   "; VStr "9"]]) []
  = (Ok emptySummary, quotaReadsOnly).
Proof.
  assert (H : forall s, In s SHEETS ->
                hasNamedRow (fun _ => [[VStr ""; VStr "   "; VStr "9"]])
                  IndexJs.nameOf s = false) by (intros s _; reflexivity).
  split; [exact H|].
  exact (proj1 (quotacheck_without_names_writes_nothing _ H)).
Defined.
